(** * Double-Pendulum-Sim: the simulation core of [main.py]

    A shallow embedding of the physics core of the simulator
    ([DoublePendulum]: equations of motion, RK4 step, forward kinematics,
    energy) and of the parts of [Simulator] that drive it (the sub-step
    loop of [run], frame stepping, the reversible trail, end-mass
    inverse kinematics), followed by the properties the specification
    states about them.

    The definitions then go on to the rest of the state logic of
    [Simulator] and [Slider]: dragging the first mass, the layout of
    the window, the sliders and their synchronisation with the
    pendulum, reset and randomise, the keyboard and the text entry,
    and the pixels [_draw] computes; the last part of the properties
    is about how that code behaves.

    Python floats are kept abstract behind the interface [PyFloat]: the
    program is written once against it and read at two instances,
    - [R]: exact real arithmetic, the reading under which the
      specification states its identities;
    - [float]: IEEE binary64 as CPython computes with it, including the
      exceptions its float primitives raise, used where a property is about
      rounding or non-finite values. *)

From Stdlib Require Import Reals Lra Lia ZArith QArith Qreals List Bool.
From Stdlib Require Floats.
Import ListNotations.

(* ================================================================== *)
(** ** Outcomes of running Python code *)

(** The built-in exceptions the modelled code can raise. *)
Inductive exn : Set :=
| ZeroDivisionError   (* float division by zero *)
| OverflowError       (* [x ** 2] out of range, int too large for a float *)
| ValueError          (* math domain error *)
| IndexError.         (* list assignment index out of range *)

(** A run returns a value, raises, or (loops only) exhausts its fuel. *)
Inductive outcome (A : Type) : Type :=
| Ok (a : A)
| Raise (e : exn)
| OutOfFuel.
Arguments Ok {A} a.
Arguments Raise {A} e.
Arguments OutOfFuel {A}.

(** Computations carry a ghost log of the points at which
    [DoublePendulum._derivatives] was evaluated; nothing in the program
    reads it. *)
Definition M (C A : Type) : Type := list C -> outcome (A * list C).

Definition ret {C A} (a : A) : M C A := fun log => Ok (a, log).

Definition bind {C A B} (m : M C A) (k : A -> M C B) : M C B :=
  fun log =>
    match m log with
    | Ok (a, log') => k a log'
    | Raise e => Raise e
    | OutOfFuel => OutOfFuel
    end.

(** A primitive that may raise but evaluates nothing of the log. *)
Definition lift {C A} (o : outcome A) : M C A :=
  fun log =>
    match o with
    | Ok a => Ok (a, log)
    | Raise e => Raise e
    | OutOfFuel => OutOfFuel
    end.

Definition tick {C} (c : C) : M C unit := fun log => Ok (tt, log ++ [c]).

Definition out_of_fuel {C A} : M C A := fun _ => OutOfFuel.

Declare Scope py_scope.
Delimit Scope py_scope with py.

Notation "x <- m ;; k" := (bind m (fun x => k))
  (at level 61, m at next level, right associativity) : py_scope.
Notation "' pat <- m ;; k" := (bind m (fun x => match x with pat => k end))
  (at level 61, pat pattern, m at next level, right associativity) : py_scope.
Notation "m ;; k" := (bind m (fun _ => k))
  (at level 61, right associativity) : py_scope.

(* ================================================================== *)
(** ** Python floats, abstractly *)

(** What the program uses of [float] and [math].  [+ - *], unary minus,
    [abs], comparison and [math.atan2] never raise; [/] raises
    [ZeroDivisionError], [** 2] raises [OverflowError], [math.sin],
    [math.cos] and [math.acos] raise [ValueError], the conversion of an
    [int] raises [OverflowError]; [math.hypot] has an outcome like the
    rest of [math], though CPython's own never raises. *)
Class PyFloat (F : Type) : Type := {
  fadd : F -> F -> F;
  fsub : F -> F -> F;
  fmul : F -> F -> F;
  fneg : F -> F;
  fabs : F -> F;
  fltb : F -> F -> bool;
  fdiv : F -> F -> outcome F;
  fsquare : F -> outcome F;
  flit : Q -> F;                 (* a numeric literal of the source *)
  of_int : Z -> outcome F;       (* an [int] operand met by a float *)
  m_pi : F;
  m_sin : F -> outcome F;
  m_cos : F -> outcome F;
  m_acos : F -> outcome F;
  m_atan2 : F -> F -> F;
  m_hypot : F -> F -> outcome F
}.

Notation "a + b" := (fadd a b) : py_scope.
Notation "a - b" := (fsub a b) : py_scope.
Notation "a * b" := (fmul a b) : py_scope.
Notation "- a" := (fneg a) : py_scope.
Notation "a <? b" := (fltb a b) : py_scope.
Notation "a / b" := (lift (fdiv a b)) : py_scope.
Notation "a **2" := (lift (fsquare a)) (at level 1, format "a **2") : py_scope.

(** The built-ins [min(a, b)] and [max(a, b)]: the first argument is kept
    unless the second is strictly smaller (larger). *)
Definition py_min {F} {num : PyFloat F} (a b : F) : F := if fltb b a then b else a.
Definition py_max {F} {num : PyFloat F} (a b : F) : F := if fltb a b then b else a.

(* ================================================================== *)
(** ** class DoublePendulum *)

Record DoublePendulum (F : Type) : Type := {
  m1 : F;
  m2 : F;
  L1 : F;
  L2 : F;
  g : F;
  damping : F;
  theta1 : F;
  theta2 : F;
  omega1 : F;
  omega2 : F;
  _initial_energy : option F
}.
Arguments m1 {F} _.
Arguments m2 {F} _.
Arguments L1 {F} _.
Arguments L2 {F} _.
Arguments g {F} _.
Arguments damping {F} _.
Arguments theta1 {F} _.
Arguments theta2 {F} _.
Arguments omega1 {F} _.
Arguments omega2 {F} _.
Arguments _initial_energy {F} _.

(** Assignment to the four state attributes of [self]. *)
Definition set_state {F} (self : DoublePendulum F) (th1 th2 w1 w2 : F)
  : DoublePendulum F :=
  {| m1 := m1 self; m2 := m2 self; L1 := L1 self; L2 := L2 self;
     g := g self; damping := damping self;
     theta1 := th1; theta2 := th2; omega1 := w1; omega2 := w2;
     _initial_energy := _initial_energy self |}.

(** Assignment to [self._initial_energy]. *)
Definition set_initial_energy {F} (self : DoublePendulum F) (e : option F)
  : DoublePendulum F :=
  {| m1 := m1 self; m2 := m2 self; L1 := L1 self; L2 := L2 self;
     g := g self; damping := damping self;
     theta1 := theta1 self; theta2 := theta2 self;
     omega1 := omega1 self; omega2 := omega2 self;
     _initial_energy := e |}.

(** The monad of the program: the log holds the argument 4-tuples. *)
Definition call (F : Type) : Type := (F * F * F * F)%type.
Definition Py (F A : Type) : Type := M (call F) A.

Section Pendulum.
Context {F : Type} {num : PyFloat F}.
Local Open Scope py_scope.

(** [DoublePendulum._derivatives].  [math.sin], [math.cos] and [**] are
    deterministic, so a call repeated on the same argument is bound
    once, where the source evaluates it first. *)
Definition _derivatives (self : DoublePendulum F)
    (theta1 theta2 omega1 omega2 : F) : Py F (F * F * F * F) :=
  tick (theta1, theta2, omega1, omega2) ;;
  let m1 := m1 self in
  let m2 := m2 self in
  let L1 := L1 self in
  let L2 := L2 self in
  let g := g self in
  let delta := theta2 - theta1 in
  cos_delta <- lift (m_cos delta) ;;
  cos_delta_sq <- cos_delta **2 ;;
  let den1 := (m1 + m2) * L1 - m2 * L1 * cos_delta_sq in
  ratio <- L2 / L1 ;;
  let den2 := ratio * den1 in
  omega1_sq <- omega1 **2 ;;
  sin_delta <- lift (m_sin delta) ;;
  sin_theta2 <- lift (m_sin theta2) ;;
  omega2_sq <- omega2 **2 ;;
  sin_theta1 <- lift (m_sin theta1) ;;
  domega1 <-
    (m2 * L1 * omega1_sq * sin_delta * cos_delta
     + m2 * g * sin_theta2 * cos_delta
     + m2 * L2 * omega2_sq * sin_delta
     - (m1 + m2) * g * sin_theta1) / den1 ;;
  domega2 <-
    (- m2 * L2 * omega2_sq * sin_delta * cos_delta
     + (m1 + m2)
       * (g * sin_theta1 * cos_delta
          - L1 * omega1_sq * sin_delta
          - g * sin_theta2)) / den2 ;;
  let domega1 := domega1 - damping self * omega1 in
  let domega2 := domega2 - damping self * omega2 in
  ret (omega1, omega2, domega1, domega2).

(** [DoublePendulum.step]: the four slopes are computed first, then the
    four attributes are assigned; [dt / 6.0] is bound once. *)
Definition step (self : DoublePendulum F) (dt : F) : Py F (DoublePendulum F) :=
  let th1 := theta1 self in
  let th2 := theta2 self in
  let w1 := omega1 self in
  let w2 := omega2 self in
  '(k1_0, k1_1, k1_2, k1_3) <- _derivatives self th1 th2 w1 w2 ;;
  '(k2_0, k2_1, k2_2, k2_3) <-
    _derivatives self
      (th1 + flit 0.5 * dt * k1_0)
      (th2 + flit 0.5 * dt * k1_1)
      (w1 + flit 0.5 * dt * k1_2)
      (w2 + flit 0.5 * dt * k1_3) ;;
  '(k3_0, k3_1, k3_2, k3_3) <-
    _derivatives self
      (th1 + flit 0.5 * dt * k2_0)
      (th2 + flit 0.5 * dt * k2_1)
      (w1 + flit 0.5 * dt * k2_2)
      (w2 + flit 0.5 * dt * k2_3) ;;
  '(k4_0, k4_1, k4_2, k4_3) <-
    _derivatives self
      (th1 + dt * k3_0)
      (th2 + dt * k3_1)
      (w1 + dt * k3_2)
      (w2 + dt * k3_3) ;;
  sixth <- dt / flit 6 ;;
  ret (set_state self
         (theta1 self + sixth * (k1_0 + flit 2 * k2_0 + flit 2 * k3_0 + k4_0))
         (theta2 self + sixth * (k1_1 + flit 2 * k2_1 + flit 2 * k3_1 + k4_1))
         (omega1 self + sixth * (k1_2 + flit 2 * k2_2 + flit 2 * k3_2 + k4_2))
         (omega2 self + sixth * (k1_3 + flit 2 * k2_3 + flit 2 * k3_3 + k4_3))).

(** [DoublePendulum.positions]. *)
Definition positions (self : DoublePendulum F) : Py F ((F * F) * (F * F)) :=
  sin1 <- lift (m_sin (theta1 self)) ;;
  let x1 := L1 self * sin1 in
  cos1 <- lift (m_cos (theta1 self)) ;;
  let y1 := L1 self * cos1 in
  sin2 <- lift (m_sin (theta2 self)) ;;
  let x2 := x1 + L2 self * sin2 in
  cos2 <- lift (m_cos (theta2 self)) ;;
  let y2 := y1 + L2 self * cos2 in
  ret ((x1, y1), (x2, y2)).

(** [DoublePendulum.energy]. *)
Definition energy (self : DoublePendulum F) : Py F F :=
  let m1 := m1 self in
  let m2 := m2 self in
  let L1 := L1 self in
  let L2 := L2 self in
  let g := g self in
  '((x1, y1), (x2, y2)) <- positions self ;;
  v1_sq <- (L1 * omega1 self) **2 ;;
  l2w2_sq <- (L2 * omega2 self) **2 ;;
  cos12 <- lift (m_cos (theta1 self - theta2 self)) ;;
  let v2_sq :=
    v1_sq + l2w2_sq + flit 2 * L1 * L2 * omega1 self * omega2 self * cos12 in
  let T := flit 0.5 * m1 * v1_sq + flit 0.5 * m2 * v2_sq in
  let V := - g * (m1 * y1 + m2 * y2) in
  ret (T + V).

(** [DoublePendulum.reset]. *)
Definition reset (self : DoublePendulum F) (theta1 theta2 : option F)
  : Py F (DoublePendulum F) :=
  th1 <- match theta1 with Some t => ret t | None => m_pi / flit 2 end ;;
  th2 <- match theta2 with Some t => ret t | None => m_pi / flit 2 end ;;
  let self := set_state self th1 th2 (flit 0) (flit 0) in
  e <- energy self ;;
  ret (set_initial_energy self (Some e)).

End Pendulum.

(* ================================================================== *)
(** ** Python lists *)

Section PyList.
Context {A : Type}.

Fixpoint list_update (l : list A) (n : nat) (v : A) : list A :=
  match l, n with
  | [], _ => []
  | _ :: tl, O => v :: tl
  | x :: tl, S n' => x :: list_update tl n' v
  end.

(** [len(l)]. *)
Definition len (l : list A) : Z := Z.of_nat (length l).

(** [l[i] = v]: a negative index counts from the end, an index outside
    the list raises [IndexError]. *)
Definition py_setitem (l : list A) (i : Z) (v : A) : outcome (list A) :=
  let j := if (i <? 0)%Z then (i + len l)%Z else i in
  if ((0 <=? j) && (j <? len l))%Z
  then Ok (list_update l (Z.to_nat j) v)
  else Raise IndexError.

(** [l[i]] read back, for stating what a list holds. *)
Definition py_getitem (l : list A) (i : Z) : option A :=
  if ((0 <=? i) && (i <? len l))%Z then nth_error l (Z.to_nat i) else None.

End PyList.

(* ================================================================== *)
(** ** The reversible trail of [Simulator] *)

(** The four attributes of [Simulator] that make up the trail. *)
Record Trail (P : Type) : Type := {
  trail_history : list P;
  trail_index : Z;
  _last_trail_index : Z;
  _rewind_in_progress : bool
}.
Arguments trail_history {P} _.
Arguments trail_index {P} _.
Arguments _last_trail_index {P} _.
Arguments _rewind_in_progress {P} _.

Section TrailOps.
Context {C P : Type}.
Local Open Scope py_scope.

(** [cur] stands for the call [self._current_point()]; it reads the
    pendulum only, and is run exactly where the source calls it. *)
Variable cur : M C P.

(** The trail as [Simulator.__init__] first assigns it. *)
Definition trail_empty : Trail P :=
  {| trail_history := []; trail_index := 0;
     _last_trail_index := 0; _rewind_in_progress := false |}.

(** [Simulator._append_current_point]. *)
Definition _append_current_point (t : Trail P) : M C (Trail P) :=
  pt <- cur ;;
  let history := trail_history t ++ [pt] in
  ret {| trail_history := history;
         trail_index := len history;
         _last_trail_index := len history;
         _rewind_in_progress := _rewind_in_progress t |}.

(** [Simulator._reset_trail_with_current]. *)
Definition _reset_trail_with_current (t : Trail P) : M C (Trail P) :=
  _append_current_point
    {| trail_history := []; trail_index := 0;
       _last_trail_index := 0;
       _rewind_in_progress := _rewind_in_progress t |}.

(** [Simulator._advance_trail_forward]. *)
Definition _advance_trail_forward (t : Trail P) : M C (Trail P) :=
  t <- (if (trail_index t <? len (trail_history t))%Z
        then
          pt <- cur ;;
          history <- lift (py_setitem (trail_history t) (trail_index t) pt) ;;
          ret {| trail_history := history;
                 trail_index := (trail_index t + 1)%Z;
                 _last_trail_index := _last_trail_index t;
                 _rewind_in_progress := _rewind_in_progress t |}
        else _append_current_point t) ;;
  ret {| trail_history := trail_history t;
         trail_index := trail_index t;
         _last_trail_index := trail_index t;
         _rewind_in_progress := _rewind_in_progress t |}.

(** [Simulator._update_trail]. *)
Definition _update_trail (t : Trail P) : M C (Trail P) :=
  t <- _advance_trail_forward t ;;
  ret {| trail_history := trail_history t;
         trail_index := trail_index t;
         _last_trail_index := trail_index t;
         _rewind_in_progress := _rewind_in_progress t |}.

(** The trail part of [Simulator._step_frame]; [forward] is the value
    of the test [dt > 0]. *)
Definition _step_frame_trail (forward : bool) (t : Trail P) : M C (Trail P) :=
  t <- (if forward
        then _advance_trail_forward t
        else
          let index := Z.max 1 (trail_index t - 1) in
          history <-
            match trail_history t with
            | [] => ret []
            | _ :: _ =>
                pt <- cur ;;
                lift (py_setitem (trail_history t) (index - 1) pt)
            end ;;
          ret {| trail_history := history;
                 trail_index := index;
                 _last_trail_index := _last_trail_index t;
                 _rewind_in_progress := true |}) ;;
  ret {| trail_history := trail_history t;
         trail_index := trail_index t;
         _last_trail_index := trail_index t;
         _rewind_in_progress := _rewind_in_progress t |}.

(** The assignments [Simulator._draw] makes to the trail; the drawing
    itself is left out. *)
Definition _draw_trail (paused show_trail : bool) (t : Trail P) : Trail P :=
  if show_trail && (1 <? trail_index t)%Z then
    let index :=
      if paused && negb (_rewind_in_progress t)
         && (trail_index t <? _last_trail_index t)%Z
      then Z.min (_last_trail_index t) (len (trail_history t))
      else trail_index t in
    if paused
    then {| trail_history := trail_history t;
            trail_index := index;
            _last_trail_index := index;
            _rewind_in_progress := false |}
    else {| trail_history := trail_history t;
            trail_index := index;
            _last_trail_index := _last_trail_index t;
            _rewind_in_progress := _rewind_in_progress t |}
  else t.

End TrailOps.

(* ================================================================== *)
(** ** class Simulator *)

(** The attributes of [Simulator] the modelled methods read or assign;
    widgets, fonts and the window are left out. *)
Record Simulator (F : Type) : Type := {
  pendulum : DoublePendulum F;
  trail : Trail (F * F);
  paused : bool;
  show_trail : bool;
  time_scale : F;
  sim_time : F;
  origin : Z * Z;
  scale : F
}.
Arguments pendulum {F} _.
Arguments trail {F} _.
Arguments paused {F} _.
Arguments show_trail {F} _.
Arguments time_scale {F} _.
Arguments sim_time {F} _.
Arguments origin {F} _.
Arguments scale {F} _.

Section SimulatorOps.
Context {F : Type} {num : PyFloat F}.
Local Open Scope py_scope.

Definition set_pendulum (self : Simulator F) (p : DoublePendulum F) : Simulator F :=
  {| pendulum := p; trail := trail self; paused := paused self;
     show_trail := show_trail self; time_scale := time_scale self;
     sim_time := sim_time self; origin := origin self; scale := scale self |}.

Definition set_trail (self : Simulator F) (t : Trail (F * F)) : Simulator F :=
  {| pendulum := pendulum self; trail := t; paused := paused self;
     show_trail := show_trail self; time_scale := time_scale self;
     sim_time := sim_time self; origin := origin self; scale := scale self |}.

Definition set_paused (self : Simulator F) (b : bool) : Simulator F :=
  {| pendulum := pendulum self; trail := trail self; paused := b;
     show_trail := show_trail self; time_scale := time_scale self;
     sim_time := sim_time self; origin := origin self; scale := scale self |}.

Definition set_sim_time (self : Simulator F) (t : F) : Simulator F :=
  {| pendulum := pendulum self; trail := trail self; paused := paused self;
     show_trail := show_trail self; time_scale := time_scale self;
     sim_time := t; origin := origin self; scale := scale self |}.

(** [Simulator._current_point]. *)
Definition _current_point (self : Simulator F) : Py F (F * F) :=
  '(_, (x2, y2)) <- positions (pendulum self) ;;
  ret (x2, y2).

(** The sub-step loop of [Simulator.run]:
    [while remaining > 0: dt = min(remaining, max_dt); ...]. *)
Definition max_dt : F := flit 0.002.

Fixpoint run_substeps (fuel : nat) (self : Simulator F) (remaining : F)
  : Py F (Simulator F) :=
  match fuel with
  | O => out_of_fuel
  | S fuel' =>
      if flit 0 <? remaining then
        let dt := py_min remaining max_dt in
        p <- step (pendulum self) dt ;;
        let self := set_pendulum self p in
        let remaining := remaining - dt in
        let self := set_sim_time self (sim_time self + dt) in
        run_substeps fuel' self remaining
      else ret self
  end.

(** The [if not self.paused:] block of [Simulator.run] for one tick
    whose interval is [dt_target]. *)
Definition run_tick (fuel : nat) (self : Simulator F) (dt_target : F)
  : Py F (Simulator F) :=
  if paused self then ret self
  else
    self <- run_substeps fuel self dt_target ;;
    t <- _update_trail (_current_point self) (trail self) ;;
    ret (set_trail self t).

(** [Simulator._step_frame]; [direction] is the int [+1] or [-1]. *)
Definition _step_frame (self : Simulator F) (direction : Z) : Py F (Simulator F) :=
  let self := set_paused self true in
  sixtieth <- flit 1 / flit 60 ;;
  let frame_dt := sixtieth * time_scale self in
  d <- lift (of_int direction) ;;
  let dt := frame_dt * d in
  p <- step (pendulum self) dt ;;
  let self := set_pendulum self p in
  let self := set_sim_time self (py_max (flit 0) (sim_time self + dt)) in
  t <- _step_frame_trail (_current_point self) (flit 0 <? dt) (trail self) ;;
  ret (set_trail self t).

(** [Simulator._apply_drag_end]; [pos] is the mouse position in pixels. *)
Definition _apply_drag_end (self : Simulator F) (pos : Z * Z) : Py F (Simulator F) :=
  dx <- lift (of_int (fst pos - fst (origin self))) ;;
  x <- dx / scale self ;;
  dy <- lift (of_int (snd pos - snd (origin self))) ;;
  y <- dy / scale self ;;
  let L1 := L1 (pendulum self) in
  let L2 := L2 (pendulum self) in
  r <- lift (m_hypot x y) ;;
  let r := py_min (py_max r (fabs (L1 - L2) + flit (1 # 10000)))
                  (L1 + L2 - flit (1 # 10000)) in
  cos_elbow <- (r * r - L1 * L1 - L2 * L2) / (flit 2 * L1 * L2) ;;
  let cos_elbow := py_max (flit (-1)) (py_min (flit 1) cos_elbow) in
  elbow <- lift (m_acos cos_elbow) ;;
  let phi := m_atan2 y x in
  sin_elbow <- lift (m_sin elbow) ;;
  cos_elbow' <- lift (m_cos elbow) ;;
  let theta1_x := phi - m_atan2 (L2 * sin_elbow) (L1 + L2 * cos_elbow') in
  let theta2_x := theta1_x + elbow in
  half_pi <- m_pi / flit 2 ;;
  let p := pendulum self in
  ret (set_pendulum self
         (set_state p (half_pi - theta1_x) (half_pi - theta2_x)
                    (flit 0) (flit 0))).

(** [Simulator._drag_update] while the end mass is being dragged. *)
Definition _drag_update_end (self : Simulator F) (pos : Z * Z) : Py F (Simulator F) :=
  self <- _apply_drag_end self pos ;;
  t <- _reset_trail_with_current (_current_point self) (trail self) ;;
  let self := set_trail self t in
  e <- energy (pendulum self) ;;
  let self := set_pendulum self (set_initial_energy (pendulum self) (Some e)) in
  ret (set_trail self
         {| trail_history := trail_history (trail self);
            trail_index := trail_index (trail self);
            _last_trail_index := _last_trail_index (trail self);
            _rewind_in_progress := false |}).

End SimulatorOps.

(* ================================================================== *)
(** ** Real arithmetic as a [PyFloat] *)

Definition Rltb (a b : R) : bool := if Rlt_dec a b then true else false.

Definition Rdiv_py (a b : R) : outcome R :=
  if Req_EM_T b 0 then Raise ZeroDivisionError else Ok (a / b)%R.

(** [math.acos]: a math domain error outside [[-1, 1]]. *)
Definition Racos_py (x : R) : outcome R :=
  if Rle_dec (-1) x then
    if Rle_dec x 1 then Ok (acos x) else Raise ValueError
  else Raise ValueError.

(** [math.atan2(y, x)]: the angle of the point [(x, y)] in [(-pi, pi]],
    [0] at the origin. *)
Definition Ratan2 (y x : R) : R :=
  if Rlt_dec 0 x then atan (y / x)
  else if Rlt_dec x 0 then
    if Rle_dec 0 y then atan (y / x) + PI else atan (y / x) - PI
  else if Rlt_dec 0 y then PI / 2
  else if Rlt_dec y 0 then - (PI / 2)
  else 0.

#[export] Instance R_PyFloat : PyFloat R := {|
  fadd := Rplus;
  fsub := Rminus;
  fmul := Rmult;
  fneg := Ropp;
  fabs := Rabs;
  fltb := Rltb;
  fdiv := Rdiv_py;
  fsquare := fun x => Ok (x ^ 2)%R;
  flit := Q2R;
  of_int := fun z => Ok (IZR z);
  m_pi := PI;
  m_sin := fun x => Ok (sin x);
  m_cos := fun x => Ok (cos x);
  m_acos := Racos_py;
  m_atan2 := Ratan2;
  m_hypot := fun x y => Ok (sqrt (x * x + y * y))
|}.

(* ================================================================== *)
(** ** The specification's reading, over the reals *)

Local Open Scope R_scope.

(** Parameters as the data model requires them: positive masses and
    lengths. *)
Definition valid_params (self : DoublePendulum R) : Prop :=
  0 < m1 self /\ 0 < m2 self /\ 0 < L1 self /\ 0 < L2 self.

(** State vectors [(theta1, theta2, omega1, omega2)]. *)
Definition vec4 : Type := (R * R * R * R)%type.

Definition state (self : DoublePendulum R) : vec4 :=
  (theta1 self, theta2 self, omega1 self, omega2 self).

Definition with_state (self : DoublePendulum R) (y : vec4) : DoublePendulum R :=
  let '(th1, th2, w1, w2) := y in set_state self th1 th2 w1 w2.

Definition vadd (a b : vec4) : vec4 :=
  let '(a0, a1, a2, a3) := a in
  let '(b0, b1, b2, b3) := b in
  (a0 + b0, a1 + b1, a2 + b2, a3 + b3).

Definition vscale (c : R) (a : vec4) : vec4 :=
  let '(a0, a1, a2, a3) := a in (c * a0, c * a1, c * a2, c * a3).

(** The denominator the dynamics divides by. *)
Definition denominator (self : DoublePendulum R) (delta : R) : R :=
  (m1 self + m2 self) * L1 self - m2 self * L1 self * cos delta ^ 2.

(** The equations of motion: the right-hand side [y' = f(y)] of the
    two-link pendulum with viscous damping on each joint. *)
Definition equations_of_motion (self : DoublePendulum R) (y : vec4) : vec4 :=
  let '(th1, th2, w1, w2) := y in
  let delta := th2 - th1 in
  let den1 := denominator self delta in
  let den2 := L2 self / L1 self * den1 in
  (w1, w2,
   (m2 self * L1 self * w1 ^ 2 * sin delta * cos delta
    + m2 self * g self * sin th2 * cos delta
    + m2 self * L2 self * w2 ^ 2 * sin delta
    - (m1 self + m2 self) * g self * sin th1) / den1
   - damping self * w1,
   (- m2 self * L2 self * w2 ^ 2 * sin delta * cos delta
    + (m1 self + m2 self)
      * (g self * sin th1 * cos delta
         - L1 self * w1 ^ 2 * sin delta
         - g self * sin th2)) / den2
   - damping self * w2).

(** The classical fourth-order Runge-Kutta step for [y' = f(y)]: slopes
    at the base point, at two midpoint estimates and at a full-step
    estimate, combined with weights 1:2:2:1 over 6. *)
Section RK4.
Variable f : vec4 -> vec4.
Variable h : R.
Variable y : vec4.

Definition rk4_k1 : vec4 := f y.
Definition rk4_mid1 : vec4 := vadd y (vscale (h / 2) rk4_k1).
Definition rk4_k2 : vec4 := f rk4_mid1.
Definition rk4_mid2 : vec4 := vadd y (vscale (h / 2) rk4_k2).
Definition rk4_k3 : vec4 := f rk4_mid2.
Definition rk4_full : vec4 := vadd y (vscale h rk4_k3).
Definition rk4_k4 : vec4 := f rk4_full.

Definition rk4_points : list vec4 := [y; rk4_mid1; rk4_mid2; rk4_full].

Definition rk4 : vec4 :=
  vadd y
    (vscale (h / 6)
       (vadd (vadd (vadd rk4_k1 (vscale 2 rk4_k2)) (vscale 2 rk4_k3))
             rk4_k4)).
End RK4.

(** The energy read-out of [Simulator._draw_hud]: the current energy,
    the reference (set on first use) and the drift shown. *)
Definition _draw_hud_energy {F} {num : PyFloat F} (p : DoublePendulum F)
  : Py F (DoublePendulum F * F * F) :=
  (e <- energy p ;;
   let reference := match _initial_energy p with Some e0 => e0 | None => e end in
   let p := set_initial_energy p (Some reference) in
   ret (p, e, fsub e reference))%py.

(** Kinetic energy of the two masses, with the coupling term in
    [cos (theta1 - theta2)]. *)
Definition kinetic_energy (self : DoublePendulum R) : R :=
  1 / 2 * m1 self * (L1 self * omega1 self) ^ 2
  + 1 / 2 * m2 self
    * ((L1 self * omega1 self) ^ 2
       + (L2 self * omega2 self) ^ 2
       + 2 * L1 self * L2 self * omega1 self * omega2 self
         * cos (theta1 self - theta2 self)).

(** Potential energy from the joint heights [y1], [y2], measured
    downward-positive from the pivot. *)
Definition potential_energy (self : DoublePendulum R) (y1 y2 : R) : R :=
  - g self * (m1 self * y1 + m2 self * y2).

(** The pendulum of the concrete scenario: unit masses and lengths,
    [g = 9.81], no damping, both links horizontal, at rest. *)
Definition scenario_pendulum : DoublePendulum R :=
  {| m1 := 1; m2 := 1; L1 := 1; L2 := 1; g := 9.81; damping := 0;
     theta1 := PI / 2; theta2 := PI / 2; omega1 := 0; omega2 := 0;
     _initial_energy := None |}.

(** The sub-steps the loop of [run] takes for an interval [remaining],
    at most [n] of them: [0.002] while more than that remains, then the
    rest. *)
Fixpoint substeps (n : nat) (remaining : R) : list R :=
  match n with
  | O => []
  | S n' =>
      if Rlt_dec 0 remaining then
        let dt := Rmin remaining 0.002 in
        dt :: substeps n' (remaining - dt)
      else []
  end.

(** Single RK4 steps of the given sizes, one after the other, the clock
    advanced by each. *)
Fixpoint steps (dts : list R) (self : Simulator R) : Py R (Simulator R) :=
  match dts with
  | [] => ret self
  | dt :: rest =>
      bind (step (pendulum self) dt)
        (fun p =>
           steps rest (set_sim_time (set_pendulum self p) (sim_time self + dt)))
  end.

(** A pendulum on which the dynamics is linear: no gravity, unit
    damping, both links aligned and turning at the same rate. *)
Definition damped_pendulum : DoublePendulum R :=
  {| m1 := 1; m2 := 1; L1 := 1; L2 := 1; g := 0; damping := 1;
     theta1 := 0; theta2 := 0; omega1 := 1; omega2 := 1;
     _initial_energy := None |}.

(** A running simulator around [p], laid out as [__init__] lays out a
    1280 by 840 window for links of total length 2: pivot at pixel
    [(470, 151)], [217.5] pixels to the metre. *)
Definition simulator_of (p : DoublePendulum R) : Simulator R :=
  {| pendulum := p; trail := trail_empty;
     paused := false; show_trail := true;
     time_scale := 1; sim_time := 0;
     origin := (470, 151)%Z; scale := 217.5 |}.

(** What one RK4 step of size [h] multiplies a solution of [w' = -w]
    by: the Taylor polynomial of [exp (-h)] of degree four. *)
Definition rk4_decay (h : R) : R :=
  1 - h + h ^ 2 / 2 - h ^ 3 / 6 + h ^ 4 / 24.

(* ================================================================== *)
(** ** The trail: its invariant and its reachable states *)

Section TrailStates.
Context {C P : Type}.

(** The cursor lies within the recorded samples. *)
Definition cursor_in_bounds (t : Trail P) : Prop :=
  (0 <= trail_index t <= len (trail_history t))%Z.

(** The trail holds a sample and the cursor is past the first one. *)
Definition cursor_on_trail (t : Trail P) : Prop :=
  (1 <= trail_index t <= len (trail_history t))%Z.

(** The trails a [Simulator] can hold once [__init__] has returned:
    [__init__] ends with [_reset_trail_with_current()], and from then
    on the trail changes through the trail methods only. *)
Inductive trail_reachable : Trail P -> Prop :=
| reach_init (cur : M C P) log t log' :
    _reset_trail_with_current cur trail_empty log = Ok (t, log') ->
    trail_reachable t
| reach_reset (cur : M C P) log t t' log' :
    trail_reachable t ->
    _reset_trail_with_current cur t log = Ok (t', log') ->
    trail_reachable t'
| reach_advance (cur : M C P) log t t' log' :
    trail_reachable t ->
    _advance_trail_forward cur t log = Ok (t', log') ->
    trail_reachable t'
| reach_update (cur : M C P) log t t' log' :
    trail_reachable t ->
    _update_trail cur t log = Ok (t', log') ->
    trail_reachable t'
| reach_step_frame (cur : M C P) (forward : bool) log t t' log' :
    trail_reachable t ->
    _step_frame_trail cur forward t log = Ok (t', log') ->
    trail_reachable t'
| reach_draw (paused show_trail : bool) t :
    trail_reachable t ->
    trail_reachable (_draw_trail paused show_trail t).

End TrailStates.
Arguments trail_reachable : clear implicits.

(** The point of the pendulum's frame a mouse position stands for. *)
Definition drag_target (self : Simulator R) (pos : Z * Z) : R * R :=
  (IZR (fst pos - fst (origin self)) / scale self,
   IZR (snd pos - snd (origin self)) / scale self).

(** The distance from the pivot [_apply_drag_end] aims for: that of the
    target, clamped to [[|L1 - L2| + 1e-4, L1 + L2 - 1e-4]]. *)
Definition clamped_radius (l1 l2 : R) (target : R * R) : R :=
  let '(x, y) := target in
  Rmin (Rmax (sqrt (x * x + y * y)) (Rabs (l1 - l2) + 0.0001))
       (l1 + l2 - 0.0001).

(** A trail after one rewind: two samples, the cursor back on the
    first. *)
Definition rewound_trail : Trail (R * R)%type :=
  {| trail_history := [(2, 0); (1, 1)]; trail_index := 1;
     _last_trail_index := 1; _rewind_in_progress := true |}.

(* ================================================================== *)
(** ** Binary64 as CPython computes with it *)

Module Binary64.
Import PrimFloat SpecFloat FloatOps.

(** The C library functions [math] calls; their values at ordinary
    arguments are left open. *)
Record Libm : Type := {
  libm_sin : float -> float;
  libm_cos : float -> float;
  libm_acos : float -> float;
  libm_atan2 : float -> float -> float;
  libm_hypot : float -> float -> float
}.

(** CPython's wrapper around a one-argument libm function
    ([math.sin], [math.cos], [math.acos]): a NaN out of a non-NaN and an
    infinity out of a finite argument are math domain errors. *)
Definition math_1 (func : float -> float) (x : float) : outcome float :=
  let r := func x in
  if is_nan r && negb (is_nan x) then Raise ValueError
  else if is_infinity r && is_finite x then Raise ValueError
  else Ok r.

(** [math.hypot], which CPython computes itself and which never
    raises: an infinite argument gives infinity, a NaN among the others
    gives NaN, and a norm out of range is infinity; the value at finite
    arguments is left to [func]. *)
Definition math_hypot (func : float -> float -> float) (x y : float) : float :=
  if is_infinity x || is_infinity y then infinity
  else if is_nan x || is_nan y then nan
  else func x y.

(** The float nearest to an integer (ties to even). *)
Definition float_of_Z (z : Z) : float :=
  SF2Prim (binary_normalize prec emax z 0 false).

(** An [int] operand converted for a float operation. *)
Definition float_of_int (z : Z) : outcome float :=
  let x := float_of_Z z in
  if is_infinity x then Raise OverflowError else Ok x.

(** A literal: the float nearest to the decimal written, obtained as
    the correctly rounded quotient of two exactly represented integers. *)
Definition float_lit (q : Q) : float :=
  div (float_of_Z (Qnum q)) (float_of_Z (Zpos (Qden q))).

(** [a / b]. *)
Definition float_div (a b : float) : outcome float :=
  if eqb b zero then Raise ZeroDivisionError else Ok (div a b).

(** [x ** 2]: NaN and the infinities pass through, a finite square out
    of range is an [OverflowError]; C's [pow(x, 2.0)] is taken to be the
    correctly rounded square. *)
Definition float_pow2 (x : float) : outcome float :=
  if is_nan x then Ok x
  else if is_infinity x then Ok (abs x)
  else
    let y := mul x x in
    if is_infinity y then Raise OverflowError else Ok y.

Definition binary64 (L : Libm) : PyFloat float := {|
  fadd := add;
  fsub := sub;
  fmul := mul;
  fneg := opp;
  fabs := abs;
  fltb := ltb;
  fdiv := float_div;
  fsquare := float_pow2;
  flit := float_lit;
  of_int := float_of_int;
  m_pi := 0x1.921fb54442d18p+1%float;
  m_sin := math_1 (libm_sin L);
  m_cos := math_1 (libm_cos L);
  m_acos := math_1 (libm_acos L);
  m_atan2 := libm_atan2 L;
  m_hypot := fun x y => Ok (math_hypot (libm_hypot L) x y)
|}.

(** What is assumed of libm: the special values C's Annex F fixes
    ([sin 0 = 0], [cos 0 = 1], [sin NaN = cos NaN = NaN]) and finite
    values at finite arguments. *)
Record libm_annex_f (L : Libm) : Prop := {
  sin_zero : libm_sin L 0%float = 0%float;
  cos_zero : libm_cos L 0%float = 1%float;
  sin_nan : is_nan (libm_sin L nan) = true;
  cos_nan : is_nan (libm_cos L nan) = true;
  sin_finite : forall x, is_finite x = true -> is_finite (libm_sin L x) = true;
  cos_finite : forall x, is_finite x = true -> is_finite (libm_cos L x) = true
}.

(** A libm that is right at [0] and at NaN and constant elsewhere; it
    only shows that the assumptions can be met. *)
Definition crude_libm : Libm :=
  {| libm_sin := fun x => if is_nan x then nan else 0%float;
     libm_cos := fun x => if is_nan x then nan else 1%float;
     libm_acos := fun x => if is_nan x then nan else 0%float;
     libm_atan2 := fun y x => if is_nan y || is_nan x then nan else 0%float;
     libm_hypot := fun x y => if is_nan x || is_nan y then nan else 0%float |}.

(** All four state attributes are finite floats. *)
Definition state_is_finite (self : DoublePendulum float) : bool :=
  is_finite (theta1 self) && is_finite (theta2 self)
  && is_finite (omega1 self) && is_finite (omega2 self).

(** A pendulum with parameters from the sliders' ranges, hanging
    straight down and turning at [2^511] rad/s: a finite state whose
    squared velocities are finite too. *)
Definition fast_pendulum : DoublePendulum float :=
  {| m1 := 1%float; m2 := 4%float; L1 := 1%float; L2 := 1%float;
     g := float_lit 9.81; damping := 0%float;
     theta1 := 0%float; theta2 := 0%float;
     omega1 := 0x1p+511%float; omega2 := 0x1p+511%float;
     _initial_energy := None |}.

(** The angle [0 + 0.5 * 0.002 * 2^511] at which the second slope of a
    step of [0.002] from [fast_pendulum] is taken. *)
Definition fast_half_step_angle : float := Eval cbv in
  (add 0 (mul (mul (float_lit 0.5) (float_lit 0.002)) 0x1p+511))%float.

(** A pendulum at rest, hanging straight down, whose first mass
    [1e-17] is positive but less than half an ulp of the second: the
    sum [m1 + m2] rounds to [m2]. *)
Definition light_pendulum : DoublePendulum float :=
  {| m1 := float_lit (1 # 100000000000000000); m2 := 1%float;
     L1 := 1%float; L2 := 1%float;
     g := float_lit 9.81; damping := 0%float;
     theta1 := 0%float; theta2 := 0%float;
     omega1 := 0%float; omega2 := 0%float;
     _initial_energy := None |}.

End Binary64.

(* ================================================================== *)
(** ** Slices and the visible trail *)

Section PySlice.
Context {A : Type}.

(** A slice bound as Python adjusts it for a list of [n] items: a
    negative bound counts from the end, and the result is clipped to
    [[0, n]]. *)
Definition slice_bound (n i : Z) : Z :=
  if (i <? 0)%Z then Z.max 0 (i + n) else Z.min i n.

(** [l[:i]] and [l[i:]]. *)
Definition py_slice_to (l : list A) (i : Z) : list A :=
  firstn (Z.to_nat (slice_bound (len l) i)) l.

Definition py_slice_from (l : list A) (i : Z) : list A :=
  skipn (Z.to_nat (slice_bound (len l) i)) l.

End PySlice.

(** The samples [Simulator._draw] joins into the polyline of the trail:
    [self.trail_history[: self.trail_index]]. *)
Definition visible_trail {P} (t : Trail P) : list P :=
  py_slice_to (trail_history t) (trail_index t).

(** The cursor [_draw] remembers is the cursor. *)
Definition cursor_remembered {P} (t : Trail P) : Prop :=
  _last_trail_index t = trail_index t.

(* ================================================================== *)
(** ** Dragging the masses *)

Section Dragging.
Context {F : Type} {num : PyFloat F}.
Local Open Scope py_scope.

(** [Simulator._apply_drag_mid]; [pos] is the mouse position in pixels,
    and [math.atan2] converts its two [int] arguments in turn. *)
Definition _apply_drag_mid (self : Simulator F) (pos : Z * Z) : Py F (Simulator F) :=
  let p := pendulum self in
  let delta := theta2 p - theta1 p in
  let rel := ((fst pos - fst (origin self))%Z, (snd pos - snd (origin self))%Z) in
  rel0 <- lift (of_int (fst rel)) ;;
  rel1 <- lift (of_int (snd rel)) ;;
  let theta1 := m_atan2 rel0 rel1 in
  ret (set_pendulum self
         (set_state p theta1 (theta1 + delta) (flit 0) (flit 0))).

(** [Simulator._drag_update]; [dragging_end] and [dragging_mid] are the
    two attributes of that name. *)
Definition _drag_update (dragging_end dragging_mid : bool)
    (self : Simulator F) (pos : Z * Z) : Py F (Simulator F) :=
  self <- (if dragging_end then _apply_drag_end self pos
           else if dragging_mid then _apply_drag_mid self pos
           else ret self) ;;
  t <- _reset_trail_with_current (_current_point self) (trail self) ;;
  let self := set_trail self t in
  e <- energy (pendulum self) ;;
  let self := set_pendulum self (set_initial_energy (pendulum self) (Some e)) in
  ret (set_trail self
         {| trail_history := trail_history (trail self);
            trail_index := trail_index (trail self);
            _last_trail_index := _last_trail_index (trail self);
            _rewind_in_progress := false |}).

End Dragging.

(* ================================================================== *)
(** ** More of Python's numbers *)

(** What the window and the control panel use of [float] and [int]
    beyond [PyFloat]: [a == b], the true division [i / j] of two
    [int]s ([ZeroDivisionError], [OverflowError]), and the conversions
    [int(x)] (truncation) and [round(x)] (to the nearest [int], ties to
    the even one), which raise [OverflowError] at an infinity and
    [ValueError] at a NaN. *)
Class PyNumber (F : Type) : Type := {
  feqb : F -> F -> bool;
  int_truediv : Z -> Z -> outcome F;
  int_of_float : F -> outcome Z;
  round_to_int : F -> outcome Z
}.

(** [int(x)] and [round(x)] of a real number. *)
Definition Rtruncate (x : R) : Z :=
  if Rle_dec 0 x then Int_part x else (- Int_part (- x))%Z.

Definition Rround_half_even (x : R) : Z :=
  let n := Int_part x in
  let d := frac_part x in
  if Rlt_dec d (1 / 2) then n
  else if Rlt_dec (1 / 2) d then (n + 1)%Z
  else if Z.even n then n else (n + 1)%Z.

#[export] Instance R_PyNumber : PyNumber R := {|
  feqb := fun a b => if Req_EM_T a b then true else false;
  int_truediv := fun i j =>
    if (j =? 0)%Z then Raise ZeroDivisionError else Ok (IZR i / IZR j);
  int_of_float := fun x => Ok (Rtruncate x);
  round_to_int := fun x => Ok (Rround_half_even x)
|}.

(* ================================================================== *)
(** ** Binary64 and [int] *)

Module Binary64Number.
Import PrimFloat SpecFloat FloatOps Binary64.

(** The integer a finite float [(-1)^s * m * 2^e] truncates to. *)
Definition float_trunc (x : float) : Z :=
  match Prim2SF x with
  | S754_finite s m e =>
      let q := Z.shiftl (Zpos m) e in
      if s then (- q)%Z else q
  | _ => 0%Z
  end.

(** The integer nearest to a finite float, ties going to the even one. *)
Definition float_round (x : float) : Z :=
  match Prim2SF x with
  | S754_finite s m e =>
      let q := Z.shiftl (Zpos m) e in
      let q :=
        if (0 <=? e)%Z then q
        else
          let cut := (Zpos m - Z.shiftl q (- e))%Z in
          match (2 * cut ?= Z.shiftl 1 (- e))%Z with
          | Lt => q
          | Gt => (q + 1)%Z
          | Eq => if Z.even q then q else (q + 1)%Z
          end in
      if s then (- q)%Z else q
  | _ => 0%Z
  end.

(** [int(x)] and [round(x)]: a NaN is a [ValueError], an infinity an
    [OverflowError]. *)
Definition float_to_int (conv : float -> Z) (x : float) : outcome Z :=
  if is_nan x then Raise ValueError
  else if is_infinity x then Raise OverflowError
  else Ok (conv x).

(** [i / j] of two [int]s: the float nearest to the quotient, computed
    from a quotient of at least 64 bits whose last bit records an
    inexact division; a quotient out of range is an [OverflowError]. *)
Definition int_div (i j : Z) : outcome float :=
  if (j =? 0)%Z then Raise ZeroDivisionError
  else if (i =? 0)%Z then Ok (if (j <? 0)%Z then (-0)%float else 0%float)
  else
    let a := Z.abs i in
    let b := Z.abs j in
    let k := Z.max 0 (64 + Z.log2 b - Z.log2 a) in
    let n := Z.shiftl a k in
    let q := if (n mod b =? 0)%Z then (n / b)%Z else Z.lor (n / b) 1 in
    let q := if xorb (i <? 0)%Z (j <? 0)%Z then (- q)%Z else q in
    let x := SF2Prim (binary_normalize prec emax q (- k) false) in
    if is_infinity x then Raise OverflowError else Ok x.

Definition binary64_number : PyNumber float := {|
  feqb := eqb;
  int_truediv := int_div;
  int_of_float := float_to_int float_trunc;
  round_to_int := float_to_int float_round
|}.

(** A running simulator around [fast_pendulum], laid out as
    [simulator_of] is, with the sample of the end mass that [__init__]
    records. *)
Definition fast_simulator : Simulator float :=
  {| pendulum := fast_pendulum;
     trail := {| trail_history := [(0%float, 2%float)];
                 trail_index := 1; _last_trail_index := 1;
                 _rewind_in_progress := false |};
     paused := false; show_trail := true;
     time_scale := 1%float; sim_time := 0%float;
     origin := (470, 151)%Z; scale := float_lit 217.5 |}.

End Binary64Number.

(* ================================================================== *)
(** ** Drawing the pendulum and its trail *)

Section Drawing.
Context {F : Type} {num : PyFloat F} {ext : PyNumber F}.
Local Open Scope py_scope.

(** The pixel at which a point of the pendulum's frame is drawn:
    [(int(self.origin[0] + x * self.scale),
      int(self.origin[1] + y * self.scale))]. *)
Definition to_pixel (self : Simulator F) (pt : F * F) : Py F (Z * Z) :=
  ox <- lift (of_int (fst (origin self))) ;;
  px <- lift (int_of_float (ox + fst pt * scale self)) ;;
  oy <- lift (of_int (snd (origin self))) ;;
  py <- lift (int_of_float (oy + snd pt * scale self)) ;;
  ret (px, py).

(** [[f(p) for p in l]]. *)
Fixpoint py_map {A B : Type} (f : A -> Py F B) (l : list A) : Py F (list B) :=
  match l with
  | [] => ret []
  | a :: l' =>
      b <- f a ;;
      bs <- py_map f l' ;;
      ret (b :: bs)
  end.

(** [Simulator._draw] from the positions of the joints to the end of
    the trail block: the pixels [p1] and [p2] of the two joints, the
    guard of the trail, the pixels of the visible samples and the
    assignments to the trail.  The calls to pygame, which take these
    pixels, and the HUD, the arrows and the panel drawn after them are
    left out. *)
Definition _draw (self : Simulator F) : Py F (Simulator F) :=
  '((x1, y1), (x2, y2)) <- positions (pendulum self) ;;
  p1 <- to_pixel self (x1, y1) ;;
  p2 <- to_pixel self (x2, y2) ;;
  if show_trail self && (1 <? trail_index (trail self))%Z then
    let t := _draw_trail (paused self) (show_trail self) (trail self) in
    points <- py_map (to_pixel self) (visible_trail t) ;;
    ret (set_trail self t)
  else ret self.

(** One pass of the loop of [Simulator.run] in which no event is
    pending: the sub-steps and the trail unless paused, then
    [_draw]. *)
Definition run_iteration (fuel : nat) (self : Simulator F) (dt_target : F)
  : Py F (Simulator F) :=
  self <- run_tick fuel self dt_target ;;
  _draw self.

End Drawing.


(* ================================================================== *)
(** ** class Slider *)

(** The attributes of a [Slider] its arithmetic reads or assigns;
    [slider_step] is the attribute [step], [rect_x] and [rect_w] are
    [rect.x] and [rect.w]. *)
Record Slider (F : Type) : Type := {
  min_value : F;
  max_value : F;
  value : F;
  slider_step : option F;
  rect_x : Z;
  rect_w : Z
}.
Arguments min_value {F} _.
Arguments max_value {F} _.
Arguments value {F} _.
Arguments slider_step {F} _.
Arguments rect_x {F} _.
Arguments rect_w {F} _.

Definition set_value {F} (self : Slider F) (v : F) : Slider F :=
  {| min_value := min_value self; max_value := max_value self; value := v;
     slider_step := slider_step self;
     rect_x := rect_x self; rect_w := rect_w self |}.

Section SliderOps.
Context {F : Type} {num : PyFloat F} {ext : PyNumber F}.
Local Open Scope py_scope.

(** The truth value of a float: [x != 0.0]. *)
Definition float_bool (x : F) : bool := negb (feqb x (flit 0)).

(** [Slider._update_value_from_pos]; [x] is the pointer's pixel column.
    [if self.step:] fails for [None] and for a zero step. *)
Definition _update_value_from_pos (self : Slider F) (x : Z) : Py F (Slider F) :=
  pct <- lift (int_truediv (x - rect_x self) (rect_w self)) ;;
  let pct := py_max (flit 0) (py_min (flit 1) pct) in
  let raw := min_value self + pct * (max_value self - min_value self) in
  raw <- match slider_step self with
         | Some step =>
             if float_bool step then
               q <- (raw - min_value self) / step ;;
               steps <- lift (round_to_int q) ;;
               steps <- lift (of_int steps) ;;
               ret (min_value self + steps * step)
             else ret raw
         | None => ret raw
         end ;;
  ret (set_value self (py_max (min_value self) (py_min (max_value self) raw))).

End SliderOps.

(** The value a pointer at pixel column [x] stands for on the track of
    a slider, and the point of the grid [lo, lo + step, ...] nearest to
    a value. *)
Definition pointer_value (self : Slider R) (x : Z) : R :=
  min_value self
  + Rmax 0 (Rmin 1 (IZR (x - rect_x self) / IZR (rect_w self)))
    * (max_value self - min_value self).

Definition nearest_on_grid (lo step v : R) : R :=
  lo + IZR (Rround_half_even ((v - lo) / step)) * step.

(* ================================================================== *)
(** ** The window, the control panel and the text entry of [Simulator] *)

Definition set_show_trail {F} (self : Simulator F) (b : bool) : Simulator F :=
  {| pendulum := pendulum self; trail := trail self; paused := paused self;
     show_trail := b; time_scale := time_scale self;
     sim_time := sim_time self; origin := origin self; scale := scale self |}.

Definition set_time_scale {F} (self : Simulator F) (ts : F) : Simulator F :=
  {| pendulum := pendulum self; trail := trail self; paused := paused self;
     show_trail := show_trail self; time_scale := ts;
     sim_time := sim_time self; origin := origin self; scale := scale self |}.

Definition set_origin {F} (self : Simulator F) (o : Z * Z) : Simulator F :=
  {| pendulum := pendulum self; trail := trail self; paused := paused self;
     show_trail := show_trail self; time_scale := time_scale self;
     sim_time := sim_time self; origin := o; scale := scale self |}.

Definition set_scale {F} (self : Simulator F) (s : F) : Simulator F :=
  {| pendulum := pendulum self; trail := trail self; paused := paused self;
     show_trail := show_trail self; time_scale := time_scale self;
     sim_time := sim_time self; origin := origin self; scale := s |}.

(** Assignment to the six parameters of a pendulum. *)
Definition set_params {F} (self : DoublePendulum F)
    (m1' m2' L1' L2' g' damping' : F) : DoublePendulum F :=
  {| m1 := m1'; m2 := m2'; L1 := L1'; L2 := L2'; g := g'; damping := damping';
     theta1 := theta1 self; theta2 := theta2 self;
     omega1 := omega1 self; omega2 := omega2 self;
     _initial_energy := _initial_energy self |}.

(** The attributes that lay out the window. *)
Record Window : Type := {
  width : Z;
  height : Z;
  panel_width : Z;
  render_width : Z;
  panel_collapsed : bool
}.

(** The seven sliders of the panel, in the order of [self.sliders]. *)
Inductive slider_name : Set :=
| Length1 | Length2 | Mass1 | Mass2 | Gravity | Damping | TimeScale.

Record Sliders (F : Type) : Type := {
  length1_slider : Slider F;
  length2_slider : Slider F;
  mass1_slider : Slider F;
  mass2_slider : Slider F;
  gravity_slider : Slider F;
  damping_slider : Slider F;
  time_scale_slider : Slider F
}.
Arguments length1_slider {F} _.
Arguments length2_slider {F} _.
Arguments mass1_slider {F} _.
Arguments mass2_slider {F} _.
Arguments gravity_slider {F} _.
Arguments damping_slider {F} _.
Arguments time_scale_slider {F} _.

Definition get_slider {F} (s : Sliders F) (n : slider_name) : Slider F :=
  match n with
  | Length1 => length1_slider s
  | Length2 => length2_slider s
  | Mass1 => mass1_slider s
  | Mass2 => mass2_slider s
  | Gravity => gravity_slider s
  | Damping => damping_slider s
  | TimeScale => time_scale_slider s
  end.

(** The sliders, each made by [f] from its name and its former self. *)
Definition map_sliders {F} (f : slider_name -> Slider F -> Slider F)
    (s : Sliders F) : Sliders F :=
  {| length1_slider := f Length1 (length1_slider s);
     length2_slider := f Length2 (length2_slider s);
     mass1_slider := f Mass1 (mass1_slider s);
     mass2_slider := f Mass2 (mass2_slider s);
     gravity_slider := f Gravity (gravity_slider s);
     damping_slider := f Damping (damping_slider s);
     time_scale_slider := f TimeScale (time_scale_slider s) |}.

Definition slider_name_eqb (a b : slider_name) : bool :=
  match a, b with
  | Length1, Length1 | Length2, Length2 | Mass1, Mass1 | Mass2, Mass2
  | Gravity, Gravity | Damping, Damping | TimeScale, TimeScale => true
  | _, _ => false
  end.

(** Assignment to the [value] of one slider of the panel. *)
Definition set_slider_value {F} (s : Sliders F) (n : slider_name) (v : F)
  : Sliders F :=
  map_sliders (fun m sl => if slider_name_eqb m n then set_value sl v else sl) s.

(** The object [active_input_slider] refers to: a slider of the panel,
    or a slider the panel held before [_build_controls] replaced its
    sliders by new objects. *)
Inductive slider_ref (F : Type) : Type :=
| in_panel (n : slider_name)
| replaced (s : Slider F).
Arguments in_panel {F} n.
Arguments replaced {F} s.

(** The text entry; a [str] is the list of its code points. *)
Record TextEntry (F : Type) : Type := {
  active_input_slider : option (slider_ref F);
  input_buffer : list Z;
  input_cursor : Z
}.
Arguments active_input_slider {F} _.
Arguments input_buffer {F} _.
Arguments input_cursor {F} _.

(** [Simulator] with the attributes of its user interface: [sim] holds
    the attributes modelled above. *)
Record Gui (F : Type) : Type := {
  sim : Simulator F;
  window : Window;
  sliders : Sliders F;
  entry : TextEntry F;
  default_damping : F;
  show_energy : bool;
  show_arrows : bool;
  about_visible : bool;
  dragging_end : bool;
  dragging_mid : bool
}.
Arguments sim {F} _.
Arguments window {F} _.
Arguments sliders {F} _.
Arguments entry {F} _.
Arguments default_damping {F} _.
Arguments show_energy {F} _.
Arguments show_arrows {F} _.
Arguments about_visible {F} _.
Arguments dragging_end {F} _.
Arguments dragging_mid {F} _.

Definition set_sim {F} (self : Gui F) (s : Simulator F) : Gui F :=
  {| sim := s; window := window self; sliders := sliders self;
     entry := entry self; default_damping := default_damping self;
     show_energy := show_energy self; show_arrows := show_arrows self;
     about_visible := about_visible self;
     dragging_end := dragging_end self; dragging_mid := dragging_mid self |}.

Definition set_window {F} (self : Gui F) (w : Window) : Gui F :=
  {| sim := sim self; window := w; sliders := sliders self;
     entry := entry self; default_damping := default_damping self;
     show_energy := show_energy self; show_arrows := show_arrows self;
     about_visible := about_visible self;
     dragging_end := dragging_end self; dragging_mid := dragging_mid self |}.

Definition set_sliders {F} (self : Gui F) (s : Sliders F) : Gui F :=
  {| sim := sim self; window := window self; sliders := s;
     entry := entry self; default_damping := default_damping self;
     show_energy := show_energy self; show_arrows := show_arrows self;
     about_visible := about_visible self;
     dragging_end := dragging_end self; dragging_mid := dragging_mid self |}.

Definition set_entry {F} (self : Gui F) (e : TextEntry F) : Gui F :=
  {| sim := sim self; window := window self; sliders := sliders self;
     entry := e; default_damping := default_damping self;
     show_energy := show_energy self; show_arrows := show_arrows self;
     about_visible := about_visible self;
     dragging_end := dragging_end self; dragging_mid := dragging_mid self |}.

Definition set_default_damping {F} (self : Gui F) (d : F) : Gui F :=
  {| sim := sim self; window := window self; sliders := sliders self;
     entry := entry self; default_damping := d;
     show_energy := show_energy self; show_arrows := show_arrows self;
     about_visible := about_visible self;
     dragging_end := dragging_end self; dragging_mid := dragging_mid self |}.

Definition set_show_energy {F} (self : Gui F) (b : bool) : Gui F :=
  {| sim := sim self; window := window self; sliders := sliders self;
     entry := entry self; default_damping := default_damping self;
     show_energy := b; show_arrows := show_arrows self;
     about_visible := about_visible self;
     dragging_end := dragging_end self; dragging_mid := dragging_mid self |}.

Definition set_about_visible {F} (self : Gui F) (b : bool) : Gui F :=
  {| sim := sim self; window := window self; sliders := sliders self;
     entry := entry self; default_damping := default_damping self;
     show_energy := show_energy self; show_arrows := show_arrows self;
     about_visible := b;
     dragging_end := dragging_end self; dragging_mid := dragging_mid self |}.

(** The keys the program tells apart; [K_other] is any other key. *)
Inductive key : Set :=
| K_ESCAPE | K_RETURN | K_SPACE | K_r | K_t | K_e
| K_MINUS | K_KP_MINUS | K_EQUALS | K_PLUS | K_KP_PLUS
| K_d | K_s | K_c | K_n
| K_LEFT | K_RIGHT | K_HOME | K_END | K_BACKSPACE | K_DELETE
| K_other.

Section GuiOps.
Context {F : Type} {num : PyFloat F} {ext : PyNumber F}.
Local Open Scope py_scope.

(** [Simulator._reset_trail_with_current] on the simulator's own trail. *)
Definition _reset_trail (self : Simulator F) : Py F (Simulator F) :=
  t <- _reset_trail_with_current (_current_point self) (trail self) ;;
  ret (set_trail self t).

(** [Simulator._compute_scale]. *)
Definition _compute_scale (self : Gui F) : Py F F :=
  let total_length := L1 (pendulum (sim self)) + L2 (pendulum (sim self)) in
  let usable_height := (height (window self) - 260)%Z in
  let usable_width := (render_width (window self) - 140)%Z in
  smaller <- lift (of_int (Z.min usable_width usable_height)) ;;
  (flit 0.75 * smaller) / py_max total_length (flit 0.1).

(** [Simulator._auto_collapse]. *)
Definition _auto_collapse (self : Gui F) (w : Z) : Gui F :=
  let win := window self in
  let threshold := (panel_width win + 520)%Z in
  set_window self
    {| width := width win; height := height win;
       panel_width := panel_width win; render_width := render_width win;
       panel_collapsed := (w <? threshold)%Z |}.

(** [Simulator._update_layout]. *)
Definition _update_layout (self : Gui F) : Py F (Gui F) :=
  let win := window self in
  let render_width :=
    (width win - (if panel_collapsed win then 0 else panel_width win))%Z in
  let self :=
    set_window self
      {| width := width win; height := height win;
         panel_width := panel_width win; render_width := render_width;
         panel_collapsed := panel_collapsed win |} in
  h <- lift (of_int (height win)) ;;
  top <- lift (int_of_float (h * flit 0.18)) ;;
  let self :=
    set_sim self (set_origin (sim self) ((render_width / 2)%Z, Z.max 140 top)) in
  s <- _compute_scale self ;;
  ret (set_sim self (set_scale (sim self) s)).

(** [Simulator._toggle_panel]. *)
Definition _toggle_panel (self : Gui F) : Py F (Gui F) :=
  let win := window self in
  let collapsed := negb (panel_collapsed win) in
  let self :=
    set_window self
      {| width := width win; height := height win;
         panel_width := panel_width win; render_width := render_width win;
         panel_collapsed := collapsed |} in
  let self :=
    if collapsed
    then set_entry self
           {| active_input_slider := None;
              input_buffer := input_buffer (entry self);
              input_cursor := 0 |}
    else self in
  _update_layout self.

(** [Simulator._initial_size]; [current_w] and [current_h] are the
    size of the display as [pygame.display.Info()] reports it. *)
Definition _initial_size (self : Gui F) (current_w current_h : Z)
  : Py F (Z * Z) :=
  w <- lift (of_int current_w) ;;
  max_w <- lift (int_of_float (w * flit 0.9)) ;;
  h <- lift (of_int current_h) ;;
  max_h <- lift (int_of_float (h * flit 0.9)) ;;
  let width := Z.min 1280 max_w in
  let height := Z.min 840 max_h in
  let width := Z.max width (panel_width (window self) + 480) in
  let height := Z.max height 640 in
  ret (width, height).

(** The sliders of [Simulator._build_controls]; the buttons are left
    out.  The sliders are new objects, so a slider [active_input_slider]
    refers to is from now on one the panel no longer holds. *)
Definition _build_controls (self : Gui F) : Gui F :=
  let x := (render_width (window self) + 24)%Z in
  let w := (panel_width (window self) - 48)%Z in
  let p := pendulum (sim self) in
  let slider (lo hi v step : F) : Slider F :=
    {| min_value := lo; max_value := hi; value := v;
       slider_step := Some step; rect_x := x; rect_w := w |} in
  let held := sliders self in
  let self :=
    set_sliders self
      {| length1_slider := slider (flit 0.4) (flit 2.5) (L1 p) (flit 0.01);
         length2_slider := slider (flit 0.4) (flit 2.5) (L2 p) (flit 0.01);
         mass1_slider := slider (flit 0.5) (flit 5) (m1 p) (flit 0.05);
         mass2_slider := slider (flit 0.5) (flit 5) (m2 p) (flit 0.05);
         gravity_slider := slider (flit 0.5) (flit 25) (g p) (flit 0.1);
         damping_slider :=
           slider (flit 0) (flit 0.05) (damping p) (flit 0.0005);
         time_scale_slider := slider (flit 0.25) (flit 3) (flit 1) (flit 0.05) |} in
  set_entry self
    {| active_input_slider :=
         match active_input_slider (entry self) with
         | Some (in_panel n) => Some (replaced (get_slider held n))
         | other => other
         end;
       input_buffer := input_buffer (entry self);
       input_cursor := input_cursor (entry self) |}.

(** [Simulator._sync_from_sliders]. *)
Definition _sync_from_sliders (self : Gui F) : Py F (Gui F) :=
  let s := sliders self in
  let p := pendulum (sim self) in
  let prev_L1 := L1 p in
  let prev_L2 := L2 p in
  let p :=
    set_params p
      (value (mass1_slider s)) (value (mass2_slider s))
      (value (length1_slider s)) (value (length2_slider s))
      (value (gravity_slider s)) (value (damping_slider s)) in
  let self :=
    set_sim self
      (set_time_scale (set_pendulum (sim self) p) (value (time_scale_slider s))) in
  let self := set_default_damping self (value (damping_slider s)) in
  s <- _compute_scale self ;;
  let self := set_sim self (set_scale (sim self) s) in
  e <- energy (pendulum (sim self)) ;;
  let p := set_initial_energy (pendulum (sim self)) (Some e) in
  let self := set_sim self (set_pendulum (sim self) p) in
  if negb (feqb (L1 p) prev_L1) || negb (feqb (L2 p) prev_L2)
  then
    s <- _reset_trail (sim self) ;;
    ret (set_sim self s)
  else ret self.

(** Assignment to [self._rewind_in_progress]. *)
Definition set_rewind_in_progress (self : Simulator F) (b : bool) : Simulator F :=
  set_trail self
    {| trail_history := trail_history (trail self);
       trail_index := trail_index (trail self);
       _last_trail_index := _last_trail_index (trail self);
       _rewind_in_progress := b |}.

(** [Simulator._reset_from_sliders]. *)
Definition _reset_from_sliders (self : Gui F) (theta1 theta2 : option F)
  : Py F (Gui F) :=
  self <- _sync_from_sliders self ;;
  p <- reset (pendulum (sim self)) theta1 theta2 ;;
  e <- energy p ;;
  let p := set_initial_energy p (Some e) in
  let s := set_sim_time (set_pendulum (sim self) p) (flit 0) in
  s <- _reset_trail s ;;
  ret (set_sim self (set_rewind_in_progress s false)).

(** [random.uniform(a, b)] for the value [u] that [random.random()]
    returns: [a + (b - a) * u]. *)
Definition uniform (a b u : F) : F := a + (b - a) * u.

(** [Simulator._randomize_sliders_only]; [u] gives, for each slider,
    the value [random.random()] returns when its turn comes. *)
Definition _randomize_sliders_only (u : slider_name -> F) (self : Gui F)
  : Py F (Gui F) :=
  let rand_between (n : slider_name) (slider : Slider F) : Slider F :=
    set_value slider (uniform (min_value slider) (max_value slider) (u n)) in
  let self := set_sliders self (map_sliders rand_between (sliders self)) in
  self <- _sync_from_sliders self ;;
  let p := pendulum (sim self) in
  let p := set_state p (theta1 p) (theta2 p) (flit 0) (flit 0) in
  e <- energy p ;;
  let p := set_initial_energy p (Some e) in
  s <- _reset_trail (set_pendulum (sim self) p) ;;
  ret (set_sim self (set_rewind_in_progress s false)).

(** [Simulator._reset_to_defaults]; [self.defaults] is never assigned
    to, and its entries are written out. *)
Definition _reset_to_defaults (self : Gui F) : Py F (Gui F) :=
  let defaults (n : slider_name) : F :=
    match n with
    | Length1 | Length2 | Mass1 | Mass2 | TimeScale => flit 1
    | Gravity => flit 9.81
    | Damping => flit 0.01
    end in
  let self :=
    set_sliders self
      (map_sliders (fun n slider => set_value slider (defaults n))
         (sliders self)) in
  let p := pendulum (sim self) in
  let p :=
    set_params p (m1 p) (m2 p) (L1 p) (L2 p) (defaults Gravity) (defaults Damping) in
  let self :=
    set_sim self
      (set_time_scale (set_pendulum (sim self) p) (defaults TimeScale)) in
  th1 <- m_pi / flit 2 ;;
  th2 <- m_pi / flit 2 ;;
  self <- _reset_from_sliders self (Some th1) (Some th2) ;;
  let s := set_sim_time (set_paused (sim self) true) (flit 0) in
  ret (set_sim self (set_rewind_in_progress s false)).

(** [Simulator._on_resize]. *)
Definition _on_resize (self : Gui F) (w h : Z) : Py F (Gui F) :=
  let win := window self in
  let self :=
    set_window self
      {| width := Z.max w (panel_width win + 480); height := Z.max h 640;
         panel_width := panel_width win; render_width := render_width win;
         panel_collapsed := panel_collapsed win |} in
  let self := _auto_collapse self (width (window self)) in
  self <- _update_layout self ;;
  let saved := sliders self in
  let self := _build_controls self in
  let self :=
    set_sliders self
      (map_sliders (fun n slider => set_value slider (value (get_slider saved n)))
         (sliders self)) in
  _sync_from_sliders self.

(** The time scales the key [S] cycles through. *)
Definition time_scale_options : list F :=
  [flit 0.25; flit 0.5; flit 1; flit 1.5; flit 2].

(** [l.index(x)] for a float [x] that is in [l]. *)
Fixpoint py_index (l : list F) (x : F) : Z :=
  match l with
  | [] => 0
  | y :: l' => if feqb y x then 0 else (1 + py_index l' x)%Z
  end.

(** [Simulator._handle_key]; [u1] and [u2] are the values
    [random.random()] returns when the key [N] draws the two angles. *)
Definition _handle_key (u1 u2 : F) (self : Gui F) (k : key) : Py F (Gui F) :=
  let escape_or_return :=
    match k with K_ESCAPE | K_RETURN => true | _ => false end in
  if about_visible self && escape_or_return
  then ret (set_about_visible self false)
  else
    let s := sim self in
    let p := pendulum s in
    match k with
    | K_SPACE => ret (set_sim self (set_paused s (negb (paused s))))
    | K_r => _reset_to_defaults self
    | K_t => ret (set_sim self (set_show_trail s (negb (show_trail s))))
    | K_e => ret (set_show_energy self (negb (show_energy self)))
    | K_MINUS | K_KP_MINUS =>
        let g' := py_max (flit 0.5) (g p - flit 0.5) in
        ret (set_sim self
               (set_pendulum s
                  (set_params p (m1 p) (m2 p) (L1 p) (L2 p) g' (damping p))))
    | K_EQUALS | K_PLUS | K_KP_PLUS =>
        let g' := py_min (flit 30) (g p + flit 0.5) in
        ret (set_sim self
               (set_pendulum s
                  (set_params p (m1 p) (m2 p) (L1 p) (L2 p) g' (damping p))))
    | K_d =>
        let damping' :=
          if flit 0 <? damping p then flit 0 else default_damping self in
        ret (set_sim self
               (set_pendulum s
                  (set_params p (m1 p) (m2 p) (L1 p) (L2 p) (g p) damping')))
    | K_s =>
        let options := time_scale_options in
        let idx :=
          if existsb (fun y => feqb y (time_scale s)) options
          then py_index options (time_scale s) else 2%Z in
        match py_getitem options ((idx + 1) mod len options) with
        | Some ts => ret (set_sim self (set_time_scale s ts))
        | None => lift (Raise IndexError)
        end
    | K_c =>
        s <- _reset_trail s ;;
        ret (set_sim self s)
    | K_n =>
        let th1 := uniform (- m_pi) m_pi u1 in
        let th2 := uniform (- m_pi) m_pi u2 in
        p <- reset p (Some th1) (Some th2) ;;
        let s := set_sim_time (set_paused (set_pendulum s p) false) (flit 0) in
        s <- _reset_trail s ;;
        ret (set_sim self s)
    | _ => ret self
    end.

(** [str.isdigit] from the digit property of a code point. *)
Definition str_isdigit (char_isdigit : Z -> bool) (s : list Z) : bool :=
  match s with
  | [] => false
  | _ :: _ => forallb char_isdigit s
  end.

Definition str_eqb (a b : list Z) : bool :=
  if list_eq_dec Z.eq_dec a b then true else false.

(** [Simulator._commit_input_buffer]; [float_of_str] is [float] applied
    to a [str], [None] standing for a [ValueError]. *)
Definition _commit_input_buffer (float_of_str : list Z -> option F)
    (self : Gui F) : Py F (Gui F) :=
  match active_input_slider (entry self) with
  | None => ret self
  | Some ref =>
      match float_of_str (input_buffer (entry self)) with
      | None =>
          ret (set_entry self
                 {| active_input_slider := None;
                    input_buffer := input_buffer (entry self);
                    input_cursor := input_cursor (entry self) |})
      | Some val =>
          let slider :=
            match ref with
            | in_panel n => get_slider (sliders self) n
            | replaced s => s
            end in
          let val := py_max (min_value slider) (py_min (max_value slider) val) in
          val <- match slider_step slider with
                 | Some step =>
                     if float_bool step then
                       q <- (val - min_value slider) / step ;;
                       steps <- lift (round_to_int q) ;;
                       steps <- lift (of_int steps) ;;
                       ret (min_value slider + steps * step)
                     else ret val
                 | None => ret val
                 end ;;
          let self :=
            match ref with
            | in_panel n => set_sliders self (set_slider_value (sliders self) n val)
            | replaced _ => self
            end in
          let self :=
            set_entry self
              {| active_input_slider := None;
                 input_buffer := input_buffer (entry self);
                 input_cursor := 0 |} in
          _sync_from_sliders self
      end
  end.

(** [Simulator._handle_text_input]; [k] and [unicode] are [event.key]
    and [event.unicode], and the result carries the value returned. *)
Definition _handle_text_input (float_of_str : list Z -> option F)
    (char_isdigit : Z -> bool) (self : Gui F) (k : key) (unicode : list Z)
  : Py F (bool * Gui F) :=
  let e := entry self in
  let buffer := input_buffer e in
  let cursor := input_cursor e in
  let edited (buffer : list Z) (cursor : Z) : Gui F :=
    set_entry self
      {| active_input_slider := active_input_slider e;
         input_buffer := buffer; input_cursor := cursor |} in
  match active_input_slider e with
  | None => ret (false, self)
  | Some _ =>
      match k with
      | K_RETURN =>
          self <- _commit_input_buffer float_of_str self ;;
          ret (true, self)
      | K_ESCAPE =>
          ret (true,
               set_entry self
                 {| active_input_slider := None;
                    input_buffer := buffer; input_cursor := 0 |})
      | K_LEFT => ret (true, edited buffer (Z.max 0 (cursor - 1)))
      | K_RIGHT => ret (true, edited buffer (Z.min (len buffer) (cursor + 1)))
      | K_HOME => ret (true, edited buffer 0%Z)
      | K_END => ret (true, edited buffer (len buffer))
      | K_BACKSPACE =>
          if (0 <? cursor)%Z
          then ret (true,
                    edited (py_slice_to buffer (cursor - 1)
                            ++ py_slice_from buffer cursor)
                           (cursor - 1)%Z)
          else ret (true, self)
      | K_DELETE =>
          if (cursor <? len buffer)%Z
          then ret (true,
                    edited (py_slice_to buffer cursor
                            ++ py_slice_from buffer (cursor + 1))
                           cursor)
          else ret (true, self)
      | _ =>
          if negb (str_eqb unicode [])
             && (str_isdigit char_isdigit unicode
                 || str_eqb unicode [46%Z] || str_eqb unicode [45%Z])
          then ret (true,
                    edited (py_slice_to buffer cursor ++ unicode
                            ++ py_slice_from buffer cursor)
                           (cursor + 1)%Z)
          else ret (true, self)
      end
  end.

End GuiOps.

(** Over the reals: where the end mass is, the energy [energy] returns,
    and the trail [_reset_trail_with_current] leaves behind. *)
Definition end_mass (p : DoublePendulum R) : R * R :=
  (L1 p * sin (theta1 p) + L2 p * sin (theta2 p),
   L1 p * cos (theta1 p) + L2 p * cos (theta2 p)).

Definition total_energy (p : DoublePendulum R) : R :=
  kinetic_energy p
  + potential_energy p (L1 p * cos (theta1 p)) (snd (end_mass p)).

Definition fresh_trail (pt : R * R) (rewinding : bool) : Trail (R * R) :=
  {| trail_history := [pt]; trail_index := 1;
     _last_trail_index := 1; _rewind_in_progress := rewinding |}.

(** The pendulum with the parameters the sliders show. *)
Definition slider_params (s : Sliders R) (p : DoublePendulum R)
  : DoublePendulum R :=
  set_params p
    (value (mass1_slider s)) (value (mass2_slider s))
    (value (length1_slider s)) (value (length2_slider s))
    (value (gravity_slider s)) (value (damping_slider s)).

(** The scale [_compute_scale] returns for a window and a total length. *)
Definition scale_for (win : Window) (total_length : R) : R :=
  0.75 * IZR (Z.min (render_width win - 140) (height win - 260))
  / Rmax total_length 0.1.

(** Over the reals: the window as [_update_layout] lays it out, and the
    place it gives the pivot. *)
Definition laid_out (win : Window) : Window :=
  {| width := width win; height := height win;
     panel_width := panel_width win;
     render_width :=
       (width win - (if panel_collapsed win then 0 else panel_width win))%Z;
     panel_collapsed := panel_collapsed win |}.

Definition pivot_for (win : Window) : Z * Z :=
  ((render_width win / 2)%Z,
   Z.max 140 (Rtruncate (IZR (height win) * 0.18))).

(** The simulator as [__init__] leaves it on a display large enough for
    a window of 1280 by 840: unit masses and lengths, [g = 9.81],
    damping [0.01], both links horizontal, paused. *)
Definition default_pendulum : DoublePendulum R :=
  {| m1 := 1; m2 := 1; L1 := 1; L2 := 1; g := 9.81; damping := 0.01;
     theta1 := PI / 2; theta2 := PI / 2; omega1 := 0; omega2 := 0;
     _initial_energy := Some 0 |}.

Definition default_sliders : Sliders R :=
  let slider lo hi v step :=
    {| min_value := lo; max_value := hi; value := v;
       slider_step := Some step; rect_x := 964; rect_w := 292 |} in
  {| length1_slider := slider 0.4 2.5 1 0.01;
     length2_slider := slider 0.4 2.5 1 0.01;
     mass1_slider := slider 0.5 5 1 0.05;
     mass2_slider := slider 0.5 5 1 0.05;
     gravity_slider := slider 0.5 25 9.81 0.1;
     damping_slider := slider 0 0.05 0.01 0.0005;
     time_scale_slider := slider 0.25 3 1 0.05 |}.

Definition default_gui : Gui R :=
  {| sim :=
       {| pendulum := default_pendulum;
          trail := fresh_trail (2, 0) false;
          paused := true; show_trail := true;
          time_scale := 1; sim_time := 0;
          origin := (470, 151)%Z; scale := 217.5 |};
     window :=
       {| width := 1280; height := 840; panel_width := 340;
          render_width := 940; panel_collapsed := false |};
     sliders := default_sliders;
     entry :=
       {| active_input_slider := None; input_buffer := []; input_cursor := 0 |};
     default_damping := 0.01;
     show_energy := true; show_arrows := false; about_visible := false;
     dragging_end := false; dragging_mid := false |}.

(** The simulator with gravity, damping or time scale set to a value,
    everything else as it is. *)
Definition with_gravity {F} (self : Gui F) (g' : F) : Gui F :=
  let p := pendulum (sim self) in
  set_sim self
    (set_pendulum (sim self)
       (set_params p (m1 p) (m2 p) (L1 p) (L2 p) g' (damping p))).

Definition with_damping {F} (self : Gui F) (d : F) : Gui F :=
  let p := pendulum (sim self) in
  set_sim self
    (set_pendulum (sim self)
       (set_params p (m1 p) (m2 p) (L1 p) (L2 p) (g p) d)).

Definition with_time_scale {F} (self : Gui F) (ts : F) : Gui F :=
  set_sim self (set_time_scale (sim self) ts).

(** The simulator after "Reset": parameters, sliders, pose, clock and
    trail as at start-up, in the window as it is. *)
Definition defaulted (self : Gui R) : Gui R :=
  set_default_damping
    (set_sliders
       (set_sim self
          {| pendulum := default_pendulum;
             trail := fresh_trail (2, 0) false;
             paused := true;
             show_trail := show_trail (sim self);
             time_scale := 1; sim_time := 0;
             origin := origin (sim self);
             scale := scale_for (window self) 2 |})
       (map_sliders
          (fun n slider => set_value slider (value (get_slider default_sliders n)))
          (sliders self)))
    0.01.

(** The text cursor lies within the text. *)
Definition cursor_in_buffer {F} (e : TextEntry F) : Prop :=
  (0 <= input_cursor e <= len (input_buffer e))%Z.

(** Over the reals: the value [_commit_input_buffer] gives a slider for
    a number typed. *)
Definition committed_value (s : Slider R) (val : R) : R :=
  let v := Rmax (min_value s) (Rmin (max_value s) val) in
  match slider_step s with
  | Some step =>
      if Req_EM_T step 0 then v else nearest_on_grid (min_value s) step v
  | None => v
  end.

(** A text entry that has been closed: no slider is active. *)
Definition closed_entry {F} (e : TextEntry F) (cursor : Z) : TextEntry F :=
  {| active_input_slider := None;
     input_buffer := input_buffer e;
     input_cursor := cursor |}.

(** A simulator in which the text of the gravity slider is being
    edited: the buffer holds "9.8" and the cursor is at its end. *)
Definition editing_gui : Gui R :=
  set_entry default_gui
    {| active_input_slider := Some (in_panel Gravity);
       input_buffer := [57; 46; 56]%Z;
       input_cursor := 3 |}.

(** The ASCII digits, and a [float] that reads no text at all; they
    stand in for [str.isdigit] and [float] where an example needs
    them. *)
Definition ascii_isdigit (c : Z) : bool := ((48 <=? c) && (c <=? 57))%Z.

Definition no_float (s : list Z) : option R := None.

(* ================================================================== *)
(** * Properties *)

(** ** Running the monad *)

Lemma bind_Ok {C A B} (m : M C A) (k : A -> M C B) log a log' :
  m log = Ok (a, log') -> bind m k log = k a log'.
Proof. intros E. unfold bind. now rewrite E. Qed.

Lemma bind_Ok_inv {C A B} (m : M C A) (k : A -> M C B) log b log'' :
  bind m k log = Ok (b, log'') ->
  exists a log', m log = Ok (a, log') /\ k a log' = Ok (b, log'').
Proof.
  unfold bind. destruct (m log) as [[a log']| |]; try discriminate.
  intros E. now exists a, log'.
Qed.

Lemma bind_ext {C A B} (m : M C A) (k1 k2 : A -> M C B) log :
  (forall a log', k1 a log' = k2 a log') -> bind m k1 log = bind m k2 log.
Proof.
  intros Hk. unfold bind. destruct (m log) as [[a log']| |]; auto.
Qed.

Lemma bind_lift_Ok {C A B} (o : outcome A) (k : A -> M C B) log a :
  o = Ok a -> bind (lift o) k log = k a log.
Proof. intros ->. reflexivity. Qed.

(** ** The dynamics over the reals *)

Lemma Rdiv_py_nonzero a b : b <> 0 -> Rdiv_py a b = Ok (a / b).
Proof. intros Hb. unfold Rdiv_py. now destruct (Req_EM_T b 0). Qed.

Lemma denominator_lower_bound self delta :
  0 < m2 self -> 0 < L1 self ->
  m1 self * L1 self <= denominator self delta.
Proof.
  intros Hm2 HL1. unfold denominator.
  assert (Hc : cos delta ^ 2 <= 1).
  { pose proof (COS_bound delta) as [Hlo Hhi]. nra. }
  assert (0 < m2 self * L1 self) by nra.
  nra.
Qed.

Lemma derivatives_real self th1 th2 w1 w2 log :
  valid_params self ->
  _derivatives self th1 th2 w1 w2 log
  = Ok (equations_of_motion self (th1, th2, w1, w2),
        log ++ [(th1, th2, w1, w2)]).
Proof.
  intros (Hm1 & Hm2 & HL1 & HL2).
  pose proof (denominator_lower_bound self (th2 - th1) Hm2 HL1) as Hden.
  assert (Hpos : 0 < m1 self * L1 self) by nra.
  assert (Hratio : 0 < L2 self / L1 self) by now apply Rdiv_lt_0_compat.
  unfold equations_of_motion.
  unfold denominator in *.
  unfold _derivatives, bind, tick, lift, ret. cbn in *.
  rewrite (Rdiv_py_nonzero (L2 self) (L1 self)) by lra.
  rewrite Rdiv_py_nonzero by lra.
  rewrite Rdiv_py_nonzero by nra.
  reflexivity.
Qed.

Lemma flit_real_half : flit 0.5 = 1 / 2.
Proof. cbn. unfold Q2R. cbn. lra. Qed.

Lemma flit_real_Z (z : Z) : flit (inject_Z z) = IZR z.
Proof. cbn. unfold Q2R. cbn. field. Qed.

Lemma flit_real_six : flit 6 = 6.
Proof. apply (flit_real_Z 6). Qed.

Lemma flit_real_two : flit 2 = 2.
Proof. apply (flit_real_Z 2). Qed.

Lemma flit_real_zero : flit 0 = 0.
Proof. apply (flit_real_Z 0). Qed.

Lemma flit_real_tenth_of_mm : flit (1 # 10000) = 0.0001.
Proof. cbn [flit R_PyFloat]. unfold Q2R. cbn [Qnum Qden]. lra. Qed.

Lemma flit_real_one : flit 1 = 1.
Proof. apply (flit_real_Z 1). Qed.

Lemma flit_real_minus_one : flit (-1) = -1.
Proof. apply (flit_real_Z (-1)). Qed.

Lemma flit_real_sixty : flit 60 = 60.
Proof. apply (flit_real_Z 60). Qed.

Ltac real_ops := cbn [fadd fsub fmul fneg fdiv fltb R_PyFloat].

(** One stage of [step]: run the call, name the four slopes it returns. *)
Ltac rk4_stage Hv :=
  rewrite (bind_Ok _ _ _ _ _ (derivatives_real _ _ _ _ _ _ Hv));
  cbv beta iota delta [vadd vscale];
  lazymatch goal with
  | |- (match ?e with pair _ _ => _ end) _ = _ =>
      destruct e as [[[? ?] ?] ?]
  end;
  cbv beta iota.

Lemma step_real self dt log :
  valid_params self ->
  step self dt log
  = Ok (with_state self (rk4 (equations_of_motion self) dt (state self)),
        log ++ rk4_points (equations_of_motion self) dt (state self)).
Proof.
  intros Hv. unfold step.
  unfold rk4, rk4_points, rk4_k4, rk4_full, rk4_k3, rk4_mid2, rk4_k2,
    rk4_mid1, rk4_k1, state.
  rewrite !flit_real_half, !flit_real_two, flit_real_six. real_ops.
  replace (1 / 2 * dt) with (dt / 2) by lra.
  do 4 rk4_stage Hv.
  rewrite (bind_Ok _ _ _ (dt / 6) _)
    by (unfold lift; rewrite Rdiv_py_nonzero by lra; reflexivity).
  unfold ret, with_state. rewrite <- !app_assoc. reflexivity.
Qed.

(** ** Forward kinematics and energy over the reals *)

Lemma positions_real (self : DoublePendulum R) log :
  positions self log
  = Ok ((L1 self * sin (theta1 self), L1 self * cos (theta1 self),
         (L1 self * sin (theta1 self) + L2 self * sin (theta2 self),
          L1 self * cos (theta1 self) + L2 self * cos (theta2 self))),
        log).
Proof. reflexivity. Qed.

Lemma energy_real (self : DoublePendulum R) log :
  energy self log
  = Ok (kinetic_energy self
        + potential_energy self
            (L1 self * cos (theta1 self))
            (L1 self * cos (theta1 self) + L2 self * cos (theta2 self)),
        log).
Proof.
  unfold energy. rewrite (bind_Ok _ _ _ _ _ (positions_real self log)).
  cbv beta iota. rewrite !flit_real_half, !flit_real_two.
  reflexivity.
Qed.

(** ** C4: the dynamics never divides by zero *)



(** ** C5: one step is one classical RK4 step *)

(** C5. For valid parameters, every state and every [dt] (negative ones
    included), [step] evaluates [_derivatives] exactly four times, at
    the base state, at the two half-step estimates and at the full-step
    estimate, and replaces the state by
    [y + dt/6 * (k1 + 2*k2 + 2*k3 + k4)]. *)
Theorem step_is_classical_rk4
    (self : DoublePendulum R) (dt : R) (log : list (call R)) :
  valid_params self ->
  let f := equations_of_motion self in
  let y := state self in
  let k1 := f y in
  let k2 := f (vadd y (vscale (dt / 2) k1)) in
  let k3 := f (vadd y (vscale (dt / 2) k2)) in
  let k4 := f (vadd y (vscale dt k3)) in
  step self dt log
  = Ok (with_state self
          (vadd y
             (vscale (dt / 6)
                (vadd (vadd (vadd k1 (vscale 2 k2)) (vscale 2 k3)) k4))),
        log ++ [y;
                vadd y (vscale (dt / 2) k1);
                vadd y (vscale (dt / 2) k2);
                vadd y (vscale dt k3)])
  /\ (forall a b c d log',
        _derivatives self a b c d log'
        = Ok (f (a, b, c, d), log' ++ [(a, b, c, d)])).
Proof.
  intros Hv f y k1 k2 k3 k4. split.
  - apply (step_real self dt log Hv).
  - intros a b c d log'. now apply derivatives_real.
Qed.

Lemma step_is_classical_rk4_witness :
  valid_params scenario_pendulum /\
  exists y1 p1 p2 p3,
    step scenario_pendulum (- (1 / 60)) []
    = Ok (with_state scenario_pendulum y1, [state scenario_pendulum; p1; p2; p3]).
Proof.
  assert (Hv : valid_params scenario_pendulum) by (unfold valid_params; cbn; lra).
  split; [exact Hv|].
  destruct (step_is_classical_rk4 scenario_pendulum (- (1 / 60)) [] Hv) as [E _].
  cbv zeta in E. cbn [app] in E.
  eexists _, _, _, _. exact E.
Defined.

(** ** C6: the energy diagnostic *)

(** C6. [energy()] is [T + V]: the kinetic energy of both masses with
    the coupling term in [cos (theta1 - theta2)], and
    [V = -g*(m1*y1 + m2*y2)] on the joint heights [positions()] returns;
    it is computed from the current state on each call: the stored
    reference [_initial_energy] is not read, and the read-out of the HUD
    shows the energy of the state it is called on. *)
Theorem energy_is_kinetic_plus_potential
    (self : DoublePendulum R) (log : list (call R)) :
  exists x1 y1 x2 y2,
    positions self log = Ok ((x1, y1, (x2, y2)), log)
    /\ energy self log
       = Ok (kinetic_energy self + potential_energy self y1 y2, log)
    /\ (forall cached,
          energy (set_initial_energy self cached) log = energy self log)
    /\ (exists self' drift,
          _draw_hud_energy self log
          = Ok (self', kinetic_energy self + potential_energy self y1 y2, drift,
                log)).
Proof.
  eexists _, _, _, _. split; [apply positions_real|].
  split; [apply energy_real|]. split.
  - intros cached. now rewrite !energy_real.
  - unfold _draw_hud_energy.
    rewrite (bind_Ok _ _ _ _ _ (energy_real self log)).
    eexists _, _. reflexivity.
Qed.

(** ** C2: the concrete scenario *)

Lemma scenario_positions log :
  positions scenario_pendulum log = Ok ((1, 0, (2, 0)), log).
Proof.
  rewrite positions_real. cbn [scenario_pendulum L1 L2 theta1 theta2].
  rewrite sin_PI2, cos_PI2. do 3 f_equal; f_equal; lra.
Qed.

Lemma scenario_energy log : energy scenario_pendulum log = Ok (0, log).
Proof.
  rewrite energy_real. unfold kinetic_energy, potential_energy.
  cbn [scenario_pendulum m1 m2 L1 L2 g theta1 theta2 omega1 omega2].
  rewrite cos_PI2. do 2 f_equal. lra.
Qed.

(** C2, as stated, fails: in the scenario both joints are level with the
    pivot, so the energy is [0]; no value within [1e-2] of [-29.43] is
    returned. *)
Lemma scenario_energy_is_not_minus_29_43 :
  ~ (exists e log',
       energy scenario_pendulum [] = Ok (e, log')
       /\ Rabs (e - - 29.43) <= 0.01).
Proof.
  intros (e & log' & E & Habs). rewrite scenario_energy in E.
  injection E as <- _.
  rewrite Rabs_pos_eq in Habs; lra.
Qed.

(** C2, amended. In the scenario [positions()] returns [(1, 0)] and
    [(2, 0)] and [energy()] returns [0]; [-29.43] is the energy of the
    same pendulum hanging straight down ([theta1 = theta2 = 0]). *)
Theorem scenario_positions_and_energy (log : list (call R)) :
  positions scenario_pendulum log = Ok ((1, 0, (2, 0)), log)
  /\ energy scenario_pendulum log = Ok (0, log)
  /\ energy (set_state scenario_pendulum 0 0 0 0) log = Ok (- 29.43, log).
Proof.
  split; [apply scenario_positions|]. split; [apply scenario_energy|].
  rewrite energy_real. unfold kinetic_energy, potential_energy.
  cbn [scenario_pendulum set_state m1 m2 L1 L2 g theta1 theta2 omega1 omega2].
  rewrite cos_0. do 2 f_equal. lra.
Qed.

(** ** C10: a zero step, and the parameters *)

(** Whatever the float type, a step that returns has assigned the four
    state attributes, each [dt / 6.0] times some sum, and nothing else. *)
Lemma step_returns_inv {F} {num : PyFloat F}
    (self : DoublePendulum F) (dt : F) log self' log' :
  step self dt log = Ok (self', log') ->
  exists sixth s0 s1 s2 s3,
    fdiv dt (flit 6) = Ok sixth /\
    self' = set_state self
              (fadd (theta1 self) (fmul sixth s0))
              (fadd (theta2 self) (fmul sixth s1))
              (fadd (omega1 self) (fmul sixth s2))
              (fadd (omega2 self) (fmul sixth s3)).
Proof.
  intros E. unfold step in E.
  apply bind_Ok_inv in E as ([[[a0 a1] a2] a3] & l1 & _ & E).
  apply bind_Ok_inv in E as ([[[b0 b1] b2] b3] & l2 & _ & E).
  apply bind_Ok_inv in E as ([[[c0 c1] c2] c3] & l3 & _ & E).
  apply bind_Ok_inv in E as ([[[d0 d1] d2] d3] & l4 & _ & E).
  apply bind_Ok_inv in E as (sixth & l5 & Es & E).
  unfold ret in E. injection E as <- <-.
  unfold lift in Es. destruct (fdiv dt (flit 6)) as [q| |] eqn:Eq;
    try discriminate.
  injection Es as <- <-.
  eexists _, _, _, _, _. split; [reflexivity|]. reflexivity.
Qed.

(** Over the reals a step with [dt = 0] that returns, returns the
    pendulum it was given; with valid parameters it returns. *)
Lemma step_zero_real (self : DoublePendulum R) (log : list (call R)) self' log' :
  step self 0 log = Ok (self', log') -> self' = self.
Proof.
  intros E.
  apply step_returns_inv in E as (sixth & s0 & s1 & s2 & s3 & Es & ->).
  rewrite flit_real_six in Es. cbn [fdiv R_PyFloat] in Es.
  rewrite Rdiv_py_nonzero in Es by lra. injection Es as <-.
  destruct self; unfold set_state; cbn. f_equal; lra.
Qed.

Lemma step_zero_returns_real (self : DoublePendulum R) (log : list (call R)) :
  valid_params self -> exists log', step self 0 log = Ok (self, log').
Proof.
  intros Hv. eexists. rewrite (step_real self 0 log Hv).
  pose proof (step_real self 0 log Hv) as E.
  apply step_zero_real in E. rewrite E. reflexivity.
Qed.

(** ** C1: where the interval is subdivided *)

Lemma Rltb_true a b : a < b -> Rltb a b = true.
Proof. intros Hab. unfold Rltb. now destruct (Rlt_dec a b). Qed.

Lemma Rltb_false a b : b <= a -> Rltb a b = false.
Proof. intros Hab. unfold Rltb. destruct (Rlt_dec a b); [lra | reflexivity]. Qed.

Lemma max_dt_real : max_dt = 0.002.
Proof. unfold max_dt. cbn. unfold Q2R. cbn. lra. Qed.

Lemma py_min_real (a b : R) : py_min a b = Rmin a b.
Proof.
  unfold py_min, Rmin. cbn [fltb R_PyFloat]. unfold Rltb.
  destruct (Rlt_dec b a), (Rle_dec a b); try reflexivity; lra.
Qed.

Lemma py_max_real (a b : R) : py_max a b = Rmax a b.
Proof.
  unfold py_max, Rmax. cbn [fltb R_PyFloat]. unfold Rltb.
  destruct (Rlt_dec a b), (Rle_dec a b); try reflexivity; lra.
Qed.

(** With fuel for one more test than there are sub-steps, the loop is
    the composition of the single steps of [substeps]. *)
Lemma run_substeps_steps (n : nat) :
  forall (self : Simulator R) (remaining : R) log (fuel : nat),
    remaining <= INR n * 0.002 -> (n < fuel)%nat ->
    run_substeps fuel self remaining log
    = steps (substeps n remaining) self log.
Proof.
  induction n as [|n IH]; intros self remaining log fuel Hrem Hfuel;
    destruct fuel as [|fuel]; try lia.
  - cbn [INR] in Hrem. cbn [run_substeps substeps steps].
    rewrite flit_real_zero. cbn [fltb R_PyFloat].
    rewrite Rltb_false by lra. reflexivity.
  - rewrite S_INR in Hrem. cbn [run_substeps substeps].
    rewrite flit_real_zero. cbn [fltb R_PyFloat]. unfold Rltb.
    destruct (Rlt_dec 0 remaining) as [Hpos|Hneg]; [|reflexivity].
    rewrite py_min_real, max_dt_real. cbn [steps fsub fadd R_PyFloat].
    apply bind_ext. intros p log'.
    apply IH; [|lia].
    pose proof (pos_INR n).
    unfold Rmin. destruct (Rle_dec remaining 0.002); lra.
Qed.

Lemma substeps_sizes (n : nat) :
  forall remaining,
    remaining <= INR n * 0.002 ->
    Forall (fun dt => 0 < dt <= 0.002) (substeps n remaining)
    /\ Forall (fun dt => dt = 0.002) (removelast (substeps n remaining))
    /\ fold_right Rplus 0 (substeps n remaining) = Rmax 0 remaining.
Proof.
  induction n as [|n IH]; intros remaining Hrem.
  - cbn [INR] in Hrem. cbn [substeps removelast fold_right].
    repeat split; try constructor. rewrite Rmax_left; lra.
  - rewrite S_INR in Hrem. cbn [substeps].
    destruct (Rlt_dec 0 remaining) as [Hpos|Hneg].
    2:{ cbn [removelast fold_right]. repeat split; try constructor.
        rewrite Rmax_left; lra. }
    assert (Hle : remaining - Rmin remaining 0.002 <= INR n * 0.002).
    { pose proof (pos_INR n).
      unfold Rmin. destruct (Rle_dec remaining 0.002); lra. }
    destruct (IH _ Hle) as (Hall & Hfull & Hsum).
    split; [|split].
    + constructor; [|exact Hall].
      unfold Rmin. destruct (Rle_dec remaining 0.002); lra.
    + cbn [removelast].
      destruct (substeps n (remaining - Rmin remaining 0.002)) as [|d ds] eqn:E;
        [constructor|].
      constructor; [|exact Hfull].
      (* a further sub-step means more than [0.002] remained *)
      unfold Rmin in *. destruct (Rle_dec remaining 0.002) as [Hsmall|Hbig];
        [|reflexivity].
      exfalso. replace (remaining - remaining) with 0 in E by lra.
      destruct n; cbn [substeps] in E; [discriminate|].
      destruct (Rlt_dec 0 0); [lra|discriminate].
    + cbn [fold_right]. rewrite Hsum.
      unfold Rmin. destruct (Rle_dec remaining 0.002).
      * rewrite Rmax_left by lra. rewrite Rmax_right by lra. lra.
      * rewrite !Rmax_right by lra. lra.
Qed.

Lemma enough_substeps (remaining : R) :
  exists n : nat, remaining <= INR n * 0.002.
Proof.
  destruct (INR_unbounded (remaining / 0.002)) as [n Hn].
  exists n.
  apply (Rmult_lt_compat_r 0.002) in Hn; [|lra].
  replace (remaining / 0.002 * 0.002) with remaining in Hn by (field; lra).
  lra.
Qed.

Lemma valid_params_with_state self y :
  valid_params (with_state self y) <-> valid_params self.
Proof. destruct y as [[[a b] c] d]. reflexivity. Qed.

Lemma steps_return (dts : list R) :
  forall (self : Simulator R) log,
    valid_params (pendulum self) ->
    exists self' log',
      steps dts self log = Ok (self', log')
      /\ length log' = (length log + 4 * length dts)%nat
      /\ sim_time self' = sim_time self + fold_right Rplus 0 dts.
Proof.
  induction dts as [|dt dts IH]; intros self log Hv.
  - exists self, log. cbn. repeat split; [lia | lra].
  - cbn [steps].
    rewrite (bind_Ok _ _ _ _ _ (step_real (pendulum self) dt log Hv)).
    match goal with |- context [steps dts ?s ?l] =>
      destruct (IH s l) as (self' & log' & E & Hlen & Htime) end.
    { cbn [pendulum set_sim_time set_pendulum].
      now apply valid_params_with_state. }
    exists self', log'. split; [exact E|]. split.
    + rewrite Hlen, length_app. cbn [length rk4_points]. lia.
    + rewrite Htime. cbn [sim_time set_sim_time fold_right]. lra.
Qed.

(** C1, amended. The subdivision is done by the loop of [Simulator.run],
    not by [step]: for every interval [dt_target] the loop, given enough
    fuel, is the composition of single RK4 steps whose sizes lie in
    [(0, 0.002]], are all [0.002] except the last, and sum to
    [dt_target] (to nothing when [dt_target <= 0]); with valid
    parameters it returns, having evaluated [_derivatives] four times
    per sub-step and advanced the clock by [dt_target]. *)
Theorem run_subdivides_into_rk4_steps
    (self : Simulator R) (dt_target : R) (log : list (call R)) :
  exists (dts : list R) (fuel0 : nat),
    Forall (fun dt => 0 < dt <= 0.002) dts
    /\ Forall (fun dt => dt = 0.002) (removelast dts)
    /\ fold_right Rplus 0 dts = Rmax 0 dt_target
    /\ (forall fuel, (fuel0 <= fuel)%nat ->
          run_substeps fuel self dt_target log = steps dts self log)
    /\ (valid_params (pendulum self) ->
        exists self' log',
          run_substeps fuel0 self dt_target log = Ok (self', log')
          /\ length log' = (length log + 4 * length dts)%nat
          /\ sim_time self' = sim_time self + Rmax 0 dt_target).
Proof.
  destruct (enough_substeps dt_target) as [n Hn].
  destruct (substeps_sizes n dt_target Hn) as (Hall & Hfull & Hsum).
  exists (substeps n dt_target), (S n).
  repeat split; try assumption.
  - intros fuel Hfuel. apply run_substeps_steps; [exact Hn | lia].
  - intros Hv.
    destruct (steps_return (substeps n dt_target) self log Hv)
      as (self' & log' & E & Hlen & Htime).
    exists self', log'.
    rewrite (run_substeps_steps n) by (try exact Hn; lia).
    rewrite <- Hsum. now repeat split.
Qed.

Lemma run_subdivides_into_rk4_steps_witness :
  valid_params damped_pendulum /\
  exists (dts : list R) self' log',
    Forall (fun dt => 0 < dt <= 0.002) dts
    /\ fold_right Rplus 0 dts = Rmax 0 (1 / 60)
    /\ steps dts (simulator_of damped_pendulum) [] = Ok (self', log')
    /\ length log' = (4 * length dts)%nat.
Proof.
  assert (Hv : valid_params damped_pendulum) by (unfold valid_params; cbn; lra).
  split; [exact Hv|].
  destruct (run_subdivides_into_rk4_steps (simulator_of damped_pendulum) (1 / 60) [])
    as (dts & fuel0 & Hall & _ & Hsum & Hrun & Hret).
  destruct (Hret Hv) as (self' & log' & E & Hlen & _).
  exists dts, self', log'. repeat split; try assumption.
  rewrite <- E. symmetry. apply Hrun. lia.
Defined.

(** On [damped_pendulum], with both links aligned and turning together,
    the dynamics is [theta' = w], [w' = -w]. *)
Lemma equations_of_motion_damped (a b c d th w : R) :
  equations_of_motion (set_state damped_pendulum a b c d) (th, th, w, w)
  = (w, w, - w, - w).
Proof.
  unfold equations_of_motion, denominator.
  cbn [set_state damped_pendulum m1 m2 L1 L2 g damping].
  replace (th - th) with 0 by lra. rewrite sin_0, cos_0.
  repeat f_equal; field.
Qed.

Lemma state_set_state (self : DoublePendulum R) a b c d :
  state (set_state self a b c d) = (a, b, c, d).
Proof. reflexivity. Qed.

Lemma with_state_set_state (self : DoublePendulum R) a b c d y :
  with_state (set_state self a b c d) y = with_state self y.
Proof. now destruct y as [[[? ?] ?] ?]. Qed.

Lemma step_damped (a w h : R) log :
  exists a',
    step (set_state damped_pendulum a a w w) h log
    = Ok (set_state damped_pendulum a' a' (w * rk4_decay h) (w * rk4_decay h),
          log ++ rk4_points
                   (equations_of_motion (set_state damped_pendulum a a w w)) h
                   (a, a, w, w)).
Proof.
  eexists. rewrite step_real by (unfold valid_params; cbn; lra).
  rewrite state_set_state, with_state_set_state.
  unfold rk4, rk4_k4, rk4_full, rk4_k3, rk4_mid2, rk4_k2, rk4_mid1, rk4_k1.
  repeat (rewrite equations_of_motion_damped; cbn [vadd vscale]).
  unfold with_state, rk4_decay.
  do 2 f_equal. f_equal; field.
Qed.

(** C1, as stated, fails: [step] takes the whole interval in one RK4
    step.  For [dt = 0.004] it evaluates [_derivatives] four times,
    where the loop of [run] takes two sub-steps of [0.002] and eight
    evaluations, and the two end in different states. *)
Lemma step_takes_the_interval_in_one_rk4_step :
  exists p sim' log1 log2,
    step damped_pendulum 0.004 [] = Ok (p, log1)
    /\ run_substeps 3 (simulator_of damped_pendulum) 0.004 [] = Ok (sim', log2)
    /\ length log1 = 4%nat
    /\ length log2 = 8%nat
    /\ omega1 p = rk4_decay 0.004
    /\ omega1 (pendulum sim') = rk4_decay 0.002 * rk4_decay 0.002
    /\ omega1 p <> omega1 (pendulum sim').
Proof.
  change damped_pendulum with (set_state damped_pendulum 0 0 1 1).
  destruct (step_damped 0 1 0.004 []) as [a1 E1].
  destruct (step_damped 0 1 0.002 []) as [a2 E2].
  match type of E2 with _ = Ok (_, ?l) =>
    destruct (step_damped a2 (1 * rk4_decay 0.002) 0.002 l) as [a3 E3] end.
  eexists _, _, _, _. split; [exact E1|]. split.
  - rewrite (run_substeps_steps 2) by (cbn [INR]; try lra; lia).
    assert (Hsub : substeps 2 0.004 = [0.002; 0.002]).
    { cbn [substeps].
      destruct (Rlt_dec 0 0.004) as [_|]; [|lra].
      replace (Rmin 0.004 0.002) with 0.002 by (rewrite Rmin_right; lra).
      destruct (Rlt_dec 0 (0.004 - 0.002)) as [_|]; [|lra].
      replace (Rmin (0.004 - 0.002) 0.002) with 0.002
        by (rewrite Rmin_left; lra).
      reflexivity. }
    rewrite Hsub. cbn [steps simulator_of pendulum set_pendulum set_sim_time].
    rewrite (bind_Ok _ _ _ _ _ E2), (bind_Ok _ _ _ _ _ E3).
    reflexivity.
  - cbn [pendulum omega1 set_state set_pendulum set_sim_time
           length app rk4_points].
    repeat split; unfold rk4_decay; lra.
Qed.

(** ** Frame stepping *)

(** [_step_frame] takes its whole frame, [time_scale / 60] forward or
    backward, in one call of [step]; it then advances the trail when
    stepping forward and rewinds it when stepping back. *)
Lemma step_frame_real (self : Simulator R) (direction : Z) log :
  0 < time_scale self ->
  direction = 1%Z \/ direction = (-1)%Z ->
  let dt := 1 / 60 * time_scale self * IZR direction in
  _step_frame self direction log
  = bind (step (pendulum self) dt)
      (fun p =>
         let self1 :=
           set_sim_time (set_pendulum (set_paused self true) p)
             (Rmax 0 (sim_time self + dt)) in
         bind (_step_frame_trail (_current_point self1)
                 (direction =? 1)%Z (trail self1))
           (fun t => ret (set_trail self1 t)))
      log.
Proof.
  intros Hscale Hdir dt. unfold _step_frame.
  rewrite flit_real_one, flit_real_sixty, flit_real_zero.
  rewrite (bind_lift_Ok _ _ _ (1 / 60)) by (apply Rdiv_py_nonzero; lra).
  rewrite (bind_lift_Ok _ _ _ (IZR direction) eq_refl).
  cbn [pendulum time_scale sim_time set_paused set_pendulum set_sim_time].
  real_ops. fold dt.
  apply bind_ext. intros p log'. rewrite py_max_real.
  replace (Rltb 0 dt) with (direction =? 1)%Z; [reflexivity|].
  unfold dt. destruct Hdir as [-> | ->]; cbn [Z.eqb Pos.eqb].
  - symmetry. apply Rltb_true. lra.
  - symmetry. apply Rltb_false. lra.
Qed.

(** ** C8, C9: the reversible trail *)

Section TrailProperties.
Context {C P : Type}.
Implicit Types (t : Trail P) (cur : M C P) (log : list C).

Lemma length_list_update (l : list P) n v :
  length (list_update l n v) = length l.
Proof.
  revert n. induction l as [|x l IH]; intros [|n]; cbn; auto.
Qed.

Lemma py_setitem_in_range (l : list P) i v :
  (0 <= i < len l)%Z ->
  py_setitem l i v = Ok (list_update l (Z.to_nat i) v).
Proof.
  intros Hi. unfold py_setitem.
  replace (i <? 0)%Z with false by (symmetry; apply Z.ltb_ge; lia).
  replace (0 <=? i)%Z with true by (symmetry; apply Z.leb_le; lia).
  replace (i <? len l)%Z with true by (symmetry; apply Z.ltb_lt; lia).
  reflexivity.
Qed.

Lemma py_setitem_length (l l' : list P) i v :
  py_setitem l i v = Ok l' -> len l' = len l.
Proof.
  unfold py_setitem.
  destruct (_ && _)%bool; [|discriminate].
  intros [= <-]. unfold len. now rewrite length_list_update.
Qed.

Lemma len_app_one (l : list P) v : len (l ++ [v]) = (len l + 1)%Z.
Proof. unfold len. rewrite length_app. cbn. lia. Qed.

Lemma len_nonneg (l : list P) : (0 <= len l)%Z.
Proof. unfold len. lia. Qed.

(** *** What each method does when it returns *)

Lemma append_current_point_inv cur t log t' log' :
  _append_current_point cur t log = Ok (t', log') ->
  exists pt,
    cur log = Ok (pt, log')
    /\ trail_history t' = trail_history t ++ [pt]
    /\ trail_index t' = len (trail_history t').
Proof.
  unfold _append_current_point. intros E.
  apply bind_Ok_inv in E as (pt & l1 & Ecur & E).
  unfold ret in E. injection E as <- <-. now exists pt.
Qed.

Lemma reset_trail_with_current_inv cur t log t' log' :
  _reset_trail_with_current cur t log = Ok (t', log') ->
  exists pt,
    cur log = Ok (pt, log')
    /\ trail_history t' = [pt] /\ trail_index t' = 1%Z.
Proof.
  unfold _reset_trail_with_current. intros E.
  apply append_current_point_inv in E as (pt & Ecur & Eh & Ei).
  exists pt. cbn in Eh. rewrite Ei, Eh. now repeat split.
Qed.

Lemma advance_trail_forward_inv cur t log t' log' :
  _advance_trail_forward cur t log = Ok (t', log') ->
  exists pt,
    cur log = Ok (pt, log')
    /\ ((trail_index t < len (trail_history t))%Z
        /\ py_setitem (trail_history t) (trail_index t) pt
           = Ok (trail_history t')
        /\ trail_index t' = (trail_index t + 1)%Z
        \/
        (len (trail_history t) <= trail_index t)%Z
        /\ trail_history t' = trail_history t ++ [pt]
        /\ trail_index t' = len (trail_history t')).
Proof.
  unfold _advance_trail_forward. intros E.
  apply bind_Ok_inv in E as (t1 & l1 & E1 & E).
  unfold ret in E. injection E as <- <-. cbn.
  destruct (Z.ltb_spec (trail_index t) (len (trail_history t))) as [Hlt|Hge].
  - apply bind_Ok_inv in E1 as (pt & l2 & Ecur & E1).
    apply bind_Ok_inv in E1 as (h & l3 & Eset & E1).
    unfold ret in E1. injection E1 as <- <-. cbn.
    unfold lift in Eset.
    destruct (py_setitem _ _ _) as [h'| |] eqn:Eh; try discriminate.
    injection Eset as <- <-. exists pt. split; [exact Ecur|]. left. auto.
  - apply append_current_point_inv in E1 as (pt & Ecur & Eh & Ei).
    exists pt. split; [exact Ecur|]. right. auto.
Qed.

Lemma step_frame_rewind_inv cur t log t' log' :
  _step_frame_trail cur false t log = Ok (t', log') ->
  trail_index t' = Z.max 1 (trail_index t - 1)
  /\ _rewind_in_progress t' = true
  /\ (trail_history t = [] /\ trail_history t' = [] /\ log' = log
      \/
      trail_history t <> []
      /\ exists pt,
           cur log = Ok (pt, log')
           /\ py_setitem (trail_history t) (trail_index t' - 1) pt
              = Ok (trail_history t')).
Proof.
  unfold _step_frame_trail. intros E.
  apply bind_Ok_inv in E as (t1 & l1 & E1 & E).
  unfold ret in E. injection E as <- <-. cbn.
  apply bind_Ok_inv in E1 as (h & l2 & Eh & E1).
  unfold ret in E1. injection E1 as <- <-. cbn.
  split; [reflexivity|]. split; [reflexivity|].
  destruct (trail_history t) as [|x l] eqn:Et.
  - left. unfold ret in Eh. injection Eh as <- <-. auto.
  - right. split; [discriminate|].
    apply bind_Ok_inv in Eh as (pt & l3 & Ecur & Eh).
    unfold lift in Eh.
    destruct (py_setitem _ _ _) as [h'| |] eqn:Eset; try discriminate.
    injection Eh as <- <-. now exists pt.
Qed.

(** *** The invariant *)

Lemma advance_keeps_cursor_in_bounds cur t log t' log' :
  cursor_in_bounds t ->
  _advance_trail_forward cur t log = Ok (t', log') ->
  cursor_in_bounds t' /\ (1 <= trail_index t')%Z.
Proof.
  unfold cursor_in_bounds. intros Hb E.
  apply advance_trail_forward_inv in E
    as (pt & _ & [(Hlt & Eset & Ei) | (Hge & Eh & Ei)]).
  - apply py_setitem_length in Eset. lia.
  - rewrite Ei, Eh, len_app_one.
    pose proof (len_nonneg (trail_history t)). lia.
Qed.

Lemma rewind_keeps_cursor_on_trail cur t log t' log' :
  cursor_on_trail t ->
  _step_frame_trail cur false t log = Ok (t', log') ->
  cursor_on_trail t'.
Proof.
  unfold cursor_on_trail. intros Hb E.
  apply step_frame_rewind_inv in E as (Ei & _ & [(Hnil & _) | (_ & pt & _ & Eset)]).
  - rewrite Hnil in Hb. cbn in Hb. lia.
  - apply py_setitem_length in Eset. lia.
Qed.

Lemma draw_keeps_cursor_on_trail paused show_trail t :
  cursor_on_trail t -> cursor_on_trail (_draw_trail paused show_trail t).
Proof.
  unfold cursor_on_trail, _draw_trail. intros Hb.
  destruct (show_trail && (1 <? trail_index t)%Z) eqn:Eshow; [|exact Hb].
  apply andb_true_iff in Eshow as [_ Hgt%Z.ltb_lt].
  destruct (paused && negb (_rewind_in_progress t)
            && (trail_index t <? _last_trail_index t)%Z) eqn:Eguard.
  - apply andb_true_iff in Eguard as [_ Hlt%Z.ltb_lt].
    destruct paused; cbn; lia.
  - destruct paused; cbn; lia.
Qed.

Lemma reachable_cursor_on_trail t :
  trail_reachable C P t -> cursor_on_trail t.
Proof.
  induction 1 as [cur log t log' E
                 |cur log t t' log' _ _ E
                 |cur log t t' log' _ IH E
                 |cur log t t' log' _ IH E
                 |cur forward log t t' log' _ IH E
                 |paused show_trail t _ IH].
  - apply reset_trail_with_current_inv in E as (pt & _ & Eh & Ei).
    unfold cursor_on_trail. rewrite Eh, Ei. cbn. lia.
  - apply reset_trail_with_current_inv in E as (pt & _ & Eh & Ei).
    unfold cursor_on_trail. rewrite Eh, Ei. cbn. lia.
  - assert (Hb : cursor_in_bounds t) by (unfold cursor_in_bounds, cursor_on_trail in *; lia).
    destruct (advance_keeps_cursor_in_bounds _ _ _ _ _ Hb E) as [Hb' H1].
    unfold cursor_in_bounds, cursor_on_trail in *. lia.
  - unfold _update_trail in E.
    apply bind_Ok_inv in E as (t1 & l1 & E1 & E).
    unfold ret in E. injection E as <- <-.
    assert (Hb : cursor_in_bounds t) by (unfold cursor_in_bounds, cursor_on_trail in *; lia).
    destruct (advance_keeps_cursor_in_bounds _ _ _ _ _ Hb E1) as [Hb' H1].
    unfold cursor_in_bounds, cursor_on_trail in *. cbn. lia.
  - destruct forward.
    + unfold _step_frame_trail in E.
      apply bind_Ok_inv in E as (t1 & l1 & E1 & E).
      unfold ret in E. injection E as <- <-.
      assert (Hb : cursor_in_bounds t) by (unfold cursor_in_bounds, cursor_on_trail in *; lia).
      destruct (advance_keeps_cursor_in_bounds _ _ _ _ _ Hb E1) as [Hb' H1].
      unfold cursor_in_bounds, cursor_on_trail in *. cbn. lia.
    + eapply rewind_keeps_cursor_on_trail; eauto.
  - now apply draw_keeps_cursor_on_trail.
Qed.

(** *** The methods return *)

Lemma advance_returns pt t log :
  cursor_in_bounds t ->
  exists t', _advance_trail_forward (ret pt) t log = Ok (t', log).
Proof.
  unfold cursor_in_bounds. intros Hb. unfold _advance_trail_forward.
  destruct (Z.ltb_spec (trail_index t) (len (trail_history t))) as [Hlt|Hge].
  - eexists. unfold bind, ret, lift.
    rewrite py_setitem_in_range by lia. reflexivity.
  - eexists. reflexivity.
Qed.

Lemma rewind_returns pt t log :
  cursor_on_trail t ->
  exists t', _step_frame_trail (ret pt) false t log = Ok (t', log).
Proof.
  unfold cursor_on_trail. intros Hb. unfold _step_frame_trail.
  destruct (trail_history t) as [|x l] eqn:Et.
  - eexists. reflexivity.
  - eexists. unfold bind, ret, lift.
    rewrite py_setitem_in_range by lia. reflexivity.
Qed.

(** C8. From any trail, [_reset_trail_with_current] at [p] followed by
    three [_advance_trail_forward] at [p1], [p2], [p3] leaves the
    cursor at 4 on four samples; a rewinding [_step_frame] at [q]
    moves the cursor to 3 and stores [q] at position 2; advancing at
    [p4] then stores [p4] at position 3 of the same four samples and
    moves the cursor back to 4. *)
Theorem trail_rewind_then_redo
    (t0 : Trail P) (p p1 p2 p3 q p4 : P) (log : list C) :
  exists t4 t5 t6,
    (t1 <- _reset_trail_with_current (ret p) t0 ;;
     t2 <- _advance_trail_forward (ret p1) t1 ;;
     t3 <- _advance_trail_forward (ret p2) t2 ;;
     _advance_trail_forward (ret p3) t3)%py log = Ok (t4, log)
    /\ trail_index t4 = 4%Z
    /\ trail_history t4 = [p; p1; p2; p3]
    /\ _step_frame_trail (ret q) false t4 log = Ok (t5, log)
    /\ trail_index t5 = 3%Z
    /\ trail_history t5 = [p; p1; q; p3]
    /\ py_getitem (trail_history t5) 2 = Some q
    /\ _advance_trail_forward (ret p4) t5 log = Ok (t6, log)
    /\ trail_index t6 = 4%Z
    /\ trail_history t6 = [p; p1; q; p4]
    /\ py_getitem (trail_history t6) 3 = Some p4
    /\ len (trail_history t6) = 4%Z.
Proof.
  exists {| trail_history := [p; p1; p2; p3]; trail_index := 4;
            _last_trail_index := 4;
            _rewind_in_progress := _rewind_in_progress t0 |},
         {| trail_history := [p; p1; q; p3]; trail_index := 3;
            _last_trail_index := 3; _rewind_in_progress := true |},
         {| trail_history := [p; p1; q; p4]; trail_index := 4;
            _last_trail_index := 4; _rewind_in_progress := true |}.
  repeat (split; [vm_compute; reflexivity|]). vm_compute; reflexivity.
Qed.

(** C9, amended. [0 <= index <= length] holds of the trail
    [__init__] first assigns; [_reset_trail_with_current] leaves the
    cursor at 1 on one sample; [_advance_trail_forward] keeps the
    cursor in bounds from any trail where it is (overwriting and
    adding one below the end, appending at the end); the rewinding
    [_step_frame] sets the cursor to [max(1, index - 1)] and keeps it
    in bounds whenever the trail holds a sample.  Every trail
    reachable once [__init__] has returned holds a sample and has its
    cursor in bounds, and on it the three methods return. *)
Theorem trail_cursor_stays_in_bounds :
  cursor_in_bounds (@trail_empty P)
  /\ (forall cur t log t' log',
        _reset_trail_with_current cur t log = Ok (t', log') ->
        trail_index t' = 1%Z /\ len (trail_history t') = 1%Z)
  /\ (forall cur t log t' log',
        cursor_in_bounds t ->
        _advance_trail_forward cur t log = Ok (t', log') ->
        cursor_in_bounds t'
        /\ ((trail_index t < len (trail_history t))%Z ->
            trail_index t' = (trail_index t + 1)%Z
            /\ len (trail_history t') = len (trail_history t))
        /\ ((len (trail_history t) <= trail_index t)%Z ->
            trail_index t' = len (trail_history t')
            /\ len (trail_history t') = (len (trail_history t) + 1)%Z))
  /\ (forall cur t log t' log',
        cursor_in_bounds t -> trail_history t <> [] ->
        _step_frame_trail cur false t log = Ok (t', log') ->
        cursor_in_bounds t'
        /\ trail_index t' = Z.max 1 (trail_index t - 1))
  /\ (forall t,
        trail_reachable C P t ->
        cursor_in_bounds t /\ trail_history t <> []
        /\ forall pt log,
             (exists t', _reset_trail_with_current (ret pt) t log = Ok (t', log))
             /\ (exists t', _advance_trail_forward (ret pt) t log = Ok (t', log))
             /\ (exists t', _step_frame_trail (ret pt) false t log = Ok (t', log))).
Proof.
  split; [unfold cursor_in_bounds; cbn; lia|]. split; [|split; [|split]].
  - intros cur t log t' log' E.
    apply reset_trail_with_current_inv in E as (pt & _ & Eh & Ei).
    now rewrite Eh, Ei.
  - intros cur t log t' log' Hb E.
    split; [eapply advance_keeps_cursor_in_bounds; eauto|].
    apply advance_trail_forward_inv in E
      as (pt & _ & [(Hlt & Eset & Ei) | (Hge & Eh & Ei)]).
    + apply py_setitem_length in Eset. split; intros ?; [auto | lia].
    + rewrite Ei, Eh, len_app_one. split; intros ?; [lia | auto].
  - intros cur t log t' log' Hb Hne E. unfold cursor_in_bounds in *.
    apply step_frame_rewind_inv in E
      as (Ei & _ & [(Hnil & _) | (_ & pt & _ & Eset)]); [contradiction|].
    apply py_setitem_length in Eset.
    assert (1 <= len (trail_history t))%Z.
    { destruct (trail_history t); [contradiction | unfold len; cbn; lia]. }
    lia.
  - intros t Hr. apply reachable_cursor_on_trail in Hr.
    assert (Hb : cursor_in_bounds t)
      by (unfold cursor_in_bounds, cursor_on_trail in *; lia).
    split; [exact Hb|]. split.
    + unfold cursor_on_trail in Hr. intros Hnil. rewrite Hnil in Hr.
      cbn in Hr. lia.
    + intros pt log. split.
      { eexists. unfold _reset_trail_with_current, _append_current_point.
        unfold bind, ret. reflexivity. }
      split; [now apply advance_returns | now apply rewind_returns].
Qed.

End TrailProperties.

Lemma trail_cursor_stays_in_bounds_witness :
  cursor_in_bounds rewound_trail /\
  forall t' log',
    _advance_trail_forward (C:=call R) (ret (0, 2)) rewound_trail []
    = Ok (t', log') ->
    cursor_in_bounds t'.
Proof.
  assert (Hb : cursor_in_bounds rewound_trail)
    by (unfold cursor_in_bounds; cbn; lia).
  split; [exact Hb|]. intros t' log' E.
  destruct (@trail_cursor_stays_in_bounds (call R) (R * R)%type)
    as (_ & _ & Hadv & _).
  exact (proj1 (Hadv _ _ _ _ _ Hb E)).
Defined.

(** C9, as stated, fails: [0 <= index <= length] is not preserved by
    the rewinding [_step_frame] on its own.  On the empty trail, where
    it holds, rewinding leaves the cursor at 1 on no sample. *)
Lemma rewind_on_empty_trail_leaves_bounds :
  cursor_in_bounds (@trail_empty (R * R)%type)
  /\ exists t',
       _step_frame_trail (C:=call R) (ret (0, 0)) false trail_empty []
       = Ok (t', [])
       /\ trail_index t' = 1%Z
       /\ len (trail_history t') = 0%Z
       /\ ~ cursor_in_bounds t'.
Proof.
  split; [unfold cursor_in_bounds; cbn; lia|].
  eexists. split; [reflexivity|].
  unfold cursor_in_bounds. cbn. repeat split; lia.
Qed.

(** ** C3: inverse kinematics of the end mass *)

(** [math.atan2] returns the polar angle: scaled by the distance from
    the origin, its cosine and sine give back the point. *)
Lemma atan2_polar (x y : R) :
  x <> 0 \/ y <> 0 ->
  sqrt (x * x + y * y) * cos (Ratan2 y x) = x
  /\ sqrt (x * x + y * y) * sin (Ratan2 y x) = y.
Proof.
  intros Hne. unfold Ratan2.
  assert (Hroot : forall t, 0 < sqrt (1 + t²)).
  { intros t. apply sqrt_lt_R0. unfold Rsqr. nra. }
  destruct (Rlt_dec 0 x) as [Hx|Hx].
  - assert (E : sqrt (x * x + y * y) = x * sqrt (1 + (y / x)²)).
    { apply sqrt_lem_1.
      - nra.
      - pose proof (Hroot (y / x)). nra.
      - replace (x * sqrt (1 + (y / x)²) * (x * sqrt (1 + (y / x)²)))
          with (x * x * (sqrt (1 + (y / x)²) * sqrt (1 + (y / x)²))) by ring.
        rewrite sqrt_sqrt by (unfold Rsqr; nra).
        unfold Rsqr. field. lra. }
    rewrite E, cos_atan, sin_atan. pose proof (Hroot (y / x)).
    split; field; lra.
  - destruct (Rlt_dec x 0) as [Hx'|Hx'].
    + assert (E : sqrt (x * x + y * y) = - x * sqrt (1 + (y / x)²)).
      { apply sqrt_lem_1.
        - nra.
        - pose proof (Hroot (y / x)). nra.
        - replace (- x * sqrt (1 + (y / x)²) * (- x * sqrt (1 + (y / x)²)))
            with (x * x * (sqrt (1 + (y / x)²) * sqrt (1 + (y / x)²))) by ring.
          rewrite sqrt_sqrt by (unfold Rsqr; nra).
          unfold Rsqr. field. lra. }
      pose proof (Hroot (y / x)).
      destruct (Rle_dec 0 y).
      * rewrite E, neg_cos, neg_sin, cos_atan, sin_atan. split; field; lra.
      * unfold Rminus.
        rewrite E, cos_plus, sin_plus, cos_neg, sin_neg, cos_PI, sin_PI,
          cos_atan, sin_atan.
        split; field; lra.
    + assert (x = 0) by lra. subst x.
      replace (0 * 0 + y * y) with (y * y) by ring.
      destruct (Rlt_dec 0 y) as [Hy|Hy].
      * rewrite sqrt_square by lra. rewrite cos_PI2, sin_PI2. split; ring.
      * destruct (Rlt_dec y 0) as [Hy'|Hy']; [|lra].
        replace (y * y) with (- y * - y) by ring.
        rewrite sqrt_square by lra.
        rewrite cos_neg, sin_neg, cos_PI2, sin_PI2. split; ring.
Qed.

(** The closed form of two-link inverse kinematics: for a radius [r]
    the two links can span, the elbow angle from the law of cosines and
    the shoulder angle [phi] less the elbow's offset place the end mass
    at radius [r] in direction [phi]. *)
Lemma two_link_closed_form (l1 l2 r phi : R) :
  0 < l1 -> 0 < l2 -> 0 < r -> Rabs (l1 - l2) <= r <= l1 + l2 ->
  let c := (r * r - l1 * l1 - l2 * l2) / (2 * l1 * l2) in
  let elbow := acos c in
  let theta1_x := phi - Ratan2 (l2 * sin elbow) (l1 + l2 * cos elbow) in
  let theta2_x := theta1_x + elbow in
  -1 <= c <= 1
  /\ l1 * sin (PI / 2 - theta1_x) + l2 * sin (PI / 2 - theta2_x) = r * cos phi
  /\ l1 * cos (PI / 2 - theta1_x) + l2 * cos (PI / 2 - theta2_x) = r * sin phi.
Proof.
  intros Hl1 Hl2 Hr [Hlo Hhi] c elbow theta1_x theta2_x.
  assert (Hd : 0 < 2 * l1 * l2) by nra.
  assert (Hsq_lo : (l1 - l2) * (l1 - l2) <= r * r).
  { pose proof (Rabs_pos (l1 - l2)).
    replace ((l1 - l2) * (l1 - l2)) with (Rabs (l1 - l2) * Rabs (l1 - l2))
      by (unfold Rabs; destruct (Rcase_abs (l1 - l2)); ring).
    nra. }
  assert (Hsq_hi : r * r <= (l1 + l2) * (l1 + l2)) by nra.
  assert (Hc : -1 <= c <= 1).
  { unfold c. split.
    - apply (Rmult_le_reg_r (2 * l1 * l2)); [exact Hd|].
      replace ((r * r - l1 * l1 - l2 * l2) / (2 * l1 * l2) * (2 * l1 * l2))
        with (r * r - l1 * l1 - l2 * l2) by (field; lra).
      nra.
    - apply (Rmult_le_reg_r (2 * l1 * l2)); [exact Hd|].
      replace ((r * r - l1 * l1 - l2 * l2) / (2 * l1 * l2) * (2 * l1 * l2))
        with (r * r - l1 * l1 - l2 * l2) by (field; lra).
      nra. }
  split; [exact Hc|].
  assert (Hce : cos elbow = c) by (apply cos_acos; exact Hc).
  assert (Hunit : sin elbow * sin elbow + cos elbow * cos elbow = 1)
    by (pose proof (sin2_cos2 elbow) as Hs; unfold Rsqr in Hs; exact Hs).
  assert (Hlaw : 2 * l1 * l2 * cos elbow = r * r - l1 * l1 - l2 * l2).
  { rewrite Hce. unfold c. field. lra. }
  set (a := l1 + l2 * cos elbow) in *.
  set (b := l2 * sin elbow) in *.
  assert (Hnorm : a * a + b * b = r * r) by (unfold a, b; nra).
  assert (Hne : a <> 0 \/ b <> 0).
  { destruct (Req_dec a 0) as [Ha|Ha]; [right|now left].
    intros Hb. rewrite Ha, Hb in Hnorm. nra. }
  destruct (atan2_polar a b Hne) as [Hcos Hsin].
  rewrite Hnorm, sqrt_square in Hcos, Hsin by lra.
  unfold theta2_x, theta1_x. rewrite !sin_shift, !cos_shift.
  rewrite cos_plus, sin_plus, cos_minus, sin_minus.
  pose proof (sin2_cos2 (Ratan2 b a)) as Hbeta. unfold Rsqr in Hbeta.
  set (cb := cos (Ratan2 b a)) in *. set (sb := sin (Ratan2 b a)) in *.
  clearbody cb sb.
  split.
  - transitivity (cos phi * (cb * a + sb * b) + sin phi * (sb * a - cb * b)).
    + unfold a, b. ring.
    + rewrite <- Hcos, <- Hsin.
      transitivity (r * cos phi * (sb * sb + cb * cb)); [ring|].
      rewrite Hbeta. ring.
  - transitivity (sin phi * (cb * a + sb * b) - cos phi * (sb * a - cb * b)).
    + unfold a, b. ring.
    + rewrite <- Hcos, <- Hsin.
      transitivity (r * sin phi * (sb * sb + cb * cb)); [ring|].
      rewrite Hbeta. ring.
Qed.

Lemma Racos_py_in_range x : -1 <= x <= 1 -> Racos_py x = Ok (acos x).
Proof.
  intros [Hlo Hhi]. unfold Racos_py.
  destruct (Rle_dec (-1) x); [|lra]. destruct (Rle_dec x 1); [reflexivity|lra].
Qed.

(** What [_apply_drag_end] computes when the clamped radius is one the
    links can span. *)

Lemma apply_drag_end_real (self : Simulator R) (pos : Z * Z) log :
  let l1 := L1 (pendulum self) in
  let l2 := L2 (pendulum self) in
  let x := fst (drag_target self pos) in
  let y := snd (drag_target self pos) in
  let r := clamped_radius l1 l2 (x, y) in
  0 < l1 -> 0 < l2 -> scale self <> 0 ->
  0 < r -> Rabs (l1 - l2) <= r <= l1 + l2 ->
  exists self',
    _apply_drag_end self pos log = Ok (self', log)
    /\ positions (pendulum self') log
       = Ok ((L1 (pendulum self') * sin (theta1 (pendulum self')),
              L1 (pendulum self') * cos (theta1 (pendulum self')),
              (r * cos (Ratan2 y x), r * sin (Ratan2 y x))), log)
    /\ omega1 (pendulum self') = 0 /\ omega2 (pendulum self') = 0
    /\ L1 (pendulum self') = l1 /\ L2 (pendulum self') = l2.
Proof.
  intros l1 l2 x y r Hl1 Hl2 Hscale Hr Hspan.
  destruct (two_link_closed_form l1 l2 r (Ratan2 y x) Hl1 Hl2 Hr Hspan)
    as (Hc & Hx & Hy).
  assert (Hd : 2 * l1 * l2 <> 0) by nra.
  eexists. split; [|split].
  - unfold _apply_drag_end.
    cbn [of_int m_hypot m_acos m_sin m_cos m_atan2 m_pi fadd fsub fmul fneg
         fabs fdiv R_PyFloat].
    rewrite flit_real_tenth_of_mm, flit_real_one, flit_real_minus_one,
      !flit_real_two, !flit_real_zero.
    rewrite (bind_lift_Ok _ _ _ _ eq_refl).
    rewrite (bind_lift_Ok _ _ _ x) by (apply Rdiv_py_nonzero; exact Hscale).
    rewrite (bind_lift_Ok _ _ _ _ eq_refl).
    rewrite (bind_lift_Ok _ _ _ y) by (apply Rdiv_py_nonzero; exact Hscale).
    rewrite (bind_lift_Ok _ _ _ _ eq_refl).
    rewrite !py_min_real, !py_max_real.
    fold l1 l2.
    change (Rmin (Rmax (sqrt (x * x + y * y)) (Rabs (l1 - l2) + 0.0001))
                 (l1 + l2 - 0.0001)) with r.
    rewrite (bind_lift_Ok _ _ _ _ (Rdiv_py_nonzero _ _ Hd)).
    rewrite py_min_real, py_max_real.
    rewrite (Rmin_right 1) by apply Hc. rewrite (Rmax_right (-1)) by apply Hc.
    rewrite (bind_lift_Ok _ _ _ _ (Racos_py_in_range _ Hc)).
    rewrite (bind_lift_Ok _ _ _ _ eq_refl), (bind_lift_Ok _ _ _ _ eq_refl).
    rewrite (bind_lift_Ok _ _ _ (PI / 2)) by (apply Rdiv_py_nonzero; lra).
    reflexivity.
  - rewrite positions_real.
    cbn [pendulum set_pendulum set_state L1 L2 theta1 theta2].
    fold l1 l2. rewrite Hx, Hy. reflexivity.
  - repeat split.
Qed.

(** C3, as stated, fails: a target on the outer boundary of the
    reachable annulus is not reproduced.  With unit links and the end
    mass dragged to [(2, 0)], the clamp to [L1 + L2 - 1e-4] leaves the
    end mass at [(1.9999, 0)], [1e-4] short of the target. *)
Lemma drag_end_clamps_boundary_target :
  let self := simulator_of scenario_pendulum in
  let pos := (905, 151)%Z in
  drag_target self pos = (2, 0)
  /\ Rabs (1 - 1) <= sqrt (2 * 2 + 0 * 0) <= 1 + 1
  /\ exists self' joint1 x2 y2,
       _apply_drag_end self pos [] = Ok (self', [])
       /\ positions (pendulum self') [] = Ok ((joint1, (x2, y2)), [])
       /\ x2 = 1.9999 /\ y2 = 0
       /\ 0.000001 < Rabs (x2 - 2).
Proof.
  intros self pos.
  assert (Et : drag_target self pos = (2, 0)).
  { unfold drag_target. cbn [self pos simulator_of origin scale fst snd].
    f_equal.
    - replace (905 - 470)%Z with 435%Z by reflexivity. lra.
    - replace (151 - 151)%Z with 0%Z by reflexivity. lra. }
  assert (Es : sqrt (2 * 2 + 0 * 0) = 2).
  { replace (2 * 2 + 0 * 0) with (2 * 2) by ring. apply sqrt_square. lra. }
  split; [exact Et|]. split.
  { rewrite Es. replace (1 - 1) with 0 by ring. rewrite Rabs_R0. lra. }
  assert (Er : clamped_radius 1 1 (2, 0) = 1.9999).
  { unfold clamped_radius. rewrite Es.
    replace (1 - 1) with 0 by ring. rewrite Rabs_R0.
    rewrite Rmax_left by lra. rewrite Rmin_right by lra. lra. }
  destruct (apply_drag_end_real self pos []) as (self' & E & Epos & _).
  1-5: cbn [self simulator_of pendulum scenario_pendulum L1 L2 scale];
       rewrite ?Et; cbn [fst snd]; rewrite ?Er; try lra.
  { replace (1 - 1) with 0 by ring. rewrite Rabs_R0. lra. }
  cbn [self simulator_of pendulum scenario_pendulum L1 L2] in Epos.
  rewrite Et in Epos. cbn [fst snd] in Epos. rewrite Er in Epos.
  assert (Ephi : Ratan2 0 2 = 0).
  { unfold Ratan2. destruct (Rlt_dec 0 2); [|lra].
    replace (0 / 2) with 0 by lra. apply atan_0. }
  rewrite Ephi, cos_0, sin_0 in Epos.
  eexists self', _, _, _. split; [exact E|]. split; [exact Epos|].
  split; [lra|]. split; [lra|].
  unfold Rabs. destruct (Rcase_abs (1.9999 * 1 - 2)); lra.
Qed.

(** C3, amended. With positive lengths, for every target whose distance
    from the pivot lies in [[|L1-L2| + 1e-4, L1+L2 - 1e-4]],
    [_apply_drag_end] followed by [positions()] gives back the target
    (exactly, over the reals), with both velocities zero.  For any other
    reachable target (links of at least [1e-4]) the end mass is placed
    in the target's direction at the clamped distance, which differs
    from the target's by at most [1e-4]. *)
Theorem drag_end_reaches_target
    (self : Simulator R) (pos : Z * Z) (log : list (call R)) :
  let l1 := L1 (pendulum self) in
  let l2 := L2 (pendulum self) in
  let x := fst (drag_target self pos) in
  let y := snd (drag_target self pos) in
  let distance := sqrt (x * x + y * y) in
  0 < l1 -> 0 < l2 -> scale self <> 0 ->
  (Rabs (l1 - l2) + 0.0001 <= distance <= l1 + l2 - 0.0001 ->
   exists self' joint1,
     _apply_drag_end self pos log = Ok (self', log)
     /\ positions (pendulum self') log = Ok ((joint1, (x, y)), log)
     /\ omega1 (pendulum self') = 0 /\ omega2 (pendulum self') = 0)
  /\ (0.0001 <= l1 -> 0.0001 <= l2 ->
      Rabs (l1 - l2) <= distance <= l1 + l2 ->
      exists self' joint1,
        let r := clamped_radius l1 l2 (x, y) in
        _apply_drag_end self pos log = Ok (self', log)
        /\ positions (pendulum self') log
           = Ok ((joint1, (r * cos (Ratan2 y x), r * sin (Ratan2 y x))), log)
        /\ Rabs (r - distance) <= 0.0001).
Proof.
  intros l1 l2 x y distance Hl1 Hl2 Hscale. split.
  - intros [Hlo Hhi].
    pose proof (Rabs_pos (l1 - l2)) as Habs.
    assert (Er : clamped_radius l1 l2 (x, y) = distance).
    { unfold clamped_radius. fold distance.
      rewrite Rmax_left by lra. now rewrite Rmin_left by lra. }
    destruct (apply_drag_end_real self pos log)
      as (self' & E & Epos & Hw1 & Hw2 & _); fold l1 l2 x y;
      rewrite ?Er; try assumption; try lra.
    fold l1 l2 x y in Epos. rewrite Er in Epos.
    assert (Hne : x <> 0 \/ y <> 0).
    { destruct (Req_dec x 0) as [Hx0|Hx0]; [right|now left].
      intros Hy0. unfold distance in Hlo. rewrite Hx0, Hy0 in Hlo.
      replace (0 * 0 + 0 * 0) with 0 in Hlo by ring.
      rewrite sqrt_0 in Hlo. lra. }
    destruct (atan2_polar x y Hne) as [Hcos Hsin]. fold distance in Hcos, Hsin.
    rewrite Hcos, Hsin in Epos.
    eexists self', _. split; [exact E|]. split; [exact Epos|].
    split; assumption.
  - intros Hmin1 Hmin2 [Hlo Hhi].
    pose proof (Rabs_pos (l1 - l2)) as Habs.
    assert (Hgap : Rabs (l1 - l2) + 0.0001 <= l1 + l2 - 0.0001).
    { unfold Rabs. destruct (Rcase_abs (l1 - l2)); lra. }
    assert (Hr : Rabs (l1 - l2) + 0.0001
                 <= clamped_radius l1 l2 (x, y) <= l1 + l2 - 0.0001
                 /\ Rabs (clamped_radius l1 l2 (x, y) - distance) <= 0.0001).
    { unfold clamped_radius. fold distance.
      unfold Rmin, Rmax.
      destruct (Rle_dec distance (Rabs (l1 - l2) + 0.0001));
        destruct (Rle_dec _ (l1 + l2 - 0.0001));
        (split; [lra|]);
        match goal with |- Rabs ?e <= _ =>
          unfold Rabs at 1; destruct (Rcase_abs e) end; lra. }
    destruct Hr as [[Hrlo Hrhi] Hclose].
    destruct (apply_drag_end_real self pos log)
      as (self' & E & Epos & _); fold l1 l2 x y; try assumption; try lra.
    fold l1 l2 x y in Epos.
    eexists self', _. cbv zeta. split; [exact E|]. split; [exact Epos|].
    exact Hclose.
Qed.

Lemma drag_end_reaches_target_witness :
  let self := simulator_of scenario_pendulum in
  let pos := (687, 151)%Z in
  drag_target self pos = (217 / 217.5, 0)
  /\ exists self' joint1,
       _apply_drag_end self pos [] = Ok (self', [])
       /\ positions (pendulum self') [] = Ok ((joint1, (217 / 217.5, 0)), []).
Proof.
  intros self pos.
  assert (Et : drag_target self pos = (217 / 217.5, 0)).
  { unfold drag_target. cbn [self pos simulator_of origin scale fst snd].
    f_equal. replace (151 - 151)%Z with 0%Z by reflexivity. lra. }
  split; [exact Et|].
  assert (Es : sqrt (217 / 217.5 * (217 / 217.5) + 0 * 0) = 217 / 217.5).
  { replace (217 / 217.5 * (217 / 217.5) + 0 * 0)
      with (217 / 217.5 * (217 / 217.5)) by ring.
    apply sqrt_square. lra. }
  destruct (drag_end_reaches_target self pos []) as [Hexact _].
  1-3: cbn [self simulator_of pendulum scenario_pendulum L1 L2 scale]; lra.
  destruct Hexact as (self' & joint1 & E & Epos & _).
  { rewrite Et. cbn [fst snd self simulator_of pendulum scenario_pendulum L1 L2].
    rewrite Es. replace (1 - 1) with 0 by ring. rewrite Rabs_R0. lra. }
  rewrite Et in Epos. cbn [fst snd] in Epos.
  now exists self', joint1.
Defined.

(** ** Drawing *)

(** When [_draw] returns, all it has changed is the trail, by the
    assignments of [_draw_trail]. *)
Lemma draw_returns_inv {F} {num : PyFloat F} {ext : PyNumber F}
    (self self' : Simulator F) (log log' : list (call F)) :
  _draw self log = Ok (self', log') ->
  self' = set_trail self
            (_draw_trail (paused self) (show_trail self) (trail self)).
Proof.
  unfold _draw. intros E.
  apply bind_Ok_inv in E as ([[x1 y1] [x2 y2]] & l1 & _ & E).
  apply bind_Ok_inv in E as (p1 & l2 & _ & E).
  apply bind_Ok_inv in E as (p2 & l3 & _ & E).
  unfold _draw_trail at 1.
  destruct (show_trail self && (1 <? trail_index (trail self))%Z) eqn:Eg.
  - apply bind_Ok_inv in E as (points & l4 & _ & E).
    unfold ret in E. injection E as <- _.
    unfold _draw_trail. now rewrite Eg.
  - unfold ret in E. injection E as <- _. now destruct self.
Qed.

(** ** Binary64: C7, and where C4 and C10 stop holding *)

Module Binary64Facts.
Import PrimFloat SpecFloat FloatOps FloatAxioms Binary64 Binary64Number.
Local Open Scope float_scope.

(** NaN absorbs. *)
Lemma add_nan_l x : add nan x = nan.
Proof. apply Prim2SF_inj. rewrite add_spec. reflexivity. Qed.

Lemma sub_nan_l x : sub nan x = nan.
Proof. apply Prim2SF_inj. rewrite sub_spec. reflexivity. Qed.

Lemma mul_nan_l x : mul nan x = nan.
Proof. apply Prim2SF_inj. rewrite mul_spec. reflexivity. Qed.

Lemma add_nan_r x : add x nan = nan.
Proof.
  apply Prim2SF_inj. rewrite add_spec. change (Prim2SF nan) with S754_nan.
  destruct (Prim2SF x); reflexivity.
Qed.

Lemma mul_nan_r x : mul x nan = nan.
Proof.
  apply Prim2SF_inj. rewrite mul_spec. change (Prim2SF nan) with S754_nan.
  destruct (Prim2SF x); reflexivity.
Qed.

Lemma is_nan_eq x : is_nan x = true -> x = nan.
Proof.
  intros Hn. apply Prim2SF_inj. revert Hn. unfold is_nan. rewrite eqb_spec.
  change (Prim2SF nan) with S754_nan.
  destruct (Prim2SF x) as [| | |s m e]; cbn; try discriminate; auto.
  - destruct s; discriminate.
  - destruct s; rewrite Z.compare_refl, Pos.compare_cont_refl; discriminate.
Qed.

Lemma math_1_finite f x : is_finite (f x) = true -> math_1 f x = Ok (f x).
Proof.
  unfold math_1, is_finite. intros Hf.
  apply negb_true_iff, orb_false_iff in Hf as [-> ->]. reflexivity.
Qed.

Lemma math_1_nan f : math_1 f nan = Ok (f nan).
Proof.
  unfold math_1. change (is_nan nan) with true.
  change (is_finite nan) with false. now rewrite !andb_false_r.
Qed.

(** [math.sin], [math.cos] and [math.acos] raise nothing but
    [ValueError]. *)
Lemma math_1_raises f x e : math_1 f x = Raise e -> e = ValueError.
Proof.
  unfold math_1. destruct (_ && _); [congruence|].
  destruct (_ && _); congruence.
Qed.

(** Adding [0 * s] to [x] gives NaN or a float equal to [x]. *)
Lemma add_zero_product x s :
  is_nan (x + 0 * s) = false -> (x + 0 * s =? x) = true.
Proof.
  unfold is_nan. rewrite !eqb_spec, add_spec, mul_spec.
  change (Prim2SF 0) with (S754_zero false).
  intros H. apply negb_false_iff in H. revert H.
  destruct (Prim2SF s) as [ss|ss| |ss ms es];
    destruct (Prim2SF x) as [sx|sx| |sx mx ex];
    try (cbn; discriminate); try (cbn; reflexivity).
  all: cbn [SF64mul SFmul SF64add SFadd xorb]; try (intros H; exact H).
  all: try (destruct sx, ss; cbn; reflexivity).
  all: try (destruct sx; cbn; reflexivity).
Qed.

Lemma bind_lift_Raise {C A B} (o : outcome A) (k : A -> M C B) log e :
  o = Raise e -> bind (lift o) k log = Raise e.
Proof. intros ->. reflexivity. Qed.

Lemma bind_tick {C B} (c : C) (k : unit -> M C B) log :
  bind (tick c) k log = k tt (log ++ [c]).
Proof. reflexivity. Qed.

Lemma crude_libm_annex_f : libm_annex_f crude_libm.
Proof.
  split; try reflexivity; intros x Hx; cbn;
    unfold is_finite in Hx; apply negb_true_iff, orb_false_iff in Hx as [-> _];
    reflexivity.
Qed.

(** Run a primitive whose operands are literals. *)
Ltac lift_literal :=
  lazymatch goal with
  | |- bind (lift ?o) ?k ?log = ?rhs =>
      let v := eval cbv in o in
      lazymatch v with
      | Ok ?a => change (k a log = rhs); cbv beta
      end
  end.

(** Run a primitive whose outcome a lemma gives. *)
Ltac lift_with H := rewrite (bind_lift_Ok _ _ _ _ H).

Ltac float_ops :=
  cbn [fast_pendulum light_pendulum m1 m2 L1 L2 g damping];
  cbn [fsub fadd fmul fneg fdiv fsquare m_sin m_cos binary64].

Section Overflow.
Variable L : Libm.
Hypothesis HL : libm_annex_f L.

Lemma cos_at_zero : math_1 (libm_cos L) 0%float = Ok 1%float.
Proof. unfold math_1. now rewrite (cos_zero L HL). Qed.

Lemma sin_at_zero : math_1 (libm_sin L) 0%float = Ok 0%float.
Proof. unfold math_1. now rewrite (sin_zero L HL). Qed.

Lemma cos_at_nan : math_1 (libm_cos L) nan = Ok nan.
Proof. rewrite math_1_nan. f_equal. apply is_nan_eq, (cos_nan L HL). Qed.

Lemma sin_at_nan : math_1 (libm_sin L) nan = Ok nan.
Proof. rewrite math_1_nan. f_equal. apply is_nan_eq, (sin_nan L HL). Qed.

(** First slope: [m2 * L1 * omega1 ** 2] overflows to infinity, which
    times [sin 0 = 0] is NaN. *)
Lemma fast_slope_1 log :
  _derivatives (num := binary64 L) fast_pendulum
    0%float 0%float 0x1p+511%float 0x1p+511%float log
  = Ok ((0x1p+511%float, 0x1p+511%float, nan, nan),
        log ++ [(0%float, 0%float, 0x1p+511%float, 0x1p+511%float)]).
Proof.
  unfold _derivatives. rewrite bind_tick. float_ops.
  change (0 - 0)%float with 0%float.
  lift_with cos_at_zero. lift_literal. lift_literal. lift_literal.
  lift_with sin_at_zero. lift_with sin_at_zero. lift_literal.
  lift_with sin_at_zero. lift_literal. lift_literal.
  reflexivity.
Qed.

(** Second slope: finite angles, NaN velocities. *)
Lemma fast_slope_2 log :
  _derivatives (num := binary64 L) fast_pendulum
    fast_half_step_angle fast_half_step_angle nan nan log
  = Ok ((nan, nan, nan, nan),
        log ++ [(fast_half_step_angle, fast_half_step_angle, nan, nan)]).
Proof.
  unfold _derivatives. rewrite bind_tick. float_ops.
  change (fast_half_step_angle - fast_half_step_angle)%float with 0%float.
  lift_with cos_at_zero. lift_literal. lift_literal. lift_literal.
  lift_with sin_at_zero.
  lift_with (math_1_finite _ _ (sin_finite L HL fast_half_step_angle eq_refl)).
  lift_literal.
  lift_with (math_1_finite _ _ (sin_finite L HL fast_half_step_angle eq_refl)).
  change (4 * 1 * nan * 0 * 1)%float with nan.
  change (- (4) * 1 * nan * 0 * 1)%float with nan.
  rewrite !add_nan_l, sub_nan_l.
  lift_literal. lift_literal. reflexivity.
Qed.

(** Third and fourth slopes: everything is NaN, and [math.sin] and
    [math.cos] pass NaN through without raising. *)
Lemma fast_slope_3 log :
  _derivatives (num := binary64 L) fast_pendulum nan nan nan nan log
  = Ok ((nan, nan, nan, nan), log ++ [(nan, nan, nan, nan)]).
Proof.
  unfold _derivatives. rewrite bind_tick. float_ops.
  change (nan - nan)%float with nan.
  lift_with cos_at_nan. lift_literal. lift_literal. lift_literal.
  lift_with (math_1_nan (libm_sin L)).
  lift_with (math_1_nan (libm_sin L)).
  lift_literal.
  lift_with (math_1_nan (libm_sin L)).
  change (4 * 1 * nan)%float with nan.
  change (- (4) * 1 * nan)%float with nan.
  rewrite !mul_nan_l, !add_nan_l, sub_nan_l.
  lift_literal. lift_literal. reflexivity.
Qed.

(** The step returns normally, with four NaN in the state. *)
Lemma fast_step_returns_nan log :
  exists log',
    step (num := binary64 L) fast_pendulum (float_lit 0.002) log
    = Ok (set_state fast_pendulum nan nan nan nan, log').
Proof.
  eexists. unfold step.
  etransitivity; [apply (bind_Ok _ _ _ _ _ (fast_slope_1 log))|cbv beta iota].
  etransitivity; [apply (bind_Ok _ _ _ _ _ (fast_slope_2 _))|cbv beta iota].
  etransitivity; [apply (bind_Ok _ _ _ _ _ (fast_slope_3 _))|cbv beta iota].
  etransitivity; [apply (bind_Ok _ _ _ _ _ (fast_slope_3 _))|cbv beta iota].
  cbn [fsub fadd fmul fneg fdiv fsquare flit binary64].
  lift_literal. reflexivity.
Qed.

(** With [dt = 0] the second slope is taken at the angles of
    [fast_pendulum] and at NaN velocities, [2^511 + 0 * NaN]. *)
Lemma rest_slope_nan log :
  _derivatives (num := binary64 L) fast_pendulum 0 0 nan nan log
  = Ok ((nan, nan, nan, nan), log ++ [(0, 0, nan, nan)]).
Proof.
  unfold _derivatives. rewrite bind_tick. float_ops.
  change (0 - 0)%float with 0%float.
  lift_with cos_at_zero. lift_literal. lift_literal. lift_literal.
  lift_with sin_at_zero. lift_with sin_at_zero. lift_literal.
  lift_with sin_at_zero. lift_literal. lift_literal.
  reflexivity.
Qed.

(** A step with [dt = 0] returns normally too, with four NaN in the
    state. *)
Lemma zero_step_returns_nan log :
  exists log',
    step (num := binary64 L) fast_pendulum 0 log
    = Ok (set_state fast_pendulum nan nan nan nan, log').
Proof.
  eexists. unfold step.
  etransitivity; [apply (bind_Ok _ _ _ _ _ (fast_slope_1 log))|cbv beta iota].
  etransitivity; [apply (bind_Ok _ _ _ _ _ (rest_slope_nan _))|cbv beta iota].
  etransitivity; [apply (bind_Ok _ _ _ _ _ (fast_slope_3 _))|cbv beta iota].
  etransitivity; [apply (bind_Ok _ _ _ _ _ (fast_slope_3 _))|cbv beta iota].
  cbn [fsub fadd fmul fneg fdiv fsquare flit binary64].
  lift_literal. reflexivity.
Qed.



End Overflow.

(** C7, as stated, fails: whatever libm computes within Annex F, a step
    of [0.002] from the finite state [fast_pendulum] returns normally
    and leaves NaN in all four state attributes; no error is
    signalled. *)
Lemma step_keeps_a_non_finite_state :
  state_is_finite fast_pendulum = true
  /\ (exists L, libm_annex_f L)
  /\ ~ (exists L,
          libm_annex_f L
          /\ match step (num := binary64 L) fast_pendulum (float_lit 0.002) [] with
             | Ok (self', _) => state_is_finite self' = true
             | Raise _ => True
             | OutOfFuel => False
             end).
Proof.
  split; [reflexivity|]. split; [exists crude_libm; apply crude_libm_annex_f|].
  intros (L & HL & Hclaim).
  destruct (fast_step_returns_nan L HL []) as [log' E].
  rewrite E in Hclaim. discriminate Hclaim.
Qed.

(** The float primitives return or raise; none runs out of fuel. *)
Lemma bind_not_out_of_fuel {C A B} (m : M C A) (k : A -> M C B) log :
  m log <> OutOfFuel ->
  (forall a log', k a log' <> OutOfFuel) ->
  bind m k log <> OutOfFuel.
Proof.
  intros Hm Hk. unfold bind. destruct (m log) as [[a log']| |]; auto.
  discriminate.
Qed.

Lemma lift_not_out_of_fuel {C A} (o : outcome A) (log : list C) :
  o <> OutOfFuel -> lift o log <> OutOfFuel.
Proof. unfold lift. destruct o; auto; discriminate. Qed.

Lemma math_1_not_out_of_fuel f x : math_1 f x <> OutOfFuel.
Proof.
  unfold math_1. destruct (_ && _); [discriminate|].
  destruct (_ && _); discriminate.
Qed.

Lemma float_div_not_out_of_fuel a b : float_div a b <> OutOfFuel.
Proof. unfold float_div. destruct (eqb b zero); discriminate. Qed.

Lemma float_pow2_not_out_of_fuel x : float_pow2 x <> OutOfFuel.
Proof.
  unfold float_pow2. destruct (is_nan x); [discriminate|].
  destruct (is_infinity x); [discriminate|].
  destruct (is_infinity (x * x)); discriminate.
Qed.

Lemma derivatives_not_out_of_fuel L self a b c d log :
  _derivatives (num := binary64 L) self a b c d log <> OutOfFuel.
Proof.
  unfold _derivatives.
  cbn [fsub fadd fmul fneg fdiv fsquare m_sin m_cos binary64].
  repeat (apply bind_not_out_of_fuel;
          [ first [ apply lift_not_out_of_fuel;
                    first [ apply math_1_not_out_of_fuel
                          | apply float_div_not_out_of_fuel
                          | apply float_pow2_not_out_of_fuel ]
                  | discriminate ]
          | intros ? ? ]).
  discriminate.
Qed.

(** *** What [_draw] does with a non-finite state *)

Section Draw.
Variable L : Libm.
Hypothesis HL : libm_annex_f L.

(** With a NaN first angle the positions are NaN, unless [math.sin] or
    [math.cos] rejects the second angle. *)
Lemma positions_of_nan (p : DoublePendulum float) log :
  is_nan (theta1 p) = true ->
  positions (num := binary64 L) p log = Ok (((nan, nan), (nan, nan)), log)
  \/ positions (num := binary64 L) p log = Raise ValueError.
Proof.
  intros Hn. apply is_nan_eq in Hn. unfold positions. rewrite Hn.
  cbn [m_sin m_cos fadd fmul binary64].
  lift_with (sin_at_nan L HL). lift_with (cos_at_nan L HL).
  rewrite !mul_nan_r.
  pose proof (math_1_raises (libm_sin L) (theta2 p)) as Rs.
  pose proof (math_1_not_out_of_fuel (libm_sin L) (theta2 p)) as Fs.
  pose proof (math_1_raises (libm_cos L) (theta2 p)) as Rc.
  pose proof (math_1_not_out_of_fuel (libm_cos L) (theta2 p)) as Fc.
  destruct (math_1 (libm_sin L) (theta2 p)) as [s2|e|].
  - rewrite (bind_lift_Ok _ _ _ _ eq_refl).
    destruct (math_1 (libm_cos L) (theta2 p)) as [c2|e|].
    + rewrite (bind_lift_Ok _ _ _ _ eq_refl), !add_nan_l. now left.
    + right. now rewrite (Rc e eq_refl).
    + now contradiction Fc.
  - right. now rewrite (Rs e eq_refl).
  - now contradiction Fs.
Qed.

(** [int()] of a NaN coordinate is a [ValueError], met as soon as the
    pivot's column has been converted. *)
Lemma to_pixel_of_nan (sim : Simulator float) y log :
  to_pixel (num := binary64 L) (ext := binary64_number) sim (nan, y) log
  = Raise (if is_infinity (float_of_Z (fst (origin sim)))
           then OverflowError else ValueError).
Proof.
  unfold to_pixel. cbn [of_int binary64 fst]. unfold float_of_int.
  destruct (is_infinity (float_of_Z (fst (origin sim)))); [reflexivity|].
  rewrite (bind_lift_Ok _ _ _ _ eq_refl).
  cbn [fadd fmul binary64 int_of_float binary64_number].
  rewrite mul_nan_l, add_nan_r. reflexivity.
Qed.

Lemma draw_of_nan (sim : Simulator float) log :
  is_nan (theta1 (pendulum sim)) = true ->
  exists e,
    _draw (num := binary64 L) (ext := binary64_number) sim log = Raise e
    /\ (e = ValueError
        \/ e = OverflowError
           /\ float_of_int (fst (origin sim)) = Raise OverflowError).
Proof.
  intros Hn. unfold _draw.
  destruct (positions_of_nan (pendulum sim) log Hn) as [E|E].
  - rewrite (bind_Ok _ _ _ _ _ E). cbv beta iota.
    unfold bind at 1. rewrite to_pixel_of_nan. unfold float_of_int.
    destruct (is_infinity (float_of_Z (fst (origin sim)))); eauto.
  - unfold bind at 1. rewrite E. eauto.
Qed.

End Draw.

(** C7, amended. [step] has no finiteness check.  In binary64 it
    returns whenever its four evaluations of [_derivatives] return, and
    then stores the RK4 combination of their results, finite or not.
    It signals an error only when one of those four evaluations raises
    (a [ZeroDivisionError], [OverflowError] or [ValueError] of a float
    primitive): the first at the state, or, the ones before it having
    returned, the second or third at its half-step estimate or the
    fourth at its full-step estimate; and then that very error.  It
    always does one or the other.  The loop of [run] does not check
    the state either, but the pass does not survive it: with a libm
    within Annex F, [_draw] on a state whose [theta1] is NaN raises at
    its first [int()], a [ValueError] (or the [OverflowError] of a
    pivot too large for a float, or the [ValueError] of [math.sin] or
    [math.cos] at the second angle), and so does every pass of the
    loop whose sub-steps leave such a state. *)
Theorem step_keeps_non_finite_results_and_draw_raises (L : Libm) :
  (forall (self : DoublePendulum float) (dt : float) (log : list (call float)),
      let D := _derivatives (num := binary64 L) self in
      let th1 := theta1 self in
      let th2 := theta2 self in
      let w1 := omega1 self in
      let w2 := omega2 self in
      let half := (0.5 * dt)%float in
      let sixth := (dt / 6)%float in
      (forall a0 a1 a2 a3 b0 b1 b2 b3 c0 c1 c2 c3 d0 d1 d2 d3 l1 l2 l3 l4,
          D th1 th2 w1 w2 log = Ok ((a0, a1, a2, a3), l1) ->
          D (th1 + half * a0)%float (th2 + half * a1)%float
            (w1 + half * a2)%float (w2 + half * a3)%float l1
          = Ok ((b0, b1, b2, b3), l2) ->
          D (th1 + half * b0)%float (th2 + half * b1)%float
            (w1 + half * b2)%float (w2 + half * b3)%float l2
          = Ok ((c0, c1, c2, c3), l3) ->
          D (th1 + dt * c0)%float (th2 + dt * c1)%float
            (w1 + dt * c2)%float (w2 + dt * c3)%float l3
          = Ok ((d0, d1, d2, d3), l4) ->
          step (num := binary64 L) self dt log
          = Ok (set_state self
                  (th1 + sixth * (a0 + 2 * b0 + 2 * c0 + d0))%float
                  (th2 + sixth * (a1 + 2 * b1 + 2 * c1 + d1))%float
                  (w1 + sixth * (a2 + 2 * b2 + 2 * c2 + d2))%float
                  (w2 + sixth * (a3 + 2 * b3 + 2 * c3 + d3))%float,
                l4))
      /\ (forall e,
            step (num := binary64 L) self dt log = Raise e ->
            D th1 th2 w1 w2 log = Raise e
            \/ exists a0 a1 a2 a3 l1,
                 D th1 th2 w1 w2 log = Ok ((a0, a1, a2, a3), l1)
                 /\ (D (th1 + half * a0)%float (th2 + half * a1)%float
                       (w1 + half * a2)%float (w2 + half * a3)%float l1
                     = Raise e
                     \/ exists b0 b1 b2 b3 l2,
                          D (th1 + half * a0)%float (th2 + half * a1)%float
                            (w1 + half * a2)%float (w2 + half * a3)%float l1
                          = Ok ((b0, b1, b2, b3), l2)
                          /\ (D (th1 + half * b0)%float (th2 + half * b1)%float
                                (w1 + half * b2)%float (w2 + half * b3)%float l2
                              = Raise e
                              \/ exists c0 c1 c2 c3 l3,
                                   D (th1 + half * b0)%float
                                     (th2 + half * b1)%float
                                     (w1 + half * b2)%float
                                     (w2 + half * b3)%float l2
                                   = Ok ((c0, c1, c2, c3), l3)
                                   /\ D (th1 + dt * c0)%float
                                        (th2 + dt * c1)%float
                                        (w1 + dt * c2)%float
                                        (w2 + dt * c3)%float l3
                                      = Raise e)))
      /\ step (num := binary64 L) self dt log <> OutOfFuel)
  /\ (libm_annex_f L ->
      (forall (sim : Simulator float) (log : list (call float)),
          is_nan (theta1 (pendulum sim)) = true ->
          exists e,
            _draw (num := binary64 L) (ext := binary64_number) sim log = Raise e
            /\ (e = ValueError
                \/ e = OverflowError
                   /\ float_of_int (fst (origin sim)) = Raise OverflowError))
      /\ (forall (fuel : nat) (sim : Simulator float) (dt_target : float)
                 (log : list (call float)) sim' log',
            run_tick (num := binary64 L) fuel sim dt_target log = Ok (sim', log') ->
            is_nan (theta1 (pendulum sim')) = true ->
            exists e,
              run_iteration (num := binary64 L) (ext := binary64_number)
                fuel sim dt_target log = Raise e
              /\ (e = ValueError
                  \/ e = OverflowError
                     /\ float_of_int (fst (origin sim')) = Raise OverflowError))).
Proof.
  split.
  - intros self dt log D th1 th2 w1 w2 half sixth. split; [|split].
    + intros a0 a1 a2 a3 b0 b1 b2 b3 c0 c1 c2 c3 d0 d1 d2 d3 l1 l2 l3 l4
        E1 E2 E3 E4.
      unfold step.
      etransitivity; [apply (bind_Ok _ _ _ _ _ E1)|cbv beta iota].
      etransitivity; [apply (bind_Ok _ _ _ _ _ E2)|cbv beta iota].
      etransitivity; [apply (bind_Ok _ _ _ _ _ E3)|cbv beta iota].
      etransitivity; [apply (bind_Ok _ _ _ _ _ E4)|cbv beta iota].
      reflexivity.
    + intros e E. unfold step in E. fold D in E.
      destruct (D (theta1 self) (theta2 self) (omega1 self) (omega2 self) log)
        as [[[[[a0 a1] a2] a3] l1]|e1|] eqn:E1.
      2:{ unfold bind in E. fold D in E. rewrite E1 in E. injection E as <-.
          left. exact E1. }
      2:{ unfold bind in E. fold D in E. rewrite E1 in E. discriminate. }
      right. exists a0, a1, a2, a3, l1. split; [exact E1|].
      rewrite (bind_Ok _ _ _ _ _ E1) in E. cbv beta iota in E. fold D in E.
      match type of E with bind (D ?a ?b ?c ?d) _ ?l = _ =>
        destruct (D a b c d l) as [[[[[b0 b1] b2] b3] l2]|e2|] eqn:E2 end.
      2:{ unfold bind in E. fold D in E. rewrite E2 in E. injection E as <-.
          left. exact E2. }
      2:{ unfold bind in E. fold D in E. rewrite E2 in E. discriminate. }
      right. exists b0, b1, b2, b3, l2. split; [exact E2|].
      rewrite (bind_Ok _ _ _ _ _ E2) in E. cbv beta iota in E. fold D in E.
      match type of E with bind (D ?a ?b ?c ?d) _ ?l = _ =>
        destruct (D a b c d l) as [[[[[c0 c1] c2] c3] l3]|e3|] eqn:E3 end.
      2:{ unfold bind in E. fold D in E. rewrite E3 in E. injection E as <-.
          left. exact E3. }
      2:{ unfold bind in E. fold D in E. rewrite E3 in E. discriminate. }
      right. exists c0, c1, c2, c3, l3. split; [exact E3|].
      rewrite (bind_Ok _ _ _ _ _ E3) in E. cbv beta iota in E. fold D in E.
      match type of E with bind (D ?a ?b ?c ?d) _ ?l = _ =>
        destruct (D a b c d l) as [[[[[d0 d1] d2] d3] l4]|e4|] eqn:E4 end.
      2:{ unfold bind in E. fold D in E. rewrite E4 in E. injection E as <-.
          exact E4. }
      2:{ unfold bind in E. fold D in E. rewrite E4 in E. discriminate. }
      rewrite (bind_Ok _ _ _ _ _ E4) in E. cbv beta iota in E.
      discriminate E.
    + unfold step.
      repeat (apply bind_not_out_of_fuel;
              [ first [ apply derivatives_not_out_of_fuel
                      | apply lift_not_out_of_fuel, float_div_not_out_of_fuel ]
              | intros [[[? ?] ?] ?] ? ]).
      apply bind_not_out_of_fuel;
        [apply lift_not_out_of_fuel, float_div_not_out_of_fuel|].
      intros ? ?. discriminate.
  - intros HL. split.
    + intros sim log Hn. now apply draw_of_nan.
    + intros fuel sim dt_target log sim' log' E Hn.
      unfold run_iteration. rewrite (bind_Ok _ _ _ _ _ E).
      now apply draw_of_nan.
Qed.

Lemma step_keeps_non_finite_results_and_draw_raises_witness :
  libm_annex_f crude_libm
  /\ (exists log',
        step (num := binary64 crude_libm) fast_pendulum (float_lit 0.002) []
        = Ok (set_state fast_pendulum nan nan nan nan, log'))
  /\ (exists sim' log',
        run_tick (num := binary64 crude_libm) 2 fast_simulator (float_lit 0.002) []
        = Ok (sim', log')
        /\ is_nan (theta1 (pendulum sim')) = true
        /\ trail_history (trail sim') = [(0, 2); (nan, nan)]%float)
  /\ run_iteration (num := binary64 crude_libm) (ext := binary64_number)
       2 fast_simulator (float_lit 0.002) []
     = Raise ValueError.
Proof.
  destruct (step_keeps_non_finite_results_and_draw_raises crude_libm)
    as [Hstep Hdraw].
  destruct (Hdraw crude_libm_annex_f) as [_ Hrun].
  destruct (Hstep fast_pendulum (float_lit 0.002) []) as [Hret _].
  split; [exact crude_libm_annex_f|]. split; [|split].
  - eexists.
    rewrite (Hret _ _ _ _ _ _ _ _ _ _ _ _ _ _ _ _ _ _ _ _
               (fast_slope_1 crude_libm crude_libm_annex_f _)
               (fast_slope_2 crude_libm crude_libm_annex_f _)
               (fast_slope_3 crude_libm crude_libm_annex_f _)
               (fast_slope_3 crude_libm crude_libm_annex_f _)).
    reflexivity.
  - eexists _, _. split; [vm_compute; reflexivity|]. split; reflexivity.
  - destruct (Hrun 2%nat fast_simulator (float_lit 0.002) [] _ _
                (ltac:(vm_compute; reflexivity)) eq_refl)
      as (e & E & [->|[_ Ho]]); [exact E|discriminate Ho].
Defined.

(** *** C4 in binary64 *)


(** *** C10 in binary64 *)

(** C10, as stated, fails in binary64: whatever libm computes within
    Annex F, a step with [dt = 0] from the finite state
    [fast_pendulum] returns normally with NaN in all four state
    attributes, none of which is equal to what it was. *)
Lemma step_zero_loses_a_finite_state :
  state_is_finite fast_pendulum = true
  /\ (exists L, libm_annex_f L)
  /\ forall L, libm_annex_f L ->
       exists self' log',
         step (num := binary64 L) fast_pendulum 0 [] = Ok (self', log')
         /\ (theta1 self' =? theta1 fast_pendulum) = false
         /\ (theta2 self' =? theta2 fast_pendulum) = false
         /\ (omega1 self' =? omega1 fast_pendulum) = false
         /\ (omega2 self' =? omega2 fast_pendulum) = false
         /\ state_is_finite self' = false.
Proof.
  split; [reflexivity|]. split; [exists crude_libm; apply crude_libm_annex_f|].
  intros L HL. destruct (zero_step_returns_nan L HL []) as [log' E].
  exists (set_state fast_pendulum nan nan nan nan), log'.
  split; [exact E|]. repeat split.
Qed.

(** C10, amended.  A step that returns has left [m1], [m2], [L1], [L2],
    [g] and [damping] untouched, whatever [dt] and whatever the
    arithmetic.  Over the reals a step with [dt = 0] returns for valid
    parameters, and the pendulum it returns has the [theta1], [theta2],
    [omega1] and [omega2] it was given.  In binary64 a step with
    [dt = 0] that returns leaves each of the four either equal ([==])
    to what it was or NaN. *)
Theorem step_zero_keeps_what_is_not_nan :
  (forall (F : Type) (num : PyFloat F) (self : DoublePendulum F) (dt : F)
          (log : list (call F)) self' log',
      step self dt log = Ok (self', log') ->
      m1 self' = m1 self /\ m2 self' = m2 self /\
      L1 self' = L1 self /\ L2 self' = L2 self /\
      g self' = g self /\ damping self' = damping self)
  /\ (forall (self : DoublePendulum R) (log : list (call R)),
        (valid_params self ->
         exists log', step self 0%R log = Ok (self, log'))
        /\ forall self' log',
             step self 0%R log = Ok (self', log') ->
             theta1 self' = theta1 self /\ theta2 self' = theta2 self /\
             omega1 self' = omega1 self /\ omega2 self' = omega2 self)
  /\ (forall (L : Libm) (self : DoublePendulum float)
             (log : list (call float)) self' log',
        step (num := binary64 L) self 0 log = Ok (self', log') ->
        (is_nan (theta1 self') = false -> (theta1 self' =? theta1 self) = true)
        /\ (is_nan (theta2 self') = false -> (theta2 self' =? theta2 self) = true)
        /\ (is_nan (omega1 self') = false -> (omega1 self' =? omega1 self) = true)
        /\ (is_nan (omega2 self') = false -> (omega2 self' =? omega2 self) = true)).
Proof.
  split; [|split].
  - intros F num self dt log self' log' E.
    apply step_returns_inv in E as (sixth & s0 & s1 & s2 & s3 & _ & ->).
    now cbn.
  - intros self log. split.
    + intros Hv. apply (step_zero_returns_real self log Hv).
    + intros self' log' E. now rewrite (step_zero_real self log _ _ E).
  - intros L self log self' log' E.
    apply step_returns_inv in E as (sixth & s0 & s1 & s2 & s3 & Es & ->).
    cbn [fdiv flit binary64] in Es.
    change (float_div 0 (float_lit 6)) with (Ok 0%float) in Es.
    injection Es as <-.
    cbn [set_state theta1 theta2 omega1 omega2 fadd fmul binary64].
    repeat split; apply add_zero_product.
Qed.

Lemma step_zero_keeps_what_is_not_nan_witness :
  valid_params scenario_pendulum /\
  exists log', step scenario_pendulum 0%R [] = Ok (scenario_pendulum, log').
Proof.
  assert (Hv : valid_params scenario_pendulum) by (unfold valid_params; cbn; lra).
  split; [exact Hv|].
  destruct step_zero_keeps_what_is_not_nan as (_ & Hreal & _).
  destruct (Hreal scenario_pendulum []) as [Hret _].
  exact (Hret Hv).
Defined.

End Binary64Facts.

(* ================================================================== *)
(** * Further properties of the code *)

(** ** Forward kinematics, equilibria and reset *)

(** X1. The two links are rigid: whatever the angles, [positions] puts
    the first joint at distance [L1] from the pivot and the second at
    distance [L2] from the first. *)
Theorem positions_keep_link_lengths (self : DoublePendulum R) (log : list (call R)) :
  exists x1 y1 x2 y2,
    positions self log = Ok ((x1, y1), (x2, y2), log)
    /\ x1 * x1 + y1 * y1 = L1 self * L1 self
    /\ (x2 - x1) * (x2 - x1) + (y2 - y1) * (y2 - y1) = L2 self * L2 self.
Proof.
  rewrite positions_real. eexists _, _, _, _. split; [reflexivity|].
  pose proof (sin2_cos2 (theta1 self)) as H1.
  pose proof (sin2_cos2 (theta2 self)) as H2.
  unfold Rsqr in H1, H2.
  split.
  - transitivity (L1 self * L1 self
                  * (sin (theta1 self) * sin (theta1 self)
                     + cos (theta1 self) * cos (theta1 self))); [ring|].
    rewrite H1. ring.
  - transitivity (L2 self * L2 self
                  * (sin (theta2 self) * sin (theta2 self)
                     + cos (theta2 self) * cos (theta2 self))); [ring|].
    rewrite H2. ring.
Qed.

Lemma equations_of_motion_at_rest (self : DoublePendulum R) (th1 th2 : R) :
  sin th1 = 0 -> sin th2 = 0 ->
  equations_of_motion self (th1, th2, 0, 0) = (0, 0, 0, 0).
Proof.
  intros H1 H2. unfold equations_of_motion.
  assert (Hd : sin (th2 - th1) = 0) by (rewrite sin_minus, H1, H2; ring).
  rewrite Hd, H1, H2. repeat f_equal; unfold Rdiv; ring.
Qed.

Lemma vadd_vscale_zero (y : vec4) (c : R) :
  vadd y (vscale c (0, 0, 0, 0)) = y.
Proof.
  destruct y as [[[a b] c0] d]. unfold vadd, vscale. repeat f_equal; ring.
Qed.

Lemma rk4_at_rest (self : DoublePendulum R) (h th1 th2 : R) :
  sin th1 = 0 -> sin th2 = 0 ->
  rk4 (equations_of_motion self) h (th1, th2, 0, 0) = (th1, th2, 0, 0)
  /\ rk4_points (equations_of_motion self) h (th1, th2, 0, 0)
     = [(th1, th2, 0, 0); (th1, th2, 0, 0); (th1, th2, 0, 0); (th1, th2, 0, 0)].
Proof.
  intros H1 H2.
  pose proof (equations_of_motion_at_rest self th1 th2 H1 H2) as E.
  unfold rk4, rk4_points, rk4_k4, rk4_full, rk4_k3, rk4_mid2, rk4_k2,
    rk4_mid1, rk4_k1.
  repeat (rewrite ?E, ?vadd_vscale_zero).
  split; [|reflexivity].
  unfold vadd, vscale. repeat f_equal; ring.
Qed.

(** X2. A pendulum at rest in an equilibrium pose (each link straight
    down or straight up, both velocities zero) stays exactly there:
    with valid parameters [step] returns the pendulum it was given,
    whatever [dt], having evaluated [_derivatives] four times at that
    very state. *)
Theorem step_keeps_an_equilibrium
    (self : DoublePendulum R) (dt : R) (log : list (call R)) :
  valid_params self ->
  sin (theta1 self) = 0 -> sin (theta2 self) = 0 ->
  omega1 self = 0 -> omega2 self = 0 ->
  step self dt log
  = Ok (self, log ++ [state self; state self; state self; state self]).
Proof.
  intros Hv H1 H2 Hw1 Hw2. rewrite (step_real self dt log Hv).
  unfold state. rewrite Hw1, Hw2.
  destruct (rk4_at_rest self dt _ _ H1 H2) as [-> ->].
  f_equal. f_equal. destruct self; cbn in *. subst. reflexivity.
Qed.

Lemma step_keeps_an_equilibrium_witness :
  let inverted := set_state scenario_pendulum PI PI 0 0 in
  step inverted 0.002 []
  = Ok (inverted, [state inverted; state inverted; state inverted; state inverted]).
Proof.
  intros inverted.
  apply (step_keeps_an_equilibrium inverted 0.002 []).
  - unfold valid_params; cbn; lra.
  - apply sin_PI.
  - apply sin_PI.
  - reflexivity.
  - reflexivity.
Defined.

(** X3. [reset] restarts from rest: the angles are the ones given
    ([pi/2] for one left out), both velocities are zero, the parameters
    are untouched, and the energy reference is the energy of the new
    state, which is all potential; the drift the HUD shows right after
    is zero. *)
Theorem reset_restarts_from_rest
    (self : DoublePendulum R) (th1 th2 : option R) (log : list (call R)) :
  exists self' e,
    reset self th1 th2 log = Ok (self', log)
    /\ theta1 self' = match th1 with Some t => t | None => PI / 2 end
    /\ theta2 self' = match th2 with Some t => t | None => PI / 2 end
    /\ omega1 self' = 0 /\ omega2 self' = 0
    /\ (m1 self', m2 self', L1 self', L2 self', g self', damping self')
       = (m1 self, m2 self, L1 self, L2 self, g self, damping self)
    /\ _initial_energy self' = Some e
    /\ energy self' log = Ok (e, log)
    /\ e = potential_energy self'
             (L1 self' * cos (theta1 self'))
             (L1 self' * cos (theta1 self') + L2 self' * cos (theta2 self'))
    /\ _draw_hud_energy self' log = Ok (self', e, 0, log).
Proof.
  set (a := match th1 with Some t => t | None => PI / 2 end).
  set (b := match th2 with Some t => t | None => PI / 2 end).
  set (p := set_state self a b 0 0).
  assert (Ea : forall B (k : R -> Py R B) l,
             bind (match th1 with Some t => ret t
                   | None => lift (fdiv m_pi (flit 2)) end) k l = k a l).
  { intros B k l. unfold a. destruct th1; [reflexivity|].
    apply bind_lift_Ok. rewrite flit_real_two. apply Rdiv_py_nonzero. lra. }
  assert (Eb : forall B (k : R -> Py R B) l,
             bind (match th2 with Some t => ret t
                   | None => lift (fdiv m_pi (flit 2)) end) k l = k b l).
  { intros B k l. unfold b. destruct th2; [reflexivity|].
    apply bind_lift_Ok. rewrite flit_real_two. apply Rdiv_py_nonzero. lra. }
  pose proof (energy_real p log) as Ee.
  set (e := kinetic_energy p
            + potential_energy p (L1 p * cos (theta1 p))
                (L1 p * cos (theta1 p) + L2 p * cos (theta2 p))) in Ee.
  assert (Ee' : energy (set_initial_energy p (Some e)) log = Ok (e, log)).
  { rewrite energy_real. reflexivity. }
  exists (set_initial_energy p (Some e)), e.
  split.
  { unfold reset. rewrite Ea, Eb, flit_real_zero. fold p.
    rewrite (bind_Ok _ _ _ _ _ Ee). reflexivity. }
  do 6 (split; [reflexivity|]).
  split; [exact Ee'|].
  split.
  { unfold e, kinetic_energy, potential_energy. cbn. ring. }
  unfold _draw_hud_energy. rewrite (bind_Ok _ _ _ _ _ Ee').
  cbn [_initial_energy set_initial_energy]. unfold ret.
  cbn [fsub R_PyFloat]. repeat f_equal. ring.
Qed.

(** ** The trail as the user sees it *)

Section VisibleTrail.
Context {C P : Type}.
Implicit Types (t : Trail P) (cur : M C P) (log : list C).

Lemma slice_bound_in_range (n i : Z) :
  (0 <= i <= n)%Z -> slice_bound n i = i.
Proof.
  intros Hi. unfold slice_bound.
  destruct (Z.ltb_spec i 0); lia.
Qed.

Lemma slice_bound_past_the_end (n i : Z) :
  (0 <= n <= i)%Z -> slice_bound n i = n.
Proof.
  intros Hi. unfold slice_bound.
  destruct (Z.ltb_spec i 0); lia.
Qed.

Lemma firstn_list_update (l : list P) (n : nat) (v : P) :
  (n < length l)%nat ->
  firstn (S n) (list_update l n v) = firstn n l ++ [v].
Proof.
  revert n. induction l as [|x l IH]; intros [|n] Hn; cbn in *; try lia.
  - reflexivity.
  - f_equal. apply IH. lia.
Qed.

Lemma skipn_list_update (l : list P) (n : nat) (v : P) :
  skipn (S n) (list_update l n v) = skipn (S n) l.
Proof.
  revert n. induction l as [|x l IH]; intros [|n]; cbn; auto.
  apply IH.
Qed.

(** Storing at [i] and reading the slices on either side. *)
Lemma slices_after_setitem (l : list P) (i : Z) (v : P) :
  (0 <= i < len l)%Z ->
  py_slice_to (list_update l (Z.to_nat i) v) (i + 1) = py_slice_to l i ++ [v]
  /\ py_slice_from (list_update l (Z.to_nat i) v) (i + 1)
     = py_slice_from l (i + 1).
Proof.
  intros Hi. unfold py_slice_to, py_slice_from, len in *.
  rewrite length_list_update.
  rewrite !slice_bound_in_range by lia.
  replace (Z.to_nat (i + 1)) with (S (Z.to_nat i)) by lia.
  split; [apply firstn_list_update; lia | apply skipn_list_update].
Qed.

Lemma slices_after_append (l : list P) (v : P) :
  py_slice_to (l ++ [v]) (len (l ++ [v])) = py_slice_to l (len l) ++ [v]
  /\ py_slice_from (l ++ [v]) (len (l ++ [v]))
     = py_slice_from l (len (l ++ [v])).
Proof.
  unfold py_slice_to, py_slice_from.
  pose proof (len_nonneg l) as Hl. rewrite len_app_one.
  rewrite (slice_bound_in_range (len l + 1) (len l + 1)) by lia.
  rewrite (slice_bound_in_range (len l) (len l)) by lia.
  rewrite (slice_bound_past_the_end (len l) (len l + 1)) by lia.
  unfold len.
  replace (Z.to_nat (Z.of_nat (length l) + 1)) with (length (l ++ [v]))
    by (rewrite length_app; cbn; lia).
  rewrite Nat2Z.id, !firstn_all, !skipn_all.
  split; reflexivity.
Qed.

Lemma advance_at (cur : M C P) t log pt log' :
  cursor_in_bounds t -> cur log = Ok (pt, log') ->
  exists t',
    _advance_trail_forward cur t log = Ok (t', log')
    /\ trail_index t' = (trail_index t + 1)%Z
    /\ (len (trail_history t) <= len (trail_history t'))%Z
    /\ visible_trail t' = visible_trail t ++ [pt]
    /\ py_slice_from (trail_history t') (trail_index t')
       = py_slice_from (trail_history t) (trail_index t')
    /\ cursor_remembered t'
    /\ _rewind_in_progress t' = _rewind_in_progress t.
Proof.
  unfold cursor_in_bounds, visible_trail, cursor_remembered.
  intros Hb Ecur.
  unfold _advance_trail_forward, _append_current_point, bind, lift, ret.
  destruct (Z.ltb_spec (trail_index t) (len (trail_history t))) as [Hlt|Hge];
    rewrite Ecur.
  - rewrite py_setitem_in_range by lia.
    eexists. split; [reflexivity|]. cbn.
    destruct (slices_after_setitem (trail_history t) (trail_index t) pt)
      as [Eto Efrom]; [lia|].
    split; [reflexivity|]. split.
    { unfold len. rewrite length_list_update. lia. }
    now repeat split.
  - assert (Ei : trail_index t = len (trail_history t)) by lia.
    eexists. split; [reflexivity|]. cbn.
    destruct (slices_after_append (trail_history t) pt) as [Eto Efrom].
    rewrite Ei, len_app_one. split; [reflexivity|]. split; [lia|].
    rewrite <- (len_app_one _ pt). now repeat split.
Qed.

Lemma update_trail_is_advance cur t log t' log' :
  _advance_trail_forward cur t log = Ok (t', log') ->
  _update_trail cur t log = Ok (t', log').
Proof.
  intros E. unfold _update_trail. rewrite (bind_Ok _ _ _ _ _ E).
  unfold _advance_trail_forward in E.
  apply bind_Ok_inv in E as (t1 & l1 & _ & E).
  unfold ret in *. injection E as <- <-. reflexivity.
Qed.

Lemma rewind_at cur t log pt log' :
  cursor_on_trail t -> cur log = Ok (pt, log') ->
  exists t',
    _step_frame_trail cur false t log = Ok (t', log')
    /\ trail_index t' = Z.max 1 (trail_index t - 1)
    /\ len (trail_history t') = len (trail_history t)
    /\ visible_trail t'
       = py_slice_to (trail_history t) (trail_index t' - 1) ++ [pt]
    /\ py_slice_from (trail_history t') (trail_index t')
       = py_slice_from (trail_history t) (trail_index t')
    /\ cursor_remembered t'
    /\ _rewind_in_progress t' = true.
Proof.
  unfold cursor_on_trail, visible_trail, cursor_remembered.
  intros Hb Ecur.
  unfold _step_frame_trail, bind, lift, ret.
  destruct (trail_history t) as [|x l] eqn:Et; [cbn in Hb; lia|].
  rewrite <- Et in *. rewrite Ecur.
  set (i := Z.max 1 (trail_index t - 1)).
  rewrite py_setitem_in_range by lia.
  eexists. split; [reflexivity|]. cbn.
  destruct (slices_after_setitem (trail_history t) (i - 1) pt)
    as [Eto Efrom]; [lia|].
  replace (i - 1 + 1)%Z with i in Eto, Efrom by lia.
  split; [reflexivity|]. split.
  { unfold len. now rewrite length_list_update. }
  now repeat split.
Qed.

(** X4. Recording a sample, through [_advance_trail_forward] or
    [_update_trail] alike, moves the cursor on by exactly one and
    extends the visible trail by exactly the current point: the
    samples before the cursor stay, the one at the cursor is
    overwritten (or appended at the end), the ones after it stay, and
    nothing is ever dropped. *)
Theorem recording_extends_the_visible_trail cur t log pt log' :
  cursor_in_bounds t -> cur log = Ok (pt, log') ->
  exists t',
    _advance_trail_forward cur t log = Ok (t', log')
    /\ _update_trail cur t log = Ok (t', log')
    /\ trail_index t' = (trail_index t + 1)%Z
    /\ visible_trail t' = visible_trail t ++ [pt]
    /\ py_slice_from (trail_history t') (trail_index t')
       = py_slice_from (trail_history t) (trail_index t')
    /\ (len (trail_history t) <= len (trail_history t'))%Z.
Proof.
  intros Hb Ecur.
  destruct (advance_at cur t log pt log' Hb Ecur)
    as (t' & E & Ei & Hlen & Ev & Er & _).
  exists t'. split; [exact E|].
  split; [exact (update_trail_is_advance _ _ _ _ _ E)|].
  now repeat split.
Qed.

(** X5. Stepping back on a trail that holds a sample moves the cursor
    back by one, but never before the first sample, and overwrites the
    sample just before the new cursor with the current point; every
    other sample, before or after, is kept, so a later step forward
    finds the history at its full length. *)
Theorem rewinding_rewrites_one_sample cur t log pt log' :
  cursor_on_trail t -> cur log = Ok (pt, log') ->
  exists t',
    _step_frame_trail cur false t log = Ok (t', log')
    /\ trail_index t' = Z.max 1 (trail_index t - 1)
    /\ len (trail_history t') = len (trail_history t)
    /\ visible_trail t'
       = py_slice_to (trail_history t) (trail_index t' - 1) ++ [pt]
    /\ py_slice_from (trail_history t') (trail_index t')
       = py_slice_from (trail_history t) (trail_index t')
    /\ _rewind_in_progress t' = true.
Proof.
  intros Hb Ecur.
  destruct (rewind_at cur t log pt log' Hb Ecur)
    as (t' & E & Ei & Hlen & Ev & Er & _ & Hf).
  exists t'. now repeat split.
Qed.

Lemma step_frame_forward_is_advance cur t log t' log' :
  _advance_trail_forward cur t log = Ok (t', log') ->
  _step_frame_trail cur true t log = Ok (t', log').
Proof.
  intros E. unfold _step_frame_trail. rewrite (bind_Ok _ _ _ _ _ E).
  unfold _advance_trail_forward in E.
  apply bind_Ok_inv in E as (t1 & l1 & _ & E).
  unfold ret in *. injection E as <- <-. reflexivity.
Qed.

(** X6. A step back followed by a step forward, two samples or more
    being visible, brings the cursor back to where it was on a history
    of the same length: the two samples before the cursor now hold the
    two points visited, all others are as before. *)
Theorem step_back_then_forward cur1 cur2 t log q log1 p log2 :
  cursor_on_trail t -> (2 <= trail_index t)%Z ->
  cur1 log = Ok (q, log1) -> cur2 log1 = Ok (p, log2) ->
  exists t1 t2,
    _step_frame_trail cur1 false t log = Ok (t1, log1)
    /\ _step_frame_trail cur2 true t1 log1 = Ok (t2, log2)
    /\ trail_index t2 = trail_index t
    /\ len (trail_history t2) = len (trail_history t)
    /\ visible_trail t2
       = py_slice_to (trail_history t) (trail_index t - 2) ++ [q; p]
    /\ py_slice_from (trail_history t2) (trail_index t)
       = py_slice_from (trail_history t) (trail_index t).
Proof.
  intros Hb H2 E1 E2.
  destruct (rewind_at cur1 t log q log1 Hb E1)
    as (t1 & Eback & Ei1 & Hlen1 & Ev1 & Er1 & _ & _).
  assert (Hi1 : trail_index t1 = (trail_index t - 1)%Z) by lia.
  assert (Hb1 : cursor_in_bounds t1).
  { unfold cursor_in_bounds, cursor_on_trail in *. lia. }
  destruct (advance_at cur2 t1 log1 p log2 Hb1 E2)
    as (t2 & Efwd & Ei2 & Hlen2 & Ev2 & Er2 & _ & _).
  exists t1, t2. split; [exact Eback|].
  split; [exact (step_frame_forward_is_advance _ _ _ _ _ Efwd)|].
  assert (Hi2 : trail_index t2 = trail_index t) by lia.
  split; [exact Hi2|].
  assert (Hlen : len (trail_history t2) = len (trail_history t)).
  { unfold cursor_on_trail in Hb.
    destruct (Z.ltb_spec (trail_index t1) (len (trail_history t1))) as [Hlt|Hge].
    - unfold _advance_trail_forward, bind, lift in Efwd.
      replace (trail_index t1 <? len (trail_history t1))%Z with true in Efwd
        by (symmetry; apply Z.ltb_lt; exact Hlt).
      rewrite E2 in Efwd.
      destruct (py_setitem (trail_history t1) (trail_index t1) p) as [h| |] eqn:Eh;
        try discriminate.
      apply py_setitem_length in Eh. unfold ret in Efwd.
      injection Efwd as <-. cbn. lia.
    - lia. }
  split; [exact Hlen|]. split.
  - rewrite Ev2, Ev1, Hi1, <- app_assoc.
    replace (trail_index t - 1 - 1)%Z with (trail_index t - 2)%Z by lia.
    reflexivity.
  - rewrite <- Hi2, Er2. rewrite Hi2.
    (* the samples from the old cursor on were not touched by the rewind *)
    unfold py_slice_from in *. rewrite Hlen1 in *.
    unfold cursor_on_trail in Hb.
    rewrite Hi1 in Er1.
    rewrite (slice_bound_in_range _ (trail_index t - 1)) in Er1 by lia.
    rewrite (slice_bound_in_range _ (trail_index t)) by lia.
    replace (Z.to_nat (trail_index t))
      with (1 + Z.to_nat (trail_index t - 1))%nat by lia.
    rewrite <- !skipn_skipn. now rewrite Er1.
Qed.

Lemma last_assignment_remembers (m : M C (Trail P)) log t' log' :
  bind m (fun t => ret {| trail_history := trail_history t;
                          trail_index := trail_index t;
                          _last_trail_index := trail_index t;
                          _rewind_in_progress := _rewind_in_progress t |})
    log = Ok (t', log') ->
  cursor_remembered t'.
Proof.
  intros E. apply bind_Ok_inv in E as (t1 & l1 & _ & E).
  unfold ret in E. injection E as <- <-. reflexivity.
Qed.

Lemma draw_trail_when_remembered paused show_trail t :
  cursor_remembered t ->
  trail_history (_draw_trail paused show_trail t) = trail_history t
  /\ trail_index (_draw_trail paused show_trail t) = trail_index t
  /\ cursor_remembered (_draw_trail paused show_trail t).
Proof.
  unfold cursor_remembered, _draw_trail. intros Hr.
  destruct (show_trail && (1 <? trail_index t)%Z); [|now repeat split].
  rewrite Hr, Z.ltb_irrefl, andb_false_r.
  destruct paused; cbn; now repeat split.
Qed.

Lemma reachable_cursor_remembered t :
  trail_reachable C P t -> cursor_remembered t.
Proof.
  induction 1 as [cur log t log' E
                 |cur log t t' log' _ _ E
                 |cur log t t' log' _ _ E
                 |cur log t t' log' _ _ E
                 |cur forward log t t' log' _ _ E
                 |paused show_trail t _ IH].
  - unfold _reset_trail_with_current, _append_current_point in E.
    apply bind_Ok_inv in E as (pt & l1 & _ & E).
    unfold ret in E. injection E as <- <-. reflexivity.
  - unfold _reset_trail_with_current, _append_current_point in E.
    apply bind_Ok_inv in E as (pt & l1 & _ & E).
    unfold ret in E. injection E as <- <-. reflexivity.
  - exact (last_assignment_remembers _ _ _ _ E).
  - exact (last_assignment_remembers _ _ _ _ E).
  - exact (last_assignment_remembers _ _ _ _ E).
  - now apply draw_trail_when_remembered.
Qed.

(** X7. In every state the trail can reach, drawing a frame moves
    neither the cursor nor any sample: each trail method leaves
    [_last_trail_index] equal to [trail_index], so the guard of [_draw]
    against a shrunken trail never fires, and the visible trail is the
    same before and after; all [_draw] can change is to clear
    [_rewind_in_progress]. *)
Theorem draw_never_moves_the_cursor paused show_trail t :
  trail_reachable C P t ->
  _last_trail_index t = trail_index t
  /\ trail_history (_draw_trail paused show_trail t) = trail_history t
  /\ trail_index (_draw_trail paused show_trail t) = trail_index t
  /\ visible_trail (_draw_trail paused show_trail t) = visible_trail t
  /\ _last_trail_index (_draw_trail paused show_trail t) = trail_index t
  /\ (_rewind_in_progress (_draw_trail paused show_trail t) = true ->
      _rewind_in_progress t = true).
Proof.
  intros Hr. pose proof (reachable_cursor_remembered t Hr) as Hm.
  destruct (draw_trail_when_remembered paused show_trail t Hm)
    as (Eh & Ei & Em).
  split; [exact Hm|]. split; [exact Eh|]. split; [exact Ei|]. split.
  { unfold visible_trail. now rewrite Eh, Ei. }
  split; [unfold cursor_remembered in Em; congruence|].
  unfold _draw_trail.
  destruct (show_trail && (1 <? trail_index t)%Z); [|auto].
  destruct paused; cbn; [discriminate|auto].
Qed.

End VisibleTrail.

Lemma recording_extends_the_visible_trail_witness :
  exists t',
    _advance_trail_forward (ret (3, 4)) rewound_trail ([] : list unit)
    = Ok (t', [])
    /\ visible_trail t' = visible_trail rewound_trail ++ [(3, 4)].
Proof.
  destruct (recording_extends_the_visible_trail
              (ret (3, 4)) rewound_trail ([] : list unit) (3, 4) [])
    as (t' & E & _ & _ & Ev & _).
  - unfold cursor_in_bounds. cbn. lia.
  - reflexivity.
  - now exists t'.
Defined.

Lemma rewinding_rewrites_one_sample_witness :
  exists t',
    _step_frame_trail (ret (3, 4)) false rewound_trail ([] : list unit)
    = Ok (t', [])
    /\ trail_index t' = 1%Z
    /\ visible_trail t' = [(3, 4)].
Proof.
  destruct (rewinding_rewrites_one_sample
              (ret (3, 4)) rewound_trail ([] : list unit) (3, 4) [])
    as (t' & E & Ei & _ & Ev & _).
  - unfold cursor_on_trail. cbn. lia.
  - reflexivity.
  - exists t'. rewrite Ei in Ev. now repeat split.
Defined.

Lemma step_back_then_forward_witness :
  let t := {| trail_history := [(2, 0); (1, 1)]; trail_index := 2;
              _last_trail_index := 2; _rewind_in_progress := false |} in
  exists t1 t2,
    _step_frame_trail (ret (3, 4)) false t ([] : list unit) = Ok (t1, [])
    /\ _step_frame_trail (ret (5, 6)) true t1 ([] : list unit) = Ok (t2, [])
    /\ trail_index t2 = 2%Z
    /\ visible_trail t2 = [(3, 4); (5, 6)].
Proof.
  intros t.
  destruct (step_back_then_forward
              (ret (3, 4)) (ret (5, 6)) t ([] : list unit) (3, 4) [] (5, 6) [])
    as (t1 & t2 & E1 & E2 & Ei & _ & Ev & _).
  - unfold cursor_on_trail. cbn. lia.
  - cbn. lia.
  - reflexivity.
  - reflexivity.
  - exists t1, t2. now repeat split.
Defined.

Lemma draw_never_moves_the_cursor_witness :
  let t := {| trail_history := [(2, 0)]; trail_index := 1;
              _last_trail_index := 1; _rewind_in_progress := false |} in
  trail_reachable unit (R * R) t
  /\ trail_index (_draw_trail true true t) = 1%Z.
Proof.
  intros t.
  assert (Hr : trail_reachable unit (R * R) t).
  { apply (reach_init (ret (2, 0)) [] t []). reflexivity. }
  split; [exact Hr|].
  destruct (draw_never_moves_the_cursor true true t Hr) as (_ & _ & Ei & _).
  exact Ei.
Defined.

(** ** One tick of [run] *)

Lemma set_state_twice {F} (p : DoublePendulum F) a b c d a' b' c' d' :
  set_state (set_state p a b c d) a' b' c' d' = set_state p a' b' c' d'.
Proof. reflexivity. Qed.

Lemma set_state_of_own_state {F} (p : DoublePendulum F) :
  set_state p (theta1 p) (theta2 p) (omega1 p) (omega2 p) = p.
Proof. now destruct p. Qed.

(** The sub-step loop assigns the four state attributes and the clock,
    whatever the float type. *)
Lemma run_substeps_frame {F} {num : PyFloat F} (fuel : nat) :
  forall (self : Simulator F) (remaining : F) log self' log',
    run_substeps fuel self remaining log = Ok (self', log') ->
    trail self' = trail self
    /\ paused self' = paused self
    /\ show_trail self' = show_trail self
    /\ time_scale self' = time_scale self
    /\ origin self' = origin self
    /\ scale self' = scale self
    /\ set_state (pendulum self')
         (theta1 (pendulum self)) (theta2 (pendulum self))
         (omega1 (pendulum self)) (omega2 (pendulum self))
       = pendulum self.
Proof.
  induction fuel as [|fuel IH]; intros self remaining log self' log' E;
    [discriminate|].
  cbn [run_substeps] in E.
  destruct (fltb (flit 0) remaining).
  - apply bind_Ok_inv in E as (p & l1 & Estep & E).
    apply step_returns_inv in Estep as (sixth & s0 & s1 & s2 & s3 & _ & ->).
    apply IH in E as (Et & Ep & Es & Ets & Eo & Esc & Epend).
    cbn [trail paused show_trail time_scale origin scale pendulum
         set_sim_time set_pendulum] in *.
    repeat (split; [assumption|]).
    apply (f_equal (fun q => set_state q
                      (theta1 (pendulum self)) (theta2 (pendulum self))
                      (omega1 (pendulum self)) (omega2 (pendulum self))))
      in Epend.
    cbn [set_state m1 m2 L1 L2 g damping _initial_energy] in Epend.
    rewrite <- (set_state_of_own_state (pendulum self)) at 5.
    exact Epend.
  - unfold ret in E. injection E as <- <-.
    repeat (split; [reflexivity|]). apply set_state_of_own_state.
Qed.

(** One running tick over the reals. *)
Lemma tick_real (self : Simulator R) (dt_target : R) log :
  valid_params (pendulum self) -> cursor_in_bounds (trail self) ->
  paused self = false ->
  exists fuel0 : nat, forall fuel : nat, (fuel0 <= fuel)%nat ->
    exists self' log' joint1 x2 y2,
      run_tick fuel self dt_target log = Ok (self', log')
      /\ positions (pendulum self') log' = Ok (joint1, (x2, y2), log')
      /\ trail_index (trail self') = (trail_index (trail self) + 1)%Z
      /\ visible_trail (trail self') = visible_trail (trail self) ++ [(x2, y2)]
      /\ sim_time self' = sim_time self + Rmax 0 dt_target
      /\ valid_params (pendulum self').
Proof.
  intros Hv Hb Hrun.
  destruct (enough_substeps dt_target) as [n Hn].
  exists (S n). intros fuel Hfuel.
  assert (Hloop : run_substeps fuel self dt_target log
                  = steps (substeps n dt_target) self log)
    by (apply run_substeps_steps; [exact Hn | lia]).
  destruct (steps_return (substeps n dt_target) self log Hv)
    as (self1 & log1 & Esteps & _ & Htime).
  rewrite <- Hloop in Esteps.
  destruct (run_substeps_frame _ _ _ _ _ _ Esteps)
    as (Et & _ & _ & _ & _ & _ & Epend).
  destruct (substeps_sizes n dt_target Hn) as (_ & _ & Hsum).
  assert (Hv1 : valid_params (pendulum self1)).
  { unfold valid_params in *. rewrite <- Epend in Hv. exact Hv. }
  pose proof (positions_real (pendulum self1) log1) as Epos.
  assert (Ecur : _current_point self1 log1
                 = Ok ((L1 (pendulum self1) * sin (theta1 (pendulum self1))
                        + L2 (pendulum self1) * sin (theta2 (pendulum self1)),
                        L1 (pendulum self1) * cos (theta1 (pendulum self1))
                        + L2 (pendulum self1) * cos (theta2 (pendulum self1))),
                       log1)).
  { unfold _current_point. now rewrite (bind_Ok _ _ _ _ _ Epos). }
  rewrite <- Et in Hb.
  destruct (advance_at _ _ _ _ _ Hb Ecur)
    as (t' & Eadv & Ei & _ & Ev & _).
  apply update_trail_is_advance in Eadv.
  eexists (set_trail self1 t'), log1, _, _, _.
  split.
  { unfold run_tick. rewrite Hrun.
    rewrite (bind_Ok _ _ _ _ _ Esteps), (bind_Ok _ _ _ _ _ Eadv).
    reflexivity. }
  cbn [pendulum trail sim_time set_trail].
  split; [exact Epos|]. rewrite <- Et.
  split; [exact Ei|]. split; [exact Ev|].
  split; [rewrite Htime, Hsum; reflexivity | exact Hv1].
Qed.

(** X8. One tick of the main loop assigns nothing but the four state
    attributes, the clock and the trail, whatever the float type:
    when the block returns, [paused], [show_trail], [time_scale],
    [origin], [scale], the six parameters and the energy reference are
    as they were; while paused it changes nothing at all. *)
Theorem tick_touches_only_state_clock_and_trail {F} {num : PyFloat F}
    (fuel : nat) (self : Simulator F) (dt_target : F) log self' log' :
  run_tick fuel self dt_target log = Ok (self', log') ->
  paused self' = paused self
  /\ show_trail self' = show_trail self
  /\ time_scale self' = time_scale self
  /\ origin self' = origin self
  /\ scale self' = scale self
  /\ set_state (pendulum self')
       (theta1 (pendulum self)) (theta2 (pendulum self))
       (omega1 (pendulum self)) (omega2 (pendulum self))
     = pendulum self
  /\ (paused self = true -> self' = self /\ log' = log).
Proof.
  unfold run_tick. intros E.
  destruct (paused self) eqn:Ep.
  - unfold ret in E. injection E as <- <-. rewrite Ep.
    repeat (split; [reflexivity|]).
    split; [apply set_state_of_own_state | auto].
  - apply bind_Ok_inv in E as (self1 & l1 & Eloop & E).
    apply bind_Ok_inv in E as (t & l2 & _ & E).
    unfold ret in E. injection E as <- <-.
    apply run_substeps_frame in Eloop as (_ & Ep1 & Es & Ets & Eo & Esc & Epend).
    cbn [paused show_trail time_scale origin scale pendulum set_trail].
    rewrite Ep1, Ep. repeat (split; [assumption || reflexivity|]).
    discriminate.
Qed.

Lemma tick_touches_only_state_clock_and_trail_witness :
  exists fuel self' log',
    run_tick fuel (simulator_of scenario_pendulum) 0.003 [] = Ok (self', log')
    /\ scale self' = 217.5
    /\ g (pendulum self') = 9.81.
Proof.
  destruct (tick_real (simulator_of scenario_pendulum) 0.003 [])
    as (fuel0 & Hrun).
  - unfold valid_params; cbn; lra.
  - unfold cursor_in_bounds; cbn; lia.
  - reflexivity.
  - destruct (Hrun fuel0 (Nat.le_refl fuel0))
      as (self' & log' & _ & _ & _ & E & _).
    exists fuel0, self', log'. split; [exact E|].
    destruct (tick_touches_only_state_clock_and_trail _ _ _ _ _ _ E)
      as (_ & _ & _ & _ & Esc & Epend & _).
    split; [exact Esc|].
    change 9.81 with (g (pendulum (simulator_of scenario_pendulum))).
    rewrite <- Epend. reflexivity.
Defined.

(** X9. Over the reals, with valid parameters and the cursor within the
    samples, a running tick returns for every interval once it has fuel
    for its sub-steps.  It advances the clock by the interval (by
    nothing when [dt_target <= 0]) and, however many sub-steps it took,
    records exactly one sample: the position of the end mass after the
    last sub-step is appended to the visible trail. *)
Theorem tick_records_one_sample
    (self : Simulator R) (dt_target : R) (log : list (call R)) :
  valid_params (pendulum self) -> cursor_in_bounds (trail self) ->
  paused self = false ->
  exists fuel0 : nat, forall fuel : nat, (fuel0 <= fuel)%nat ->
    exists self' log' joint1 x2 y2,
      run_tick fuel self dt_target log = Ok (self', log')
      /\ positions (pendulum self') log' = Ok (joint1, (x2, y2), log')
      /\ trail_index (trail self') = (trail_index (trail self) + 1)%Z
      /\ visible_trail (trail self') = visible_trail (trail self) ++ [(x2, y2)]
      /\ sim_time self' = sim_time self + Rmax 0 dt_target.
Proof.
  intros Hv Hb Hrun.
  destruct (tick_real self dt_target log Hv Hb Hrun) as (fuel0 & H).
  exists fuel0. intros fuel Hfuel.
  destruct (H fuel Hfuel) as (self' & log' & j & x2 & y2 & E & Ep & Ei & Ev & Et & _).
  exists self', log', j, x2, y2. now repeat split.
Qed.

Lemma tick_records_one_sample_witness :
  exists fuel self' log',
    run_tick fuel (simulator_of scenario_pendulum) 0.003 [] = Ok (self', log')
    /\ trail_index (trail self') = 1%Z
    /\ sim_time self' = 0.003.
Proof.
  destruct (tick_records_one_sample (simulator_of scenario_pendulum) 0.003 [])
    as (fuel0 & Hrun).
  - unfold valid_params; cbn; lra.
  - unfold cursor_in_bounds; cbn; lia.
  - reflexivity.
  - destruct (Hrun fuel0 (Nat.le_refl fuel0))
      as (self' & log' & _ & _ & _ & E & _ & Ei & _ & Et).
    exists fuel0, self', log'. split; [exact E|].
    split; [exact Ei|].
    rewrite Et. cbn [sim_time simulator_of]. rewrite Rmax_right; lra.
Defined.

(** ** Frame stepping *)

Lemma current_point_real (self : Simulator R) log :
  _current_point self log
  = Ok ((L1 (pendulum self) * sin (theta1 (pendulum self))
         + L2 (pendulum self) * sin (theta2 (pendulum self)),
         L1 (pendulum self) * cos (theta1 (pendulum self))
         + L2 (pendulum self) * cos (theta2 (pendulum self))),
        log).
Proof.
  unfold _current_point.
  now rewrite (bind_Ok _ _ _ _ _ (positions_real (pendulum self) log)).
Qed.

(** X10. A frame step, forward or back, pauses the simulation, takes one
    RK4 step of a sixtieth of a second times [time_scale] in that
    direction, and keeps the clock from falling below zero (the state
    is stepped back all the same).  The cursor moves on by one when
    stepping forward and back by one, never before the first sample,
    when stepping back; either way the visible trail ends at the end
    mass's new position and no sample is dropped. *)
Theorem step_frame_moves_one_frame
    (self : Simulator R) (direction : Z) (log : list (call R)) :
  valid_params (pendulum self) -> 0 < time_scale self ->
  direction = 1%Z \/ direction = (-1)%Z ->
  cursor_on_trail (trail self) ->
  let dt := 1 / 60 * time_scale self * IZR direction in
  exists self' log' joint1 end_mass front,
    _step_frame self direction log = Ok (self', log')
    /\ paused self' = true
    /\ pendulum self'
       = with_state (pendulum self)
           (rk4 (equations_of_motion (pendulum self)) dt (state (pendulum self)))
    /\ sim_time self' = Rmax 0 (sim_time self + dt)
    /\ 0 <= sim_time self'
    /\ trail_index (trail self')
       = (if (direction =? 1)%Z then trail_index (trail self) + 1
          else Z.max 1 (trail_index (trail self) - 1))%Z
    /\ positions (pendulum self') log' = Ok (joint1, end_mass, log')
    /\ visible_trail (trail self') = front ++ [end_mass]
    /\ (len (trail_history (trail self))
        <= len (trail_history (trail self')))%Z.
Proof.
  intros Hv Hscale Hdir Hb dt.
  rewrite (step_frame_real self direction log Hscale Hdir). fold dt.
  rewrite (bind_Ok _ _ _ _ _ (step_real (pendulum self) dt log Hv)).
  set (p := with_state (pendulum self)
              (rk4 (equations_of_motion (pendulum self)) dt (state (pendulum self)))).
  set (log1 := log ++ rk4_points _ _ _).
  cbv zeta.
  set (self1 := set_sim_time (set_pendulum (set_paused self true) p)
                  (Rmax 0 (sim_time self + dt))).
  pose proof (current_point_real self1 log1) as Ecur.
  assert (Hfinish : forall t' front,
             _step_frame_trail (_current_point self1) (direction =? 1)%Z
               (trail self1) log1 = Ok (t', log1) ->
             trail_index t'
             = (if (direction =? 1)%Z then trail_index (trail self) + 1
                else Z.max 1 (trail_index (trail self) - 1))%Z ->
             visible_trail t' = front ++ [(L1 p * sin (theta1 p) + L2 p * sin (theta2 p),
                                           L1 p * cos (theta1 p) + L2 p * cos (theta2 p))] ->
             (len (trail_history (trail self)) <= len (trail_history t'))%Z ->
             exists self' log' joint1 end_mass front,
               bind (_step_frame_trail (_current_point self1) (direction =? 1)%Z
                       (trail self1))
                 (fun t => ret (set_trail self1 t)) log1 = Ok (self', log')
               /\ paused self' = true
               /\ pendulum self' = p
               /\ sim_time self' = Rmax 0 (sim_time self + dt)
               /\ 0 <= sim_time self'
               /\ trail_index (trail self')
                  = (if (direction =? 1)%Z then trail_index (trail self) + 1
                     else Z.max 1 (trail_index (trail self) - 1))%Z
               /\ positions (pendulum self') log' = Ok (joint1, end_mass, log')
               /\ visible_trail (trail self') = front ++ [end_mass]
               /\ (len (trail_history (trail self))
                   <= len (trail_history (trail self')))%Z).
  { intros t' front E Ei Ev Hlen.
    exists (set_trail self1 t'), log1. eexists _, _, front.
    split; [rewrite (bind_Ok _ _ _ _ _ E); reflexivity|].
    cbn [paused pendulum sim_time trail set_trail set_sim_time set_pendulum
         set_paused self1].
    split; [reflexivity|]. split; [reflexivity|]. split; [reflexivity|].
    split; [apply Rmax_l|]. split; [exact Ei|].
    split; [apply positions_real|]. split; [exact Ev | exact Hlen]. }
  destruct Hdir as [-> | ->]; cbn [Z.eqb Pos.eqb] in *.
  - assert (Hb' : cursor_in_bounds (trail self1)).
    { unfold cursor_in_bounds, cursor_on_trail in *. cbn. lia. }
    destruct (advance_at _ _ _ _ _ Hb' Ecur)
      as (t' & Eadv & Ei & Hlen & Ev & _).
    apply step_frame_forward_is_advance in Eadv.
    exact (Hfinish t' _ Eadv Ei Ev Hlen).
  - assert (Hb' : cursor_on_trail (trail self1)) by exact Hb.
    destruct (rewind_at _ _ _ _ _ Hb' Ecur)
      as (t' & Eback & Ei & Hlen & Ev & _).
    refine (Hfinish t' _ Eback Ei Ev _).
    cbn [trail self1 set_sim_time set_pendulum set_paused] in Hlen. lia.
Qed.

Lemma step_frame_moves_one_frame_witness :
  let self := set_trail (simulator_of scenario_pendulum) rewound_trail in
  exists self' log',
    _step_frame self (-1) [] = Ok (self', log')
    /\ paused self' = true
    /\ sim_time self' = 0
    /\ trail_index (trail self') = 1%Z.
Proof.
  intros self.
  destruct (step_frame_moves_one_frame self (-1) [])
    as (self' & log' & _ & _ & _ & E & Ep & _ & Et & _ & Ei & _).
  - unfold valid_params; cbn; lra.
  - cbn; lra.
  - now right.
  - unfold cursor_on_trail; cbn; lia.
  - exists self', log'. split; [exact E|]. split; [exact Ep|].
    split; [|exact Ei].
    rewrite Et. cbn [self sim_time set_trail simulator_of time_scale].
    apply Rmax_left. lra.
Defined.

(** ** Dragging the masses *)

(** X11. Dragging the first mass never fails and turns the first link
    towards the mouse: the elbow angle [theta2 - theta1] is kept, both
    velocities are zeroed, nothing else is assigned, and, unless the
    mouse is on the pivot itself, the first joint lies on the ray from
    the pivot through the mouse (at distance [L1], the links being
    rigid). *)
Theorem drag_mid_turns_the_first_link_to_the_mouse
    (self : Simulator R) (pos : Z * Z) (log : list (call R)) :
  let rx := IZR (fst pos - fst (origin self)) in
  let ry := IZR (snd pos - snd (origin self)) in
  exists self' x1 y1 joint2,
    _apply_drag_mid self pos log = Ok (self', log)
    /\ theta2 (pendulum self') - theta1 (pendulum self')
       = theta2 (pendulum self) - theta1 (pendulum self)
    /\ omega1 (pendulum self') = 0 /\ omega2 (pendulum self') = 0
    /\ set_state (pendulum self')
         (theta1 (pendulum self)) (theta2 (pendulum self))
         (omega1 (pendulum self)) (omega2 (pendulum self))
       = pendulum self
    /\ set_pendulum self' (pendulum self) = self
    /\ positions (pendulum self') log = Ok ((x1, y1), joint2, log)
    /\ (rx <> 0 \/ ry <> 0 ->
        sqrt (rx * rx + ry * ry) * x1 = L1 (pendulum self) * rx
        /\ sqrt (rx * rx + ry * ry) * y1 = L1 (pendulum self) * ry).
Proof.
  intros rx ry.
  eexists _, _, _, _. split.
  { unfold _apply_drag_mid. cbn [fst snd of_int R_PyFloat].
    rewrite (bind_lift_Ok _ _ _ _ eq_refl), (bind_lift_Ok _ _ _ _ eq_refl).
    rewrite flit_real_zero. reflexivity. }
  cbn [pendulum set_pendulum set_state theta1 theta2 omega1 omega2
       m_atan2 fadd fsub R_PyFloat].
  split; [ring|]. split; [reflexivity|]. split; [reflexivity|].
  split; [rewrite set_state_twice; apply set_state_of_own_state|].
  split; [now destruct self|].
  split; [rewrite positions_real; reflexivity|].
  intros Hne. cbn [L1 theta1 set_state]. fold rx ry.
  destruct (atan2_polar ry rx) as [Hcos Hsin]; [tauto|].
  replace (rx * rx + ry * ry) with (ry * ry + rx * rx) by ring.
  split.
  - transitivity (L1 (pendulum self)
                  * (sqrt (ry * ry + rx * rx) * sin (Ratan2 rx ry))); [ring|].
    now rewrite Hsin.
  - transitivity (L1 (pendulum self)
                  * (sqrt (ry * ry + rx * rx) * cos (Ratan2 rx ry))); [ring|].
    now rewrite Hcos.
Qed.

(** What [_drag_update] does once the pose is set. *)
Lemma drag_update_after (dragging_end dragging_mid : bool)
    (self self1 : Simulator R) (pos : Z * Z) log :
  (if dragging_end then _apply_drag_end self pos
   else if dragging_mid then _apply_drag_mid self pos
   else ret self) log = Ok (self1, log) ->
  let p := pendulum self1 in
  let end_mass := (L1 p * sin (theta1 p) + L2 p * sin (theta2 p),
                   L1 p * cos (theta1 p) + L2 p * cos (theta2 p)) in
  let e := kinetic_energy p
           + potential_energy p (L1 p * cos (theta1 p)) (snd end_mass) in
  _drag_update dragging_end dragging_mid self pos log
  = Ok (set_trail (set_pendulum self1 (set_initial_energy p (Some e)))
          {| trail_history := [end_mass]; trail_index := 1;
             _last_trail_index := 1; _rewind_in_progress := false |},
        log).
Proof.
  intros E p end_mass e. unfold _drag_update.
  rewrite (bind_Ok _ _ _ _ _ E).
  unfold _reset_trail_with_current, _append_current_point.
  rewrite (bind_Ok _ _ _ _ _
             (bind_Ok _ _ _ _ _ (current_point_real self1 log))).
  unfold ret at 1.
  cbn [pendulum trail set_trail set_pendulum trail_history trail_index
       _last_trail_index app].
  rewrite (bind_Ok _ _ _ _ _ (energy_real (pendulum self1) log)).
  reflexivity.
Qed.

(** X12. [_drag_update] with no mass grabbed, as [_handle_mouse] runs
    it on every mouse motion while paused, never fails and leaves the
    pose and the velocities as they are; but the trail recorded so far
    is replaced by the single current position of the end mass, the
    energy reference is reset to the current energy, and a rewind in
    progress is forgotten. *)
Theorem drag_update_without_a_drag_resets_the_trail
    (self : Simulator R) (pos : Z * Z) (log : list (call R)) :
  exists joint1 end_mass e,
    positions (pendulum self) log = Ok (joint1, end_mass, log)
    /\ energy (pendulum self) log = Ok (e, log)
    /\ _drag_update false false self pos log
       = Ok (set_trail
               (set_pendulum self (set_initial_energy (pendulum self) (Some e)))
               {| trail_history := [end_mass]; trail_index := 1;
                  _last_trail_index := 1; _rewind_in_progress := false |},
             log).
Proof.
  eexists _, _, _.
  split; [apply positions_real|]. split; [apply energy_real|].
  apply (drag_update_after false false self self pos log). reflexivity.
Qed.

(** X13. While the end mass is dragged to a target the links can
    reach (at distance within [[|L1-L2| + 1e-4, L1+L2 - 1e-4]] of the
    pivot), each [_drag_update] leaves the simulator at rest with the
    end mass on the target: the trail is restarted as the single sample
    that is the target itself, no rewind is in progress, and the energy
    reference is the energy of the new pose, which is all potential. *)
Theorem drag_update_restarts_the_trail_at_the_target
    (dragging_mid : bool) (self : Simulator R) (pos : Z * Z)
    (log : list (call R)) :
  let l1 := L1 (pendulum self) in
  let l2 := L2 (pendulum self) in
  let x := fst (drag_target self pos) in
  let y := snd (drag_target self pos) in
  let distance := sqrt (x * x + y * y) in
  0 < l1 -> 0 < l2 -> scale self <> 0 ->
  Rabs (l1 - l2) + 0.0001 <= distance <= l1 + l2 - 0.0001 ->
  exists self' e y1,
    _drag_update true dragging_mid self pos log = Ok (self', log)
    /\ trail self'
       = {| trail_history := [(x, y)]; trail_index := 1;
            _last_trail_index := 1; _rewind_in_progress := false |}
    /\ omega1 (pendulum self') = 0 /\ omega2 (pendulum self') = 0
    /\ _initial_energy (pendulum self') = Some e
    /\ energy (pendulum self') log = Ok (e, log)
    /\ y1 = L1 (pendulum self') * cos (theta1 (pendulum self'))
    /\ e = potential_energy (pendulum self) y1 y.
Proof.
  intros l1 l2 x y distance Hl1 Hl2 Hscale [Hlo Hhi].
  pose proof (Rabs_pos (l1 - l2)) as Habs.
  assert (Er : clamped_radius l1 l2 (x, y) = distance).
  { unfold clamped_radius. fold distance.
    rewrite Rmax_left by lra. now rewrite Rmin_left by lra. }
  destruct (apply_drag_end_real self pos log)
    as (self1 & E & Epos & Hw1 & Hw2 & HL1 & HL2); fold l1 l2 x y;
    rewrite ?Er; try assumption; try lra.
  fold l1 l2 x y in Epos. rewrite Er in Epos.
  assert (Hne : x <> 0 \/ y <> 0).
  { destruct (Req_dec x 0) as [Hx0|Hx0]; [right|now left].
    intros Hy0. unfold distance in Hlo. rewrite Hx0, Hy0 in Hlo.
    replace (0 * 0 + 0 * 0) with 0 in Hlo by ring.
    rewrite sqrt_0 in Hlo. lra. }
  destruct (atan2_polar x y Hne) as [Hcos Hsin]. fold distance in Hcos, Hsin.
  rewrite Hcos, Hsin, positions_real in Epos.
  injection Epos as Ex Ey.
  pose proof (drag_update_after true dragging_mid self self1 pos log E) as Eupd.
  cbv zeta in Eupd. rewrite Ex, Ey in Eupd. cbn [snd] in Eupd.
  assert (Hparams : m1 (pendulum self1) = m1 (pendulum self)
                    /\ m2 (pendulum self1) = m2 (pendulum self)
                    /\ g (pendulum self1) = g (pendulum self)).
  { unfold _apply_drag_end in E.
    repeat (apply bind_Ok_inv in E as (? & ? & _ & E)).
    unfold ret in E. injection E as <- _. now cbn. }
  destruct Hparams as (Hm1 & Hm2 & Hg).
  eexists _, _, (L1 (pendulum self1) * cos (theta1 (pendulum self1))).
  split; [exact Eupd|].
  cbn [trail pendulum set_trail set_pendulum set_initial_energy
       omega1 omega2 _initial_energy].
  split; [reflexivity|]. split; [exact Hw1|]. split; [exact Hw2|].
  split; [reflexivity|]. split.
  { rewrite energy_real.
    cbn [m1 m2 L1 L2 g theta1 theta2 omega1 omega2 set_initial_energy].
    unfold kinetic_energy, potential_energy.
    cbn [m1 m2 L1 L2 g theta1 theta2 omega1 omega2 set_initial_energy].
    rewrite Ey. reflexivity. }
  split; [reflexivity|].
  unfold kinetic_energy, potential_energy.
  rewrite Hw1, Hw2, Hm1, Hm2, Hg. ring.
Qed.

Lemma drag_update_restarts_the_trail_at_the_target_witness :
  let self := simulator_of scenario_pendulum in
  let pos := (687, 151)%Z in
  drag_target self pos = (217 / 217.5, 0)
  /\ exists self',
       _drag_update true false self pos [] = Ok (self', [])
       /\ trail_history (trail self') = [(217 / 217.5, 0)].
Proof.
  intros self pos.
  assert (Et : drag_target self pos = (217 / 217.5, 0)).
  { unfold drag_target. cbn [self pos simulator_of origin scale fst snd].
    f_equal. replace (151 - 151)%Z with 0%Z by reflexivity. lra. }
  split; [exact Et|].
  assert (Es : sqrt (217 / 217.5 * (217 / 217.5) + 0 * 0) = 217 / 217.5).
  { replace (217 / 217.5 * (217 / 217.5) + 0 * 0)
      with (217 / 217.5 * (217 / 217.5)) by ring.
    apply sqrt_square. lra. }
  destruct (drag_update_restarts_the_trail_at_the_target false self pos [])
    as (self' & e & y1 & E & Etrail & _).
  1-3: cbn [self simulator_of pendulum scenario_pendulum L1 L2 scale]; lra.
  { rewrite Et. cbn [fst snd self simulator_of pendulum scenario_pendulum L1 L2].
    rewrite Es. replace (1 - 1) with 0 by ring. rewrite Rabs_R0. lra. }
  exists self'. split; [exact E|].
  rewrite Etrail, Et. reflexivity.
Defined.

(** ** Sliders *)

Lemma Rround_half_even_close (x : R) :
  Rabs (IZR (Rround_half_even x) - x) <= 1 / 2.
Proof.
  unfold Rround_half_even.
  pose proof (base_fp x) as [Hlo Hhi].
  assert (E : x = IZR (Int_part x) + frac_part x) by (unfold frac_part; ring).
  set (n := Int_part x) in *. set (d := frac_part x) in *.
  clearbody n d. subst x.
  unfold Rabs.
  destruct (Rlt_dec d (1 / 2)); [destruct (Rcase_abs _); lra|].
  destruct (Rlt_dec (1 / 2) d).
  { rewrite plus_IZR. destruct (Rcase_abs _); lra. }
  destruct (Z.even n); [|rewrite plus_IZR]; destruct (Rcase_abs _); lra.
Qed.

Lemma Rround_half_even_nonneg (x : R) : 0 <= x -> (0 <= Rround_half_even x)%Z.
Proof.
  intros Hx. unfold Rround_half_even.
  pose proof (base_fp x) as [Hlo Hhi].
  assert (Hn : (0 <= Int_part x)%Z).
  { apply Z.lt_succ_r. apply lt_IZR. unfold Z.succ. rewrite plus_IZR.
    unfold frac_part in Hhi. lra. }
  destruct (Rlt_dec _ _); [exact Hn|].
  destruct (Rlt_dec _ _); [lia|].
  destruct (Z.even _); lia.
Qed.

Lemma float_bool_real (x : R) :
  float_bool x = if Req_EM_T x 0 then false else true.
Proof.
  unfold float_bool. rewrite flit_real_zero. cbn [feqb R_PyNumber].
  now destruct (Req_EM_T x 0).
Qed.

(** The snapping both [_update_value_from_pos] and
    [_commit_input_buffer] perform, over the reals. *)
Lemma snap_real {B} (lo : R) (step : option R) (v : R) (k : R -> Py R B) log :
  bind (match step with
        | Some s =>
            if float_bool s then
              bind (lift (fdiv (fsub v lo) s)) (fun q =>
              bind (lift (round_to_int q)) (fun steps =>
              bind (lift (of_int steps)) (fun steps =>
              ret (fadd lo (fmul steps s)))))
            else ret v
        | None => ret v
        end) k log
  = k (match step with
       | Some s => if Req_EM_T s 0 then v else nearest_on_grid lo s v
       | None => v
       end) log.
Proof.
  destruct step as [s|]; [|reflexivity].
  rewrite float_bool_real. destruct (Req_EM_T s 0) as [Hs|Hs]; [reflexivity|].
  cbn [fsub fadd fmul fdiv R_PyFloat].
  unfold bind at 1. unfold bind at 1.
  unfold lift at 1. rewrite (Rdiv_py_nonzero _ _ Hs). reflexivity.
Qed.

Lemma update_value_from_pos_real (self : Slider R) (x : Z) log :
  rect_w self <> 0%Z ->
  _update_value_from_pos self x log
  = Ok (set_value self
          (Rmax (min_value self)
             (Rmin (max_value self)
                (match slider_step self with
                 | Some s =>
                     if Req_EM_T s 0 then pointer_value self x
                     else nearest_on_grid (min_value self) s (pointer_value self x)
                 | None => pointer_value self x
                 end))),
        log).
Proof.
  intros Hw. unfold _update_value_from_pos.
  cbn [int_truediv R_PyNumber].
  destruct (Z.eqb_spec (rect_w self) 0) as [|_]; [contradiction|].
  rewrite (bind_lift_Ok _ _ _ _ eq_refl).
  rewrite !py_max_real, !py_min_real, flit_real_zero, flit_real_one.
  cbn [fadd fmul fsub R_PyFloat].
  rewrite snap_real. rewrite py_max_real, py_min_real. reflexivity.
Qed.

Lemma clamp_in_range (lo hi v : R) :
  lo <= hi -> lo <= Rmax lo (Rmin hi v) <= hi.
Proof.
  intros H. unfold Rmax, Rmin.
  destruct (Rle_dec hi v); destruct (Rle_dec lo _); lra.
Qed.

Lemma clamp_moves_closer (lo hi v target : R) :
  lo <= target <= hi ->
  Rabs (Rmax lo (Rmin hi v) - target) <= Rabs (v - target).
Proof.
  intros H. unfold Rmax, Rmin.
  destruct (Rle_dec hi v); destruct (Rle_dec lo _);
    unfold Rabs; repeat destruct (Rcase_abs _); lra.
Qed.

Lemma nearest_on_grid_close (lo step v : R) :
  step <> 0 ->
  Rabs (nearest_on_grid lo step v - v) <= Rabs step / 2.
Proof.
  intros Hs. unfold nearest_on_grid.
  pose proof (Rround_half_even_close ((v - lo) / step)) as Hk.
  set (k := IZR (Rround_half_even ((v - lo) / step))) in *. clearbody k.
  replace (lo + k * step - v) with ((k - (v - lo) / step) * step)
    by (field; exact Hs).
  rewrite Rabs_mult.
  pose proof (Rabs_pos_lt step Hs). nra.
Qed.

Lemma pointer_value_in_range (self : Slider R) (x : Z) :
  min_value self <= max_value self ->
  min_value self <= pointer_value self x <= max_value self.
Proof.
  intros H. unfold pointer_value.
  set (q := IZR (x - rect_x self) / IZR (rect_w self)). clearbody q.
  assert (Hp : 0 <= Rmax 0 (Rmin 1 q) <= 1).
  { unfold Rmax, Rmin. destruct (Rle_dec 1 q); destruct (Rle_dec 0 _); lra. }
  nra.
Qed.

(** X14. A slider whose track has a width and whose range is in order
    always ends up with a value inside its range.  Without a step the
    value is the one the pointer stands for, the pointer being clamped
    to the track; with a step it is within half a step of that value,
    and it is either a whole number of steps above the minimum or the
    maximum itself. *)
Theorem slider_value_follows_the_pointer
    (self : Slider R) (x : Z) (log : list (call R)) :
  rect_w self <> 0%Z -> min_value self <= max_value self ->
  exists v,
    _update_value_from_pos self x log = Ok (set_value self v, log)
    /\ min_value self <= v <= max_value self
    /\ match slider_step self with
       | None => v = pointer_value self x
       | Some step =>
           (step = 0 -> v = pointer_value self x)
           /\ (step <> 0 -> Rabs (v - pointer_value self x) <= Rabs step / 2)
           /\ (0 < step ->
               v = max_value self
               \/ exists k : Z, (0 <= k)%Z /\ v = min_value self + IZR k * step)
       end.
Proof.
  intros Hw Hrange.
  pose proof (pointer_value_in_range self x Hrange) as Hp.
  eexists. split; [apply (update_value_from_pos_real self x log Hw)|].
  split; [now apply clamp_in_range|].
  assert (Hid : Rmax (min_value self) (Rmin (max_value self) (pointer_value self x))
                = pointer_value self x).
  { rewrite Rmin_right by lra. now rewrite Rmax_right by lra. }
  destruct (slider_step self) as [step|]; [|exact Hid].
  destruct (Req_EM_T step 0) as [Hz|Hnz].
  - split; [intros _; exact Hid|]. split; [contradiction|]. lra.
  - split; [contradiction|]. split.
    + intros _.
      eapply Rle_trans; [apply clamp_moves_closer; exact Hp|].
      now apply nearest_on_grid_close.
    + intros Hpos.
      set (k := Rround_half_even ((pointer_value self x - min_value self) / step)).
      assert (Hk : (0 <= k)%Z).
      { apply Rround_half_even_nonneg. apply Rmult_le_pos; [lra|].
        left. now apply Rinv_0_lt_compat. }
      fold (nearest_on_grid (min_value self) step (pointer_value self x)).
      unfold nearest_on_grid. fold k.
      assert (Hge : min_value self <= min_value self + IZR k * step).
      { apply IZR_le in Hk. nra. }
      destruct (Rle_dec (max_value self) (min_value self + IZR k * step)).
      * left. rewrite Rmin_left by lra. now rewrite Rmax_right by lra.
      * right. exists k. split; [exact Hk|].
        rewrite Rmin_right by lra. now rewrite Rmax_right by lra.
Qed.

Lemma slider_value_follows_the_pointer_witness :
  let gravity := {| min_value := 0.5; max_value := 25; value := 9.81;
                    slider_step := Some 0.1;
                    rect_x := 964; rect_w := 292 |} in
  exists v,
    _update_value_from_pos gravity 1110 [] = Ok (set_value gravity v, [])
    /\ 0.5 <= v <= 25.
Proof.
  intros gravity.
  destruct (slider_value_follows_the_pointer gravity 1110 [])
    as (v & E & Hv & _).
  - cbn. lia.
  - cbn. lra.
  - exists v. split; [exact E | exact Hv].
Defined.

(** ** The layout of the window *)

Ltac real_literal := cbn [flit R_PyFloat]; unfold Q2R; cbn [Qnum Qden]; lra.

Lemma flit_real_three_quarters : flit 0.75 = 0.75.
Proof. real_literal. Qed.

Lemma flit_real_tenth : flit 0.1 = 0.1.
Proof. real_literal. Qed.

Lemma flit_real_018 : flit 0.18 = 0.18.
Proof. real_literal. Qed.

Lemma flit_real_09 : flit 0.9 = 0.9.
Proof. real_literal. Qed.

Lemma compute_scale_real (self : Gui R) log :
  _compute_scale self log
  = Ok (0.75
        * IZR (Z.min (render_width (window self) - 140)
                     (height (window self) - 260))
        / Rmax (L1 (pendulum (sim self)) + L2 (pendulum (sim self))) 0.1,
        log).
Proof.
  unfold _compute_scale. cbn [of_int R_PyFloat].
  rewrite (bind_lift_Ok _ _ _ _ eq_refl).
  rewrite py_max_real, flit_real_three_quarters, flit_real_tenth.
  cbn [fadd fmul fdiv R_PyFloat]. unfold lift.
  rewrite Rdiv_py_nonzero; [reflexivity|].
  pose proof (Rmax_r (L1 (pendulum (sim self)) + L2 (pendulum (sim self))) 0.1).
  lra.
Qed.

(** X15. [_compute_scale] never fails, whatever the lengths and the
    window: the divisor is at least [0.1].  The scale it returns is
    positive as soon as both usable sides of the render area are, and
    with links of total length [0.1] or more the fully stretched
    pendulum spans exactly three quarters of the smaller usable side. *)
Theorem compute_scale_fits_the_pendulum (self : Gui R) (log : list (call R)) :
  let total_length := L1 (pendulum (sim self)) + L2 (pendulum (sim self)) in
  let usable :=
    IZR (Z.min (render_width (window self) - 140) (height (window self) - 260)) in
  exists s,
    _compute_scale self log = Ok (s, log)
    /\ s * Rmax total_length 0.1 = 0.75 * usable
    /\ (0 < usable -> 0 < s)
    /\ (0.1 <= total_length -> total_length * s = 0.75 * usable).
Proof.
  intros total_length usable.
  pose proof (Rmax_r total_length 0.1) as Hmax.
  eexists. split; [apply compute_scale_real|].
  fold total_length usable.
  split; [field; lra|]. split.
  - intros Hu. apply Rdiv_lt_0_compat; lra.
  - intros Ht. rewrite Rmax_left by lra. field. lra.
Qed.

(** ** Synchronising with the sliders *)

Lemma energy_is_total_energy (p : DoublePendulum R) log :
  energy p log = Ok (total_energy p, log).
Proof. rewrite energy_real. reflexivity. Qed.

Lemma reset_trail_real (s : Simulator R) log :
  _reset_trail s log
  = Ok (set_trail s (fresh_trail (end_mass (pendulum s))
                       (_rewind_in_progress (trail s))), log).
Proof.
  unfold _reset_trail, _reset_trail_with_current, _append_current_point.
  rewrite (bind_Ok _ _ _ _ _
             (bind_Ok _ _ _ _ _ (current_point_real s log))).
  reflexivity.
Qed.

Lemma feqb_real (a b : R) : feqb a b = if Req_EM_T a b then true else false.
Proof. reflexivity. Qed.

Lemma sync_real (self : Gui R) log :
  let p := pendulum (sim self) in
  let p' := slider_params (sliders self) p in
  let fresh := fresh_trail (end_mass p') (_rewind_in_progress (trail (sim self))) in
  _sync_from_sliders self log
  = Ok (set_default_damping
          (set_sim self
             {| pendulum := set_initial_energy p' (Some (total_energy p'));
                trail :=
                  if Req_EM_T (L1 p') (L1 p)
                  then if Req_EM_T (L2 p') (L2 p) then trail (sim self) else fresh
                  else fresh;
                paused := paused (sim self);
                show_trail := show_trail (sim self);
                time_scale := value (time_scale_slider (sliders self));
                sim_time := sim_time (sim self);
                origin := origin (sim self);
                scale := scale_for (window self) (L1 p' + L2 p') |})
          (value (damping_slider (sliders self))),
        log).
Proof.
  intros p p' fresh. unfold _sync_from_sliders.
  fold p. fold (slider_params (sliders self) p). fold p'.
  rewrite (bind_Ok _ _ _ _ _ (compute_scale_real _ log)).
  cbn [sim window set_sim set_default_damping pendulum set_pendulum
       set_time_scale set_scale].
  rewrite (bind_Ok _ _ _ _ _ (energy_is_total_energy p' log)).
  fold (scale_for (window self) (L1 p' + L2 p')).
  cbn [L1 L2 set_initial_energy].
  rewrite !feqb_real.
  destruct (Req_EM_T (L1 p') (L1 p)); [destruct (Req_EM_T (L2 p') (L2 p))|];
    cbn [negb orb].
  - reflexivity.
  - rewrite (bind_Ok _ _ _ _ _ (reset_trail_real _ log)). reflexivity.
  - rewrite (bind_Ok _ _ _ _ _ (reset_trail_real _ log)). reflexivity.
Qed.

Lemma slider_params_again (sl : Sliders R) (p : DoublePendulum R) e :
  slider_params sl (set_initial_energy (slider_params sl p) e)
  = set_initial_energy (slider_params sl p) e.
Proof. reflexivity. Qed.

Lemma sync_is_idempotent (self self' : Gui R) log :
  _sync_from_sliders self log = Ok (self', log) ->
  _sync_from_sliders self' log = Ok (self', log).
Proof.
  rewrite sync_real. intros [= <-]. rewrite sync_real.
  cbn [sim window sliders set_sim set_default_damping pendulum trail paused
       show_trail time_scale sim_time origin scale].
  rewrite slider_params_again.
  set (p' := slider_params (sliders self) (pendulum (sim self))).
  change (total_energy (set_initial_energy p' (Some (total_energy p'))))
    with (total_energy p').
  change (L1 (set_initial_energy p' (Some (total_energy p')))) with (L1 p').
  change (L2 (set_initial_energy p' (Some (total_energy p')))) with (L2 p').
  destruct (Req_EM_T (L1 p') (L1 p')); [|contradiction].
  destruct (Req_EM_T (L2 p') (L2 p')); [|contradiction].
  reflexivity.
Qed.

(** X16. [_sync_from_sliders] never fails.  It gives the pendulum the
    six parameters the sliders show and leaves angles and velocities
    alone; the time scale and the damping that key [D] restores are the
    sliders' too; the scale is recomputed and the energy reference is
    the energy of the pendulum as it now is.  The trail is kept when
    neither length changed and restarted at the end mass otherwise.
    Doing it a second time changes nothing. *)
Theorem sync_takes_the_parameters_from_the_sliders
    (self : Gui R) (log : list (call R)) :
  exists self',
    let s := sliders self in
    let p := pendulum (sim self) in
    let p' := pendulum (sim self') in
    _sync_from_sliders self log = Ok (self', log)
    /\ (m1 p', m2 p', L1 p', L2 p', g p', damping p')
       = (value (mass1_slider s), value (mass2_slider s),
          value (length1_slider s), value (length2_slider s),
          value (gravity_slider s), value (damping_slider s))
    /\ state p' = state p
    /\ time_scale (sim self') = value (time_scale_slider s)
    /\ default_damping self' = value (damping_slider s)
    /\ scale (sim self') = scale_for (window self) (L1 p' + L2 p')
    /\ _draw_hud_energy p' log = Ok (p', total_energy p', 0, log)
    /\ (L1 p' = L1 p -> L2 p' = L2 p -> trail (sim self') = trail (sim self))
    /\ (L1 p' <> L1 p \/ L2 p' <> L2 p ->
        trail (sim self')
        = fresh_trail (end_mass p') (_rewind_in_progress (trail (sim self))))
    /\ (paused (sim self'), show_trail (sim self'), sim_time (sim self'),
        origin (sim self'))
       = (paused (sim self), show_trail (sim self), sim_time (sim self),
          origin (sim self))
    /\ (window self', sliders self', entry self') = (window self, s, entry self)
    /\ _sync_from_sliders self' log = Ok (self', log).
Proof.
  eexists. cbv zeta. split; [apply sync_real|].
  cbn [sim window sliders entry set_sim set_default_damping pendulum trail
       paused show_trail time_scale sim_time origin scale default_damping].
  set (p := pendulum (sim self)).
  set (p' := slider_params (sliders self) p).
  split; [reflexivity|]. split; [reflexivity|]. split; [reflexivity|].
  split; [reflexivity|]. split; [reflexivity|]. split.
  { unfold _draw_hud_energy.
    rewrite (bind_Ok _ _ _ _ _ (energy_is_total_energy _ log)).
    cbn [_initial_energy set_initial_energy]. unfold ret.
    cbn [fsub R_PyFloat].
    change (total_energy (set_initial_energy p' (Some (total_energy p'))))
      with (total_energy p').
    repeat f_equal. ring. }
  change (L1 (set_initial_energy p' (Some (total_energy p')))) with (L1 p').
  change (L2 (set_initial_energy p' (Some (total_energy p')))) with (L2 p').
  split.
  { intros E1 E2.
    destruct (Req_EM_T (L1 p') (L1 p)); [|contradiction].
    destruct (Req_EM_T (L2 p') (L2 p)); [|contradiction]. reflexivity. }
  split.
  { intros Hne.
    destruct (Req_EM_T (L1 p') (L1 p)); [|reflexivity].
    destruct (Req_EM_T (L2 p') (L2 p)); [|reflexivity]. tauto. }
  split; [reflexivity|]. split; [reflexivity|].
  apply (sync_is_idempotent self). apply sync_real.
Qed.

(** ** Resizing the window *)

Lemma update_layout_real (self : Gui R) log :
  let win := laid_out (window self) in
  let p := pendulum (sim self) in
  _update_layout self log
  = Ok (set_sim (set_window self win)
          (set_scale (set_origin (sim self) (pivot_for win))
             (scale_for win (L1 p + L2 p))),
        log).
Proof.
  intros win p. unfold _update_layout.
  cbn [of_int int_of_float R_PyFloat R_PyNumber].
  rewrite (bind_lift_Ok _ _ _ _ eq_refl), (bind_lift_Ok _ _ _ _ eq_refl).
  rewrite (bind_Ok _ _ _ _ _ (compute_scale_real _ log)).
  rewrite flit_real_018. reflexivity.
Qed.

Lemma scale_for_positive (win : Window) (total : R) :
  (140 < render_width win)%Z -> (260 < height win)%Z ->
  0 < scale_for win total.
Proof.
  intros Hw Hh. unfold scale_for.
  pose proof (Rmax_r total 0.1).
  apply Rdiv_lt_0_compat; [|lra].
  assert (0 < IZR (Z.min (render_width win - 140) (height win - 260)))
    by (apply IZR_lt; lia).
  lra.
Qed.

Lemma on_resize_real (self : Gui R) (w h : Z) log :
  let win := window self in
  let width' := Z.max w (panel_width win + 480) in
  let win' :=
    laid_out {| width := width'; height := Z.max h 640;
                panel_width := panel_width win;
                render_width := render_width win;
                panel_collapsed := (width' <? panel_width win + 520)%Z |} in
  exists self',
    _on_resize self w h log = Ok (self', log)
    /\ window self' = win'
    /\ origin (sim self') = pivot_for win'
    /\ (forall n, value (get_slider (sliders self') n)
                  = value (get_slider (sliders self) n))
    /\ (forall n, rect_x (get_slider (sliders self') n)
                  = (render_width win' + 24)%Z
                  /\ rect_w (get_slider (sliders self') n)
                     = (panel_width win - 48)%Z)
    /\ slider_params (sliders self) (pendulum (sim self))
       = set_initial_energy (pendulum (sim self'))
           (_initial_energy (pendulum (sim self)))
    /\ scale (sim self')
       = scale_for win' (value (length1_slider (sliders self))
                         + value (length2_slider (sliders self)))
    /\ active_input_slider (entry self')
       = match active_input_slider (entry self) with
         | Some (in_panel n) => Some (replaced (get_slider (sliders self) n))
         | other => other
         end.
Proof.
  intros win width' win'. unfold _on_resize.
  rewrite (bind_Ok _ _ _ _ _ (update_layout_real _ log)).
  rewrite sync_real.
  eexists. split; [reflexivity|].
  cbn [sim window sliders entry set_sim set_window set_sliders set_entry
       set_default_damping _build_controls _auto_collapse
       origin scale pendulum set_scale set_origin width height panel_width
       render_width panel_collapsed active_input_slider].
  split; [reflexivity|]. split; [reflexivity|].
  split; [intros []; reflexivity|].
  split; [intros []; split; reflexivity|].
  split; [reflexivity|]. split; [reflexivity|]. reflexivity.
Qed.

(** X17. [_on_resize] never fails and always leaves a usable window:
    the width is at least the panel's plus 480 and the height at least
    640, the panel is collapsed exactly when the width is below the
    panel's plus 520, the render area is at least 480 wide, the pivot
    is horizontally centred in it and at least 140 pixels down, and
    the scale is positive.  The sliders keep their values and are
    placed inside the panel's columns; angles and velocities are
    untouched. *)
Theorem resize_keeps_the_window_usable
    (self : Gui R) (w h : Z) (log : list (call R)) :
  (0 <= panel_width (window self))%Z ->
  exists self',
    let win := window self' in
    _on_resize self w h log = Ok (self', log)
    /\ width win = Z.max w (panel_width (window self) + 480)
    /\ height win = Z.max h 640
    /\ panel_width win = panel_width (window self)
    /\ panel_collapsed win = (width win <? panel_width win + 520)%Z
    /\ render_width win
       = (if panel_collapsed win then width win
          else width win - panel_width win)%Z
    /\ (480 <= render_width win)%Z
    /\ fst (origin (sim self')) = (render_width win / 2)%Z
    /\ (140 <= snd (origin (sim self')))%Z
    /\ 0 < scale (sim self')
    /\ (forall n,
          value (get_slider (sliders self') n)
          = value (get_slider (sliders self) n)
          /\ (render_width win < rect_x (get_slider (sliders self') n))%Z
          /\ (rect_x (get_slider (sliders self') n)
              + rect_w (get_slider (sliders self') n)
              < render_width win + panel_width win)%Z)
    /\ state (pendulum (sim self')) = state (pendulum (sim self)).
Proof.
  intros Hpw.
  destruct (on_resize_real self w h log)
    as (self' & E & Ewin & Eorigin & Evalue & Erect & Eparams & Escale & _).
  exists self'. cbv zeta. split; [exact E|].
  rewrite Eorigin, Escale, Ewin.
  cbn [laid_out pivot_for width height panel_width render_width
       panel_collapsed fst snd].
  set (width' := Z.max w (panel_width (window self) + 480)).
  assert (Hrw : (480 <= width' - (if (width' <? panel_width (window self) + 520)%Z
                                  then 0 else panel_width (window self)))%Z).
  { destruct (Z.ltb_spec width' (panel_width (window self) + 520)); lia. }
  split; [reflexivity|]. split; [reflexivity|]. split; [reflexivity|].
  split; [reflexivity|]. split.
  { destruct (width' <? panel_width (window self) + 520)%Z; lia. }
  split; [exact Hrw|]. split; [reflexivity|]. split; [lia|]. split.
  { apply scale_for_positive;
      cbn [laid_out width height panel_width render_width panel_collapsed]; lia. }
  split.
  { intros n. destruct (Erect n) as [-> ->]. rewrite Evalue.
    cbn [laid_out width height panel_width render_width panel_collapsed].
    split; [reflexivity|]. fold width'.
    destruct (width' <? panel_width (window self) + 520)%Z; lia. }
  apply (f_equal state) in Eparams. symmetry. exact Eparams.
Qed.

Lemma resize_keeps_the_window_usable_witness :
  exists self',
    _on_resize default_gui 500 300 [] = Ok (self', [])
    /\ width (window self') = 820%Z
    /\ height (window self') = 640%Z
    /\ 0 < scale (sim self').
Proof.
  destruct (resize_keeps_the_window_usable default_gui 500 300 [])
    as (self' & E & Ew & Eh & _ & _ & _ & _ & _ & _ & Hs & _).
  - cbn. lia.
  - exists self'. split; [exact E|]. split; [exact Ew|].
    split; [exact Eh | exact Hs].
Defined.

Lemma Rtruncate_at_least (n : Z) (x : R) :
  (0 <= n)%Z -> IZR n <= x -> (n <= Rtruncate x)%Z.
Proof.
  intros Hn Hx. unfold Rtruncate.
  assert (0 <= IZR n) by (apply IZR_le; exact Hn).
  destruct (Rle_dec 0 x); [|lra].
  unfold Int_part. destruct (archimed x) as [Hup _].
  assert (n < up x)%Z by (apply lt_IZR; lra). lia.
Qed.

Lemma Rtruncate_between (n : Z) (x : R) :
  (0 <= n)%Z -> IZR n <= x < IZR n + 1 -> Rtruncate x = n.
Proof.
  intros Hn [Hlo Hhi]. unfold Rtruncate.
  assert (0 <= IZR n) by (apply IZR_le; exact Hn).
  destruct (Rle_dec 0 x); [|lra].
  symmetry. apply Int_part_spec. lra.
Qed.

(** X18. [_initial_size] never fails, whatever the display reports:
    with the panel 340 wide, the window it chooses is between 820 by
    640 and 1280 by 840, and it is 1280 by 840 on every display of
    1423 by 934 pixels or more. *)
Theorem initial_size_is_bounded
    (self : Gui R) (current_w current_h : Z) (log : list (call R)) :
  panel_width (window self) = 340%Z ->
  exists w h,
    _initial_size self current_w current_h log = Ok ((w, h), log)
    /\ (820 <= w <= 1280)%Z /\ (640 <= h <= 840)%Z
    /\ ((1423 <= current_w)%Z -> w = 1280%Z)
    /\ ((934 <= current_h)%Z -> h = 840%Z).
Proof.
  intros Hpw. unfold _initial_size.
  cbn [of_int int_of_float R_PyFloat R_PyNumber].
  do 4 rewrite (bind_lift_Ok _ _ _ _ eq_refl).
  rewrite Hpw, flit_real_09. cbn [fmul R_PyFloat].
  eexists _, _. split; [reflexivity|].
  split; [lia|]. split; [lia|]. split.
  - intros Hw.
    assert (1280 <= Rtruncate (IZR current_w * 0.9))%Z; [|lia].
    apply Rtruncate_at_least; [lia|].
    apply IZR_le in Hw. lra.
  - intros Hh.
    assert (840 <= Rtruncate (IZR current_h * 0.9))%Z; [|lia].
    apply Rtruncate_at_least; [lia|].
    apply IZR_le in Hh. lra.
Qed.

Lemma initial_size_is_bounded_witness :
  _initial_size default_gui 1920 1080 [] = Ok ((1280, 840)%Z, []).
Proof.
  destruct (initial_size_is_bounded default_gui 1920 1080 [])
    as (w & h & E & _ & _ & Hw & Hh).
  - reflexivity.
  - rewrite E, Hw, Hh by lia. reflexivity.
Defined.

Lemma toggle_panel_real (self : Gui R) log :
  let collapsed := negb (panel_collapsed (window self)) in
  let win :=
    laid_out {| width := width (window self); height := height (window self);
                panel_width := panel_width (window self);
                render_width := render_width (window self);
                panel_collapsed := collapsed |} in
  let p := pendulum (sim self) in
  _toggle_panel self log
  = Ok (set_sim
          (set_window
             (if collapsed
              then set_entry self
                     {| active_input_slider := None;
                        input_buffer := input_buffer (entry self);
                        input_cursor := 0 |}
              else self)
             win)
          (set_scale (set_origin (sim self) (pivot_for win))
             (scale_for win (L1 p + L2 p))),
        log).
Proof.
  intros collapsed win p. unfold _toggle_panel. rewrite update_layout_real.
  fold collapsed. destruct collapsed; reflexivity.
Qed.

(** X19. Toggling the panel gives its columns to the render area or
    takes them back, and moves the pivot and the scale with it; on a
    window that is laid out, toggling twice restores window, pivot and
    scale exactly, and nothing of the simulation or of the sliders has
    changed.  A text entry in progress does not survive: one of the
    two toggles collapses the panel and closes it. *)
Theorem toggling_the_panel_twice_restores_the_layout
    (self : Gui R) (log : list (call R)) :
  _update_layout self log = Ok (self, log) ->
  exists self1 self2,
    _toggle_panel self log = Ok (self1, log)
    /\ _toggle_panel self1 log = Ok (self2, log)
    /\ panel_collapsed (window self1) = negb (panel_collapsed (window self))
    /\ render_width (window self1)
       = (if panel_collapsed (window self)
          then render_width (window self) - panel_width (window self)
          else render_width (window self) + panel_width (window self))%Z
    /\ window self2 = window self
    /\ sim self2 = sim self
    /\ sliders self2 = sliders self
    /\ active_input_slider (entry self2) = None
    /\ input_cursor (entry self2) = 0%Z
    /\ input_buffer (entry self2) = input_buffer (entry self).
Proof.
  rewrite update_layout_real. intros E.
  injection E as E.
  assert (Ewin : laid_out (window self) = window self)
    by (apply (f_equal window) in E; exact E).
  assert (Esim : set_scale (set_origin (sim self) (pivot_for (laid_out (window self))))
                   (scale_for (laid_out (window self))
                      (L1 (pendulum (sim self)) + L2 (pendulum (sim self))))
                 = sim self)
    by (apply (f_equal sim) in E; exact E).
  rewrite Ewin in Esim.
  eexists _, _. split; [apply toggle_panel_real|].
  split; [apply toggle_panel_real|].
  clear E.
  destruct self as [s win sl en dd se sa av de dm].
  destruct win as [wd ht pw rw pc].
  unfold laid_out in *.
  cbn [sim window sliders entry set_sim set_window set_entry
       width height panel_width render_width panel_collapsed pendulum] in *.
  injection Ewin as Erw.
  assert (Eback : {| width := wd; height := ht; panel_width := pw;
                     render_width := wd - (if negb (negb pc) then 0 else pw);
                     panel_collapsed := negb (negb pc) |}
                  = {| width := wd; height := ht; panel_width := pw;
                       render_width := rw; panel_collapsed := pc |}).
  { rewrite Bool.negb_involutive, Erw. reflexivity. }
  split; [reflexivity|]. split.
  { rewrite <- Erw. destruct pc; cbn [negb]; lia. }
  split.
  { destruct pc; cbn [negb] in *; exact Eback. }
  split.
  { transitivity
      (set_scale
         (set_origin s
            (pivot_for {| width := wd; height := ht; panel_width := pw;
                          render_width := rw; panel_collapsed := pc |}))
         (scale_for {| width := wd; height := ht; panel_width := pw;
                       render_width := rw; panel_collapsed := pc |}
            (L1 (pendulum s) + L2 (pendulum s)))); [|exact Esim].
    rewrite <- Eback. destruct pc; reflexivity. }
  destruct pc; cbn [negb]; repeat split; reflexivity.
Qed.

Lemma default_gui_is_laid_out log :
  _update_layout default_gui log = Ok (default_gui, log).
Proof.
  rewrite update_layout_real. f_equal. f_equal.
  assert (Ep : pivot_for (laid_out (window default_gui)) = (470, 151)%Z).
  { unfold pivot_for. cbn [laid_out window default_gui width height panel_width
                           render_width panel_collapsed].
    rewrite (Rtruncate_between 151) by (try lia; lra). reflexivity. }
  assert (Es : scale_for (laid_out (window default_gui))
                 (L1 (pendulum (sim default_gui)) + L2 (pendulum (sim default_gui)))
               = 217.5).
  { unfold scale_for. cbn [laid_out window default_gui width height panel_width
                           render_width panel_collapsed sim pendulum
                           default_pendulum L1 L2].
    rewrite Rmax_left by lra.
    replace (Z.min (1280 - (if false then 0 else 340) - 140) (840 - 260))
      with 580%Z by reflexivity.
    lra. }
  rewrite Ep, Es. reflexivity.
Qed.

Lemma toggling_the_panel_twice_restores_the_layout_witness :
  exists self1 self2,
    _toggle_panel default_gui [] = Ok (self1, [])
    /\ _toggle_panel self1 [] = Ok (self2, [])
    /\ render_width (window self1) = 1280%Z
    /\ window self2 = window default_gui
    /\ sim self2 = sim default_gui.
Proof.
  destruct (toggling_the_panel_twice_restores_the_layout default_gui []
              (default_gui_is_laid_out []))
    as (self1 & self2 & E1 & E2 & _ & Erw & Ewin & Esim & _).
  exists self1, self2. now repeat split.
Defined.

(** ** The keyboard *)

Lemma flit_real_thirty : flit 30 = 30.
Proof. apply (flit_real_Z 30). Qed.

Lemma with_gravity_same {F} (self : Gui F) :
  with_gravity self (g (pendulum (sim self))) = self.
Proof. destruct self as [[[] ? ? ? ? ? ? ?] ? ? ? ? ? ? ? ? ?]. reflexivity. Qed.

Lemma with_gravity_twice {F} (self : Gui F) (a b : F) :
  with_gravity (with_gravity self a) b = with_gravity self b.
Proof. reflexivity. Qed.

Lemma lower_gravity_real (u1 u2 : R) (self : Gui R) (k : key) log :
  In k [K_MINUS; K_KP_MINUS] ->
  _handle_key u1 u2 self k log
  = Ok (with_gravity self (Rmax 0.5 (g (pendulum (sim self)) - 0.5)), log).
Proof.
  intros [<- | [<- | []]]; unfold _handle_key;
    rewrite andb_false_r, py_max_real, flit_real_half;
    cbn [fsub R_PyFloat];
    replace (1 / 2) with 0.5 by lra; reflexivity.
Qed.

Lemma raise_gravity_real (u1 u2 : R) (self : Gui R) (k : key) log :
  In k [K_EQUALS; K_PLUS; K_KP_PLUS] ->
  _handle_key u1 u2 self k log
  = Ok (with_gravity self (Rmin 30 (g (pendulum (sim self)) + 0.5)), log).
Proof.
  intros [<- | [<- | [<- | []]]]; unfold _handle_key;
    rewrite andb_false_r, py_min_real, flit_real_half, flit_real_thirty;
    cbn [fadd R_PyFloat];
    replace (1 / 2) with 0.5 by lra; reflexivity.
Qed.

(** X20. The gravity keys change nothing but [g], in steps of [0.5]
    and never out of [[0.5, 30]]: the minus keys leave it at
    [max(0.5, g - 0.5)], the plus keys at [min(30, g + 0.5)], whether
    the simulation is paused or the About box is open.  Where no
    clamping occurs the two undo each other exactly. *)
Theorem gravity_keys_are_clamped_and_undo_each_other
    (u1 u2 : R) (self : Gui R) (up down : key) (log : list (call R)) :
  In up [K_EQUALS; K_PLUS; K_KP_PLUS] -> In down [K_MINUS; K_KP_MINUS] ->
  let g0 := g (pendulum (sim self)) in
  exists raised lowered,
    _handle_key u1 u2 self up log = Ok (raised, log)
    /\ _handle_key u1 u2 self down log = Ok (lowered, log)
    /\ raised = with_gravity self (Rmin 30 (g0 + 0.5))
    /\ lowered = with_gravity self (Rmax 0.5 (g0 - 0.5))
    /\ g (pendulum (sim raised)) <= 30
    /\ 0.5 <= g (pendulum (sim lowered))
    /\ (0.5 <= g0 <= 30 ->
        0.5 <= g (pendulum (sim raised))
        /\ g (pendulum (sim lowered)) <= 30)
    /\ (0.5 <= g0 <= 29.5 ->
        _handle_key u1 u2 raised down log = Ok (self, log))
    /\ (1 <= g0 <= 30 ->
        _handle_key u1 u2 lowered up log = Ok (self, log)).
Proof.
  intros Hup Hdown g0.
  eexists _, _.
  split; [apply (raise_gravity_real u1 u2 self up log Hup)|].
  split; [apply (lower_gravity_real u1 u2 self down log Hdown)|].
  fold g0. split; [reflexivity|]. split; [reflexivity|].
  cbn [with_gravity sim set_sim pendulum set_pendulum set_params g].
  split; [apply Rmin_l|]. split; [apply Rmax_l|].
  split.
  { intros [Hlo Hhi]. unfold Rmin, Rmax.
    destruct (Rle_dec 30 (g0 + 0.5)); destruct (Rle_dec 0.5 (g0 - 0.5)); lra. }
  split.
  - intros [Hlo Hhi].
    rewrite (lower_gravity_real _ _ _ down log Hdown).
    rewrite with_gravity_twice.
    cbn [with_gravity sim set_sim pendulum set_pendulum set_params g].
    rewrite Rmin_right by lra. rewrite Rmax_right by lra.
    replace (g0 + 0.5 - 0.5) with g0 by ring.
    unfold g0. now rewrite with_gravity_same.
  - intros [Hlo Hhi].
    rewrite (raise_gravity_real _ _ _ up log Hup).
    rewrite with_gravity_twice.
    cbn [with_gravity sim set_sim pendulum set_pendulum set_params g].
    rewrite Rmax_right by lra. rewrite Rmin_right by lra.
    replace (g0 - 0.5 + 0.5) with g0 by ring.
    unfold g0. now rewrite with_gravity_same.
Qed.

Lemma gravity_keys_are_clamped_and_undo_each_other_witness :
  exists raised,
    _handle_key 0 0 default_gui K_PLUS [] = Ok (raised, [])
    /\ _handle_key 0 0 raised K_MINUS [] = Ok (default_gui, []).
Proof.
  destruct (gravity_keys_are_clamped_and_undo_each_other
              0 0 default_gui K_PLUS K_MINUS [])
    as (raised & lowered & E1 & _ & _ & _ & _ & _ & _ & Hback & _).
  - cbn. tauto.
  - cbn. tauto.
  - exists raised. split; [exact E1|]. apply Hback. cbn. lra.
Defined.

Lemma time_scale_options_real :
  time_scale_options = [0.25; 0.5; 1; 1.5; 2].
Proof.
  unfold time_scale_options.
  rewrite flit_real_half, flit_real_one, flit_real_two.
  repeat f_equal; real_literal.
Qed.

Lemma with_time_scale_same {F} (self : Gui F) :
  with_time_scale self (time_scale (sim self)) = self.
Proof. destruct self as [[] ? ? ? ? ? ? ? ? ?]. reflexivity. Qed.

Lemma key_s_real (u1 u2 : R) (self : Gui R) log :
  let ts := time_scale (sim self) in
  _handle_key u1 u2 self K_s log
  = Ok (with_time_scale self
          (if Req_EM_T 0.25 ts then 0.5
           else if Req_EM_T 0.5 ts then 1
           else if Req_EM_T 1 ts then 1.5
           else if Req_EM_T 1.5 ts then 2
           else if Req_EM_T 2 ts then 0.25
           else 1.5),
        log).
Proof.
  intros ts. unfold _handle_key. rewrite andb_false_r.
  rewrite time_scale_options_real. fold ts.
  cbn [existsb py_index]. rewrite !feqb_real.
  destruct (Req_EM_T 0.25 ts); [reflexivity|].
  destruct (Req_EM_T 0.5 ts); [reflexivity|].
  destruct (Req_EM_T 1 ts); [reflexivity|].
  destruct (Req_EM_T 1.5 ts); [reflexivity|].
  destruct (Req_EM_T 2 ts); reflexivity.
Qed.

(** X21. Key [S] changes nothing but the time scale and never fails: it
    moves the time scale on to the next of [0.25, 0.5, 1, 1.5, 2],
    from the last back to the first, and from a time scale that is
    none of the five (as the slider can set it) to [1.5]. *)
Theorem key_s_cycles_the_time_scale
    (u1 u2 : R) (self : Gui R) (log : list (call R)) :
  let options := [0.25; 0.5; 1; 1.5; 2] in
  exists ts',
    _handle_key u1 u2 self K_s log = Ok (with_time_scale self ts', log)
    /\ In ts' options
    /\ (forall i : nat, (i < 5)%nat ->
          time_scale (sim self) = nth i options 0 ->
          ts' = nth ((i + 1) mod 5) options 0)
    /\ (~ In (time_scale (sim self)) options -> ts' = 1.5).
Proof.
  intros options. eexists. split; [apply key_s_real|].
  set (ts := time_scale (sim self)).
  destruct (Req_EM_T 0.25 ts) as [E|N1].
  { split; [cbn; tauto|]. split.
    - intros i Hi Ei. rewrite <- E in Ei.
      destruct i as [|[|[|[|[|]]]]]; cbn in Ei |- *; try lra; lia.
    - intros Hn. exfalso. apply Hn. cbn. tauto. }
  destruct (Req_EM_T 0.5 ts) as [E|N2].
  { split; [cbn; tauto|]. split.
    - intros i Hi Ei. rewrite <- E in Ei.
      destruct i as [|[|[|[|[|]]]]]; cbn in Ei |- *; try lra; lia.
    - intros Hn. exfalso. apply Hn. cbn. tauto. }
  destruct (Req_EM_T 1 ts) as [E|N3].
  { split; [cbn; tauto|]. split.
    - intros i Hi Ei. rewrite <- E in Ei.
      destruct i as [|[|[|[|[|]]]]]; cbn in Ei |- *; try lra; lia.
    - intros Hn. exfalso. apply Hn. cbn. tauto. }
  destruct (Req_EM_T 1.5 ts) as [E|N4].
  { split; [cbn; tauto|]. split.
    - intros i Hi Ei. rewrite <- E in Ei.
      destruct i as [|[|[|[|[|]]]]]; cbn in Ei |- *; try lra; lia.
    - intros Hn. exfalso. apply Hn. cbn. tauto. }
  destruct (Req_EM_T 2 ts) as [E|N5].
  { split; [cbn; tauto|]. split.
    - intros i Hi Ei. rewrite <- E in Ei.
      destruct i as [|[|[|[|[|]]]]]; cbn in Ei |- *; try lra; lia.
    - intros Hn. exfalso. apply Hn. cbn. tauto. }
  split; [cbn; tauto|]. split.
  - intros i Hi Ei. exfalso.
    destruct i as [|[|[|[|[|]]]]]; cbn in Ei; try lia; congruence.
  - reflexivity.
Qed.

Lemma with_damping_same {F} (self : Gui F) :
  with_damping self (damping (pendulum (sim self))) = self.
Proof. destruct self as [[[] ? ? ? ? ? ? ?] ? ? ? ? ? ? ? ? ?]. reflexivity. Qed.

Lemma key_d_real (u1 u2 : R) (self : Gui R) log :
  _handle_key u1 u2 self K_d log
  = Ok (with_damping self
          (if Rlt_dec 0 (damping (pendulum (sim self))) then 0
           else default_damping self),
        log).
Proof.
  unfold _handle_key. rewrite andb_false_r, flit_real_zero.
  cbn [fltb R_PyFloat]. unfold Rltb.
  destruct (Rlt_dec 0 (damping (pendulum (sim self)))); reflexivity.
Qed.

(** X22. Key [D] changes nothing but the damping: a positive damping
    is switched off, any other is replaced by [default_damping], the
    value the damping slider last gave.  When the damping is that
    positive value, pressing [D] twice restores the simulator
    exactly. *)
Theorem key_d_toggles_the_damping
    (u1 u2 : R) (self : Gui R) (log : list (call R)) :
  let d := damping (pendulum (sim self)) in
  exists d',
    _handle_key u1 u2 self K_d log = Ok (with_damping self d', log)
    /\ (0 < d -> d' = 0)
    /\ (d <= 0 -> d' = default_damping self)
    /\ (0 < d -> d = default_damping self ->
        _handle_key u1 u2 (with_damping self d') K_d log = Ok (self, log)).
Proof.
  intros d. eexists. split; [apply key_d_real|]. fold d.
  destruct (Rlt_dec 0 d) as [Hpos|Hneg].
  - split; [reflexivity|]. split; [lra|].
    intros _ Ed. rewrite key_d_real.
    cbn [with_damping sim set_sim pendulum set_pendulum set_params damping
         default_damping].
    destruct (Rlt_dec 0 0); [lra|].
    rewrite <- Ed. unfold d.
    change (with_damping (with_damping self 0) (damping (pendulum (sim self))))
      with (with_damping self (damping (pendulum (sim self)))).
    now rewrite with_damping_same.
  - split; [lra|]. split; [reflexivity|]. lra.
Qed.

(** ** Keys and sliders *)

Lemma py_getitem_in_range {A} (l : list A) (i : Z) :
  (0 <= i < len l)%Z -> exists x, py_getitem l i = Some x.
Proof.
  intros Hi. unfold py_getitem.
  replace (0 <=? i)%Z with true by (symmetry; apply Z.leb_le; lia).
  replace (i <? len l)%Z with true by (symmetry; apply Z.ltb_lt; lia).
  cbn [andb].
  destruct (nth_error l (Z.to_nat i)) as [x|] eqn:E; [now exists x|].
  apply nth_error_None in E. unfold len in Hi. lia.
Qed.

(** X23. What the keys [+], [-], [D] and [S] change does not outlast
    the next synchronisation with the sliders, whatever the float
    type: [_sync_from_sliders] after such a key gives exactly what it
    gives without the key, because gravity, damping and time scale are
    taken from sliders the keys do not move. *)
Theorem sync_discards_what_the_keys_changed {F} {num : PyFloat F}
    {ext : PyNumber F} (u1 u2 : F) (self : Gui F) (k : key)
    (log : list (call F)) :
  In k [K_MINUS; K_KP_MINUS; K_EQUALS; K_PLUS; K_KP_PLUS; K_d; K_s] ->
  bind (_handle_key u1 u2 self k) _sync_from_sliders log
  = _sync_from_sliders self log.
Proof.
  intros Hk.
  assert (Hs : exists ts,
             _handle_key u1 u2 self K_s log = Ok (with_time_scale self ts, log)).
  { unfold _handle_key. rewrite andb_false_r.
    match goal with
    | |- context [py_getitem ?l ?i] =>
        destruct (py_getitem_in_range l i) as [ts ->]
    end.
    - apply Z.mod_pos_bound. reflexivity.
    - now exists ts. }
  destruct Hs as [ts Hs].
  destruct Hk as [<- | [<- | [<- | [<- | [<- | [<- | [<- | []]]]]]]];
    try (rewrite (bind_Ok _ _ _ _ _ Hs); reflexivity);
    unfold _handle_key; rewrite andb_false_r; reflexivity.
Qed.

Lemma sync_discards_what_the_keys_changed_witness :
  bind (_handle_key 0 0 default_gui K_PLUS) _sync_from_sliders []
  = _sync_from_sliders default_gui [].
Proof.
  apply (sync_discards_what_the_keys_changed 0 0 default_gui K_PLUS []).
  cbn. tauto.
Defined.

(** ** Reset and Randomize *)

Lemma reset_real (self : DoublePendulum R) (a b : R) log :
  let p := set_state self a b 0 0 in
  reset self (Some a) (Some b) log
  = Ok (set_initial_energy p (Some (total_energy p)), log).
Proof.
  intros p. unfold reset. unfold bind at 1. unfold ret at 1.
  unfold bind at 1. unfold ret at 1.
  rewrite flit_real_zero. fold p.
  rewrite (bind_Ok _ _ _ _ _ (energy_is_total_energy p log)). reflexivity.
Qed.

Lemma reset_from_sliders_real (self : Gui R) (a b : R) log :
  let p := set_state (slider_params (sliders self) (pendulum (sim self))) a b 0 0 in
  _reset_from_sliders self (Some a) (Some b) log
  = Ok (set_default_damping
          (set_sim self
             {| pendulum := set_initial_energy p (Some (total_energy p));
                trail := fresh_trail (end_mass p) false;
                paused := paused (sim self);
                show_trail := show_trail (sim self);
                time_scale := value (time_scale_slider (sliders self));
                sim_time := 0;
                origin := origin (sim self);
                scale := scale_for (window self) (L1 p + L2 p) |})
          (value (damping_slider (sliders self))),
        log).
Proof.
  intros p. unfold _reset_from_sliders.
  rewrite (bind_Ok _ _ _ _ _ (sync_real self log)).
  rewrite (bind_Ok _ _ _ _ _ (reset_real _ a b log)).
  rewrite (bind_Ok _ _ _ _ _ (energy_is_total_energy _ log)).
  rewrite (bind_Ok _ _ _ _ _ (reset_trail_real _ log)).
  rewrite flit_real_zero. reflexivity.
Qed.

Lemma default_pose :
  total_energy (set_state (set_params default_pendulum 1 1 1 1 9.81 0.01)
                  (PI / 2) (PI / 2) 0 0) = 0
  /\ end_mass default_pendulum = (2, 0).
Proof.
  unfold total_energy, end_mass, kinetic_energy, potential_energy.
  cbn [set_state set_params default_pendulum m1 m2 L1 L2 g damping
       theta1 theta2 omega1 omega2 snd].
  rewrite cos_PI2, sin_PI2. split; [ring|]. f_equal; ring.
Qed.

Lemma flit_real_981 : flit 9.81 = 9.81.
Proof. real_literal. Qed.

Lemma flit_real_hundredth : flit 0.01 = 0.01.
Proof. real_literal. Qed.

Lemma reset_to_defaults_real (self : Gui R) log :
  _reset_to_defaults self log = Ok (defaulted self, log).
Proof.
  unfold _reset_to_defaults.
  rewrite flit_real_one, flit_real_981, flit_real_hundredth, flit_real_two,
    flit_real_zero.
  cbn [m_pi fdiv R_PyFloat].
  rewrite (bind_lift_Ok _ _ _ (PI / 2)) by (apply Rdiv_py_nonzero; lra).
  rewrite (bind_lift_Ok _ _ _ (PI / 2)) by (apply Rdiv_py_nonzero; lra).
  rewrite (bind_Ok _ _ _ _ _ (reset_from_sliders_real _ (PI / 2) (PI / 2) log)).
  destruct default_pose as [Ee Em].
  set (q := set_state (slider_params _ _) (PI / 2) (PI / 2) 0 0).
  set (q0 := set_state (set_params default_pendulum 1 1 1 1 9.81 0.01)
               (PI / 2) (PI / 2) 0 0) in *.
  change (total_energy q) with (total_energy q0).
  change (end_mass q) with (end_mass default_pendulum).
  change (set_initial_energy q (Some (total_energy q0)))
    with (set_initial_energy q0 (Some (total_energy q0))).
  change (L1 q + L2 q) with (1 + 1).
  rewrite Ee, Em. replace (1 + 1) with 2 by ring.
  change (set_initial_energy q0 (Some 0)) with default_pendulum.
  destruct self as [s win sl en dd se sa av de dm].
  reflexivity.
Qed.

(** X24. "Reset" (the button, or key [R]) never fails and forgets the
    run altogether: whatever the state, the pendulum is the start-up
    one (unit masses and lengths, [g = 9.81], damping [0.01], both
    links horizontal, at rest, energy reference [0]), the trail is the
    single sample [(2, 0)], the clock is at zero, the time scale is
    one and the simulation is paused; the sliders show these values
    and keep their ranges.  The window, the pivot and the display
    options are left alone, and a second reset changes nothing. *)
Theorem reset_to_defaults_restores_the_start
    (u1 u2 : R) (self : Gui R) (log : list (call R)) :
  exists self',
    _reset_to_defaults self log = Ok (self', log)
    /\ _handle_key u1 u2 self K_r log = Ok (self', log)
    /\ pendulum (sim self') = default_pendulum
    /\ energy (pendulum (sim self')) log = Ok (0, log)
    /\ trail (sim self') = fresh_trail (2, 0) false
    /\ paused (sim self') = true
    /\ time_scale (sim self') = 1
    /\ sim_time (sim self') = 0
    /\ scale (sim self') = scale_for (window self) 2
    /\ default_damping self' = 0.01
    /\ (forall n,
          value (get_slider (sliders self') n)
          = value (get_slider default_sliders n)
          /\ set_value (get_slider (sliders self') n)
               (value (get_slider (sliders self) n))
             = get_slider (sliders self) n)
    /\ (window self', entry self', origin (sim self'), show_trail (sim self'),
        show_energy self', show_arrows self', about_visible self')
       = (window self, entry self, origin (sim self), show_trail (sim self),
          show_energy self, show_arrows self, about_visible self)
    /\ _reset_to_defaults self' log = Ok (self', log).
Proof.
  exists (defaulted self).
  split; [apply reset_to_defaults_real|].
  split.
  { unfold _handle_key. rewrite andb_false_r. apply reset_to_defaults_real. }
  split; [reflexivity|]. split.
  { rewrite energy_is_total_energy. destruct default_pose as [Ee _].
    change (total_energy (pendulum (sim (defaulted self))))
      with (total_energy
              (set_state (set_params default_pendulum 1 1 1 1 9.81 0.01)
                 (PI / 2) (PI / 2) 0 0)).
    now rewrite Ee. }
  do 6 (split; [reflexivity|]).
  split.
  { intros n. split; [destruct n; reflexivity|].
    destruct n; cbn [defaulted sliders set_default_damping set_sliders
                     get_slider map_sliders length1_slider length2_slider
                     mass1_slider mass2_slider gravity_slider damping_slider
                     time_scale_slider];
      match goal with |- set_value (set_value ?s _) _ = _ =>
        destruct s; reflexivity end. }
  split; [reflexivity|].
  rewrite reset_to_defaults_real. reflexivity.
Qed.

Lemma randomize_real (u : slider_name -> R) (self : Gui R) log :
  let sl :=
    map_sliders
      (fun n s => set_value s (min_value s + (max_value s - min_value s) * u n))
      (sliders self) in
  let p := pendulum (sim self) in
  let p' := set_state (slider_params sl p) (theta1 p) (theta2 p) 0 0 in
  _randomize_sliders_only u self log
  = Ok (set_sim
          (set_default_damping (set_sliders self sl) (value (damping_slider sl)))
          {| pendulum := set_initial_energy p' (Some (total_energy p'));
             trail := fresh_trail (end_mass p') false;
             paused := paused (sim self);
             show_trail := show_trail (sim self);
             time_scale := value (time_scale_slider sl);
             sim_time := sim_time (sim self);
             origin := origin (sim self);
             scale := scale_for (window self) (L1 p' + L2 p') |},
        log).
Proof.
  intros sl p p'. unfold _randomize_sliders_only.
  rewrite (bind_Ok _ _ _ _ _ (sync_real _ log)).
  rewrite flit_real_zero.
  rewrite (bind_Ok _ _ _ _ _ (energy_is_total_energy _ log)).
  rewrite (bind_Ok _ _ _ _ _ (reset_trail_real _ log)).
  reflexivity.
Qed.

Lemma uniform_in_range (lo hi u : R) :
  lo <= hi -> 0 <= u <= 1 -> lo <= lo + (hi - lo) * u <= hi.
Proof. intros H [H0 H1]. nra. Qed.

(** X25. "Randomize" keeps the pose and draws every parameter within
    its slider's range, provided [random.random()] returns values in
    [[0, 1]] and the ranges are in order; where the minimum of the
    ranges of lengths and masses is positive, as [_build_controls]
    makes them, the parameters drawn are valid ones.  The angles are
    kept, the velocities zeroed, the trail restarted at the end mass
    and the energy reference set to the new energy; [paused] and the
    clock are left to the caller. *)
Theorem randomize_draws_valid_parameters
    (u : slider_name -> R) (self : Gui R) (log : list (call R)) :
  (forall n, 0 <= u n <= 1) ->
  (forall n, min_value (get_slider (sliders self) n)
             <= max_value (get_slider (sliders self) n)) ->
  (forall n, In n [Length1; Length2; Mass1; Mass2] ->
             0 < min_value (get_slider (sliders self) n)) ->
  exists self',
    let p := pendulum (sim self) in
    let p' := pendulum (sim self') in
    _randomize_sliders_only u self log = Ok (self', log)
    /\ (forall n,
          let s := get_slider (sliders self) n in
          let s' := get_slider (sliders self') n in
          set_value s' (value s) = s
          /\ value s' = uniform (min_value s) (max_value s) (u n)
          /\ min_value s <= value s' <= max_value s)
    /\ p' = set_initial_energy
              (set_state (slider_params (sliders self') p)
                 (theta1 p) (theta2 p) 0 0)
              (Some (total_energy p'))
    /\ valid_params p'
    /\ time_scale (sim self') = value (time_scale_slider (sliders self'))
    /\ default_damping self' = value (damping_slider (sliders self'))
    /\ trail (sim self') = fresh_trail (end_mass p') false
    /\ (paused (sim self'), sim_time (sim self'))
       = (paused (sim self), sim_time (sim self)).
Proof.
  intros Hu Hrange Hpos.
  eexists. cbv zeta. split; [apply randomize_real|].
  cbn [sim sliders set_sim set_default_damping set_sliders pendulum trail
       paused sim_time time_scale default_damping].
  split.
  { intros n. split; [|split].
    - destruct n; cbn [get_slider map_sliders length1_slider length2_slider
                       mass1_slider mass2_slider gravity_slider damping_slider
                       time_scale_slider];
        match goal with |- set_value (set_value ?s _) _ = _ =>
          destruct s; reflexivity end.
    - destruct n; reflexivity.
    - specialize (Hu n). specialize (Hrange n).
      destruct n; apply uniform_in_range; assumption. }
  split; [reflexivity|]. split.
  { unfold valid_params.
    cbn [set_initial_energy set_state slider_params set_params m1 m2 L1 L2
         map_sliders value set_value length1_slider length2_slider
         mass1_slider mass2_slider].
    pose proof (Hpos Mass1) as Hm1. pose proof (Hpos Mass2) as Hm2.
    pose proof (Hpos Length1) as Hl1. pose proof (Hpos Length2) as Hl2.
    cbn [In get_slider] in Hm1, Hm2, Hl1, Hl2.
    pose proof (uniform_in_range _ _ _ (Hrange Mass1) (Hu Mass1)) as H1.
    pose proof (uniform_in_range _ _ _ (Hrange Mass2) (Hu Mass2)) as H2.
    pose proof (uniform_in_range _ _ _ (Hrange Length1) (Hu Length1)) as H3.
    pose proof (uniform_in_range _ _ _ (Hrange Length2) (Hu Length2)) as H4.
    cbn [get_slider] in H1, H2, H3, H4.
    assert (0 < min_value (mass1_slider (sliders self))) by (apply Hm1; tauto).
    assert (0 < min_value (mass2_slider (sliders self))) by (apply Hm2; tauto).
    assert (0 < min_value (length1_slider (sliders self))) by (apply Hl1; tauto).
    assert (0 < min_value (length2_slider (sliders self))) by (apply Hl2; tauto).
    repeat split; lra. }
  repeat split; reflexivity.
Qed.

Lemma randomize_draws_valid_parameters_witness :
  exists self',
    _randomize_sliders_only (fun _ => 0.5) default_gui [] = Ok (self', [])
    /\ valid_params (pendulum (sim self')).
Proof.
  destruct (randomize_draws_valid_parameters (fun _ => 0.5) default_gui [])
    as (self' & E & _ & _ & Hv & _).
  - intros _. lra.
  - intros []; cbn; lra.
  - intros n Hn. destruct n; cbn in Hn |- *; try lra;
      exfalso; intuition discriminate.
  - exists self'. split; [exact E | exact Hv].
Defined.

(** X26. Key [N] never fails and restarts the run from a random pose:
    with [random.random()] in [[0, 1)], each angle is drawn from
    [[-pi, pi)], both velocities are zero, the parameters are kept, the
    energy reference is the new energy, the clock is at zero, the
    trail is restarted at the end mass, and the simulation is set
    running.  A rewind in progress is not cleared. *)
Theorem key_n_restarts_from_a_random_pose
    (u1 u2 : R) (self : Gui R) (log : list (call R)) :
  0 <= u1 < 1 -> 0 <= u2 < 1 ->
  exists self',
    let p := pendulum (sim self) in
    let p' := pendulum (sim self') in
    _handle_key u1 u2 self K_n log = Ok (self', log)
    /\ theta1 p' = - PI + 2 * PI * u1
    /\ theta2 p' = - PI + 2 * PI * u2
    /\ - PI <= theta1 p' < PI /\ - PI <= theta2 p' < PI
    /\ omega1 p' = 0 /\ omega2 p' = 0
    /\ (m1 p', m2 p', L1 p', L2 p', g p', damping p')
       = (m1 p, m2 p, L1 p, L2 p, g p, damping p)
    /\ _initial_energy p' = Some (total_energy p')
    /\ paused (sim self') = false
    /\ sim_time (sim self') = 0
    /\ trail (sim self')
       = fresh_trail (end_mass p') (_rewind_in_progress (trail (sim self)))
    /\ set_sim self' (sim self) = self.
Proof.
  intros [Hu1 Hu1'] [Hu2 Hu2'].
  pose proof PI_RGT_0 as Hpi.
  eexists. cbv zeta. split.
  { unfold _handle_key. rewrite andb_false_r.
    unfold uniform. cbn [fneg fadd fsub fmul m_pi R_PyFloat].
    rewrite (bind_Ok _ _ _ _ _ (reset_real _ _ _ log)).
    rewrite flit_real_zero.
    rewrite (bind_Ok _ _ _ _ _ (reset_trail_real _ log)).
    reflexivity. }
  cbn [sim set_sim pendulum set_pendulum set_trail set_sim_time set_paused
       trail paused sim_time set_initial_energy set_state
       theta1 theta2 omega1 omega2 m1 m2 L1 L2 g damping _initial_energy].
  split; [ring|]. split; [ring|].
  split; [nra|]. split; [nra|].
  do 7 (split; [reflexivity|]).
  now destruct self.
Qed.

Lemma key_n_restarts_from_a_random_pose_witness :
  exists self',
    _handle_key 0.75 0.25 default_gui K_n [] = Ok (self', [])
    /\ theta1 (pendulum (sim self')) = PI / 2
    /\ theta2 (pendulum (sim self')) = - (PI / 2)
    /\ paused (sim self') = false.
Proof.
  destruct (key_n_restarts_from_a_random_pose 0.75 0.25 default_gui [])
    as (self' & E & E1 & E2 & _ & _ & _ & _ & _ & _ & Ep & _); [lra | lra |].
  exists self'. split; [exact E|].
  split; [rewrite E1; lra|]. split; [rewrite E2; lra | exact Ep].
Defined.

(** ** Text entry *)

Lemma commit_real (float_of_str : list Z -> option R) (self : Gui R) log :
  _commit_input_buffer float_of_str self log
  = match active_input_slider (entry self) with
    | None => Ok (self, log)
    | Some ref =>
        match float_of_str (input_buffer (entry self)) with
        | None =>
            Ok (set_entry self (closed_entry (entry self)
                                  (input_cursor (entry self))), log)
        | Some val =>
            _sync_from_sliders
              (set_entry
                 match ref with
                 | in_panel n =>
                     set_sliders self
                       (set_slider_value (sliders self) n
                          (committed_value (get_slider (sliders self) n) val))
                 | replaced _ => self
                 end
                 (closed_entry (entry self) 0))
              log
        end
    end.
Proof.
  unfold _commit_input_buffer.
  destruct (active_input_slider (entry self)) as [ref|]; [|reflexivity].
  destruct (float_of_str (input_buffer (entry self))) as [val|]; [|reflexivity].
  rewrite !py_max_real, !py_min_real.
  rewrite snap_real.
  destruct ref as [n|s]; reflexivity.
Qed.

Lemma sync_set_entry (self self' : Gui R) (e : TextEntry R) log :
  _sync_from_sliders self log = Ok (self', log) ->
  _sync_from_sliders (set_entry self e) log = Ok (set_entry self' e, log).
Proof.
  rewrite sync_real. intros [= <-]. rewrite sync_real. reflexivity.
Qed.

Lemma sync_returns (self : Gui R) log :
  exists self',
    _sync_from_sliders self log = Ok (self', log)
    /\ entry self' = entry self
    /\ sliders self' = sliders self
    /\ window self' = window self.
Proof. eexists. split; [apply sync_real|]. repeat split. Qed.

Lemma commit_returns (float_of_str : list Z -> option R) (self : Gui R) log :
  exists self',
    _commit_input_buffer float_of_str self log = Ok (self', log)
    /\ input_buffer (entry self') = input_buffer (entry self)
    /\ (input_cursor (entry self') = 0%Z
        \/ input_cursor (entry self') = input_cursor (entry self))
    /\ (active_input_slider (entry self) <> None ->
        active_input_slider (entry self') = None)
    /\ window self' = window self.
Proof.
  rewrite commit_real.
  destruct (active_input_slider (entry self)) as [ref|].
  2:{ exists self. split; [reflexivity|]. split; [reflexivity|].
      split; [now right|]. split; [congruence | reflexivity]. }
  destruct (float_of_str (input_buffer (entry self))) as [val|].
  2:{ eexists. split; [reflexivity|]. cbn [entry set_entry closed_entry
        input_buffer input_cursor active_input_slider window].
      split; [reflexivity|]. split; [now right|]. now split. }
  match goal with |- context [_sync_from_sliders ?x log] =>
    destruct (sync_returns x log) as (self' & E & Eentry & _ & Ewin) end.
  exists self'. split; [exact E|]. rewrite Eentry, Ewin.
  cbn [entry set_entry closed_entry input_buffer input_cursor
       active_input_slider window].
  split; [reflexivity|]. split; [now left|]. split; [reflexivity|].
  destruct ref; reflexivity.
Qed.

Lemma len_app {A} (a b : list A) : len (a ++ b) = (len a + len b)%Z.
Proof. unfold len. rewrite length_app. lia. Qed.

Lemma len_py_slice_to {A} (l : list A) (i : Z) :
  (0 <= i <= len l)%Z -> len (py_slice_to l i) = i.
Proof.
  intros Hi. unfold py_slice_to. rewrite slice_bound_in_range by exact Hi.
  unfold len in *. rewrite length_firstn. lia.
Qed.

Lemma len_py_slice_from {A} (l : list A) (i : Z) :
  (0 <= i <= len l)%Z -> len (py_slice_from l i) = (len l - i)%Z.
Proof.
  intros Hi. unfold py_slice_from. rewrite slice_bound_in_range by exact Hi.
  unfold len in *. rewrite length_skipn. lia.
Qed.

Lemma set_entry_same {F} (self : Gui F) : set_entry self (entry self) = self.
Proof. now destruct self. Qed.

Lemma str_nonempty (s : list Z) : negb (str_eqb s []) = true -> (1 <= len s)%Z.
Proof.
  destruct s as [|c s]; [discriminate|]. intros _. unfold len. cbn. lia.
Qed.

(** X27. While a slider's text is being edited every key press is
    consumed ([True] is returned), and the text cursor never leaves
    the text: from a cursor within the text, whatever the key, the
    cursor is again within the text.  Keys other than Return change
    nothing but the text entry; with no slider active nothing changes
    and the key is passed on ([False]). *)
Theorem text_input_keeps_the_cursor_in_the_text
    (float_of_str : list Z -> option R) (char_isdigit : Z -> bool)
    (self : Gui R) (k : key) (unicode : list Z) (log : list (call R)) :
  cursor_in_buffer (entry self) ->
  exists consumed self',
    _handle_text_input float_of_str char_isdigit self k unicode log
    = Ok ((consumed, self'), log)
    /\ cursor_in_buffer (entry self')
    /\ consumed
       = match active_input_slider (entry self) with
         | Some _ => true
         | None => false
         end
    /\ (consumed = false -> self' = self)
    /\ (k <> K_RETURN -> set_entry self' (entry self) = self)
    /\ window self' = window self.
Proof.
  unfold cursor_in_buffer. intros Hc.
  unfold _handle_text_input.
  destruct (active_input_slider (entry self)) as [ref|] eqn:Eactive.
  2:{ exists false, self. split; [reflexivity|]. split; [exact Hc|].
      split; [reflexivity|]. split; [reflexivity|].
      split; [intros _; apply set_entry_same | reflexivity]. }
  assert (Hedit : forall buffer cursor,
             (0 <= cursor <= len buffer)%Z ->
             exists consumed self',
               ret (true,
                    set_entry self
                      {| active_input_slider := Some ref;
                         input_buffer := buffer; input_cursor := cursor |})
                 log = Ok ((consumed, self'), log)
               /\ (0 <= input_cursor (entry self')
                   <= len (input_buffer (entry self')))%Z
               /\ consumed = true
               /\ (consumed = false -> self' = self)
               /\ (k <> K_RETURN -> set_entry self' (entry self) = self)
               /\ window self' = window self).
  { intros buffer cursor Hb. eexists _, _. split; [reflexivity|].
    split; [exact Hb|]. split; [reflexivity|]. split; [discriminate|].
    split; [|reflexivity].
    intros _. transitivity (set_entry self (entry self));
      [reflexivity | apply set_entry_same]. }
  assert (Hsame : exists consumed self',
             ret (true, self) log = Ok ((consumed, self'), log)
             /\ (0 <= input_cursor (entry self')
                 <= len (input_buffer (entry self')))%Z
             /\ consumed = true
             /\ (consumed = false -> self' = self)
             /\ (k <> K_RETURN -> set_entry self' (entry self) = self)
             /\ window self' = window self).
  { exists true, self. split; [reflexivity|]. split; [exact Hc|].
    split; [reflexivity|]. split; [reflexivity|].
    split; [intros _; apply set_entry_same | reflexivity]. }
  pose proof (len_nonneg (input_buffer (entry self))) as Hlen.
  assert (Hinsert :
            exists consumed self',
              (if negb (str_eqb unicode [])
                  && (str_isdigit char_isdigit unicode
                      || str_eqb unicode [46%Z] || str_eqb unicode [45%Z])
               then ret (true,
                         set_entry self
                           {| active_input_slider := Some ref;
                              input_buffer :=
                                py_slice_to (input_buffer (entry self))
                                  (input_cursor (entry self))
                                ++ unicode
                                ++ py_slice_from (input_buffer (entry self))
                                     (input_cursor (entry self));
                              input_cursor := input_cursor (entry self) + 1 |})
               else ret (true, self)) log = Ok ((consumed, self'), log)
              /\ (0 <= input_cursor (entry self')
                  <= len (input_buffer (entry self')))%Z
              /\ consumed = true
              /\ (consumed = false -> self' = self)
              /\ (k <> K_RETURN -> set_entry self' (entry self) = self)
              /\ window self' = window self).
  { destruct (negb (str_eqb unicode [])) eqn:Hne; [|exact Hsame].
    apply str_nonempty in Hne.
    destruct (_ || _ || _); [|exact Hsame].
    apply Hedit.
    rewrite !len_app, len_py_slice_to, len_py_slice_from by exact Hc. lia. }
  destruct k; try exact Hinsert.
  - (* Escape *)
    eexists _, _. split; [reflexivity|].
    cbn [entry set_entry input_cursor input_buffer window].
    split; [lia|]. split; [reflexivity|]. split; [discriminate|].
    split; [|reflexivity].
    intros _. transitivity (set_entry self (entry self));
      [reflexivity | apply set_entry_same].
  - (* Return *)
    destruct (commit_returns float_of_str self log)
      as (self' & E & Eb & Ec & _ & Ew).
    exists true, self'. split; [rewrite (bind_Ok _ _ _ _ _ E); reflexivity|].
    split; [rewrite Eb; destruct Ec as [-> | ->]; lia|].
    split; [reflexivity|]. split; [discriminate|].
    split; [congruence | exact Ew].
  - (* Left *) apply Hedit. lia.
  - (* Right *) apply Hedit. lia.
  - (* Home *) apply Hedit. lia.
  - (* End *) apply Hedit. lia.
  - (* Backspace *)
    destruct (Z.ltb_spec 0 (input_cursor (entry self))); [|exact Hsame].
    apply Hedit.
    rewrite len_app, len_py_slice_to, len_py_slice_from by lia. lia.
  - (* Delete *)
    destruct (Z.ltb_spec (input_cursor (entry self))
                (len (input_buffer (entry self)))); [|exact Hsame].
    apply Hedit.
    rewrite len_app, len_py_slice_to, len_py_slice_from by lia. lia.
Qed.

Lemma text_input_keeps_the_cursor_in_the_text_witness :
  exists self',
    _handle_text_input no_float ascii_isdigit editing_gui K_LEFT [] []
    = Ok ((true, self'), [])
    /\ cursor_in_buffer (entry self').
Proof.
  destruct (text_input_keeps_the_cursor_in_the_text
              no_float ascii_isdigit editing_gui K_LEFT [] [])
    as (consumed & self' & E & Hc & -> & _).
  - unfold cursor_in_buffer. cbn. lia.
  - exists self'. split; [exact E | exact Hc].
Defined.

Lemma slices_rejoin {A} (l : list A) (i : Z) :
  py_slice_to l i ++ py_slice_from l i = l.
Proof. unfold py_slice_to, py_slice_from. apply firstn_skipn. Qed.

Lemma slices_around_an_insertion {A} (l u : list A) (i : Z) :
  (0 <= i <= len l)%Z ->
  let typed := py_slice_to l i ++ u ++ py_slice_from l i in
  py_slice_to typed i = py_slice_to l i
  /\ py_slice_from typed (i + len u) = py_slice_from l i.
Proof.
  intros Hi typed.
  assert (Hlen : len typed = (len l + len u)%Z).
  { unfold typed. rewrite !len_app, len_py_slice_to, len_py_slice_from by exact Hi.
    lia. }
  pose proof (len_nonneg u) as Hu.
  assert (Ea : length (py_slice_to l i) = Z.to_nat i).
  { pose proof (len_py_slice_to l i Hi) as E. unfold len in E. lia. }
  unfold py_slice_to at 1. unfold py_slice_from at 1.
  rewrite Hlen, !slice_bound_in_range by lia.
  unfold typed. split.
  - rewrite firstn_app, Ea, Nat.sub_diag, firstn_O, app_nil_r.
    rewrite <- Ea. apply firstn_all.
  - rewrite app_assoc, skipn_app.
    replace (Z.to_nat (i + len u)) with (length (py_slice_to l i ++ u))
      by (rewrite length_app, Ea; unfold len; lia).
    rewrite skipn_all, Nat.sub_diag. reflexivity.
Qed.

(** X28. Typing a character and pressing Backspace is a round trip,
    whatever the float type: with a slider's text being edited and the
    cursor within the text, a digit, ["."] or ["-"] is inserted at the
    cursor, which moves past it, and Backspace then gives back the
    text, the cursor and the whole simulator as they were. *)
Theorem typing_then_backspace_is_a_round_trip {F} {num : PyFloat F}
    {ext : PyNumber F} (float_of_str : list Z -> option F)
    (char_isdigit : Z -> bool) (self : Gui F) (k : key) (c : Z)
    (unicode : list Z) (log : list (call F)) :
  active_input_slider (entry self) <> None ->
  cursor_in_buffer (entry self) ->
  ~ In k [K_RETURN; K_ESCAPE; K_LEFT; K_RIGHT; K_HOME; K_END;
          K_BACKSPACE; K_DELETE] ->
  char_isdigit c = true \/ c = 46%Z \/ c = 45%Z ->
  exists typed,
    _handle_text_input float_of_str char_isdigit self k [c] log
    = Ok ((true, typed), log)
    /\ input_buffer (entry typed)
       = py_slice_to (input_buffer (entry self)) (input_cursor (entry self))
         ++ [c]
         ++ py_slice_from (input_buffer (entry self)) (input_cursor (entry self))
    /\ input_cursor (entry typed) = (input_cursor (entry self) + 1)%Z
    /\ _handle_text_input float_of_str char_isdigit typed K_BACKSPACE unicode log
       = Ok ((true, self), log).
Proof.
  unfold cursor_in_buffer. intros Hactive Hc Hk Hchar.
  destruct (active_input_slider (entry self)) as [ref|] eqn:Eactive;
    [clear Hactive | congruence].
  assert (Hallowed :
            negb (str_eqb [c] [])
            && (str_isdigit char_isdigit [c]
                || str_eqb [c] [46%Z] || str_eqb [c] [45%Z]) = true).
  { cbn [negb andb str_isdigit forallb]. unfold str_eqb.
    destruct (list_eq_dec Z.eq_dec [c] []) as [E|_]; [discriminate|].
    cbn [negb andb]. rewrite andb_true_r.
    destruct Hchar as [-> | [-> | ->]]; [reflexivity| |].
    - destruct (list_eq_dec Z.eq_dec [46%Z] [46%Z]); [|contradiction].
      apply orb_true_r || (rewrite orb_true_r; reflexivity).
    - destruct (list_eq_dec Z.eq_dec [45%Z] [45%Z]); [|contradiction].
      apply orb_true_r. }
  exists (set_entry self
            {| active_input_slider := Some ref;
               input_buffer :=
                 py_slice_to (input_buffer (entry self)) (input_cursor (entry self))
                 ++ [c]
                 ++ py_slice_from (input_buffer (entry self))
                      (input_cursor (entry self));
               input_cursor := input_cursor (entry self) + 1 |}).
  split.
  { unfold _handle_text_input. rewrite Eactive, Hallowed.
    destruct k; try reflexivity; exfalso; apply Hk; cbn; tauto. }
  cbn [entry set_entry input_buffer input_cursor].
  split; [reflexivity|]. split; [reflexivity|].
  unfold _handle_text_input.
  cbn [entry set_entry input_buffer input_cursor active_input_slider].
  replace (0 <? input_cursor (entry self) + 1)%Z with true
    by (symmetry; apply Z.ltb_lt; lia).
  replace (input_cursor (entry self) + 1 - 1)%Z with (input_cursor (entry self))
    by lia.
  destruct (slices_around_an_insertion (input_buffer (entry self)) [c]
              (input_cursor (entry self)) Hc) as [Eto Efrom].
  cbv zeta in Eto, Efrom. change (len [c]) with 1%Z in Efrom.
  rewrite Eto, Efrom, slices_rejoin.
  unfold ret. repeat f_equal.
  destruct self as [s w sl [a b cur] dd se sa av de dm].
  cbn in *. now subst.
Qed.

Lemma typing_then_backspace_is_a_round_trip_witness :
  exists typed,
    _handle_text_input no_float ascii_isdigit editing_gui K_other [49%Z] []
    = Ok ((true, typed), [])
    /\ input_buffer (entry typed) = [57; 46; 56; 49]%Z
    /\ _handle_text_input no_float ascii_isdigit typed K_BACKSPACE [] []
       = Ok ((true, editing_gui), []).
Proof.
  destruct (typing_then_backspace_is_a_round_trip
              no_float ascii_isdigit editing_gui K_other 49 [] [])
    as (typed & E & Eb & _ & Eback).
  - discriminate.
  - unfold cursor_in_buffer. cbn. lia.
  - cbn. intuition discriminate.
  - now left.
  - exists typed. split; [exact E|]. split; [rewrite Eb; reflexivity | exact Eback].
Defined.

Lemma Rround_half_even_at_most (x : R) (n : Z) :
  x <= IZR n -> (Rround_half_even x <= n)%Z.
Proof.
  intros Hx. unfold Rround_half_even.
  pose proof (base_fp x) as [Hlo Hhi]. unfold frac_part in *.
  destruct (Z_lt_le_dec (Int_part x) n) as [Hlt|Hge].
  - destruct (Rlt_dec _ _); [lia|].
    destruct (Rlt_dec _ _); [lia|]. destruct (Z.even _); lia.
  - apply IZR_le in Hge.
    destruct (Rlt_dec (x - IZR (Int_part x)) (1 / 2)) as [_|Hn]; [|lra].
    apply le_IZR. lra.
Qed.

(** X29. Committing a typed number to a slider of the panel never
    fails.  Text that is no number only closes the entry.  A number
    is clamped to the slider's range and then moved to the nearest
    step, so it ends up within half a step of the clamped input; when
    the range is a whole number of steps it stays inside the range.
    No other slider changes, the entry is closed with the cursor at
    zero, and the pendulum takes its parameters from the sliders as
    they now are. *)
Theorem commit_snaps_the_typed_number
    (float_of_str : list Z -> option R) (self : Gui R) (n : slider_name)
    (log : list (call R)) :
  let s := get_slider (sliders self) n in
  active_input_slider (entry self) = Some (in_panel n) ->
  min_value s <= max_value s ->
  match float_of_str (input_buffer (entry self)) with
  | None =>
      _commit_input_buffer float_of_str self log
      = Ok (set_entry self (closed_entry (entry self) (input_cursor (entry self))),
            log)
  | Some val =>
      let clamped := Rmax (min_value s) (Rmin (max_value s) val) in
      exists self' v,
        _commit_input_buffer float_of_str self log = Ok (self', log)
        /\ value (get_slider (sliders self') n) = v
        /\ set_value (get_slider (sliders self') n) (value s) = s
        /\ (forall m, m <> n ->
              get_slider (sliders self') m = get_slider (sliders self) m)
        /\ entry self' = closed_entry (entry self) 0
        /\ slider_params (sliders self') (pendulum (sim self))
           = set_initial_energy (pendulum (sim self'))
               (_initial_energy (pendulum (sim self)))
        /\ match slider_step s with
           | None => v = clamped
           | Some step =>
               (step = 0 -> v = clamped)
               /\ (step <> 0 -> Rabs (v - clamped) <= Rabs step / 2)
               /\ (0 < step ->
                   forall steps : Z,
                     max_value s - min_value s = IZR steps * step ->
                     min_value s <= v <= max_value s
                     /\ exists k : Z,
                          (0 <= k <= steps)%Z
                          /\ v = min_value s + IZR k * step)
           end
  end.
Proof.
  intros s Hactive Hrange. rewrite commit_real, Hactive.
  destruct (float_of_str (input_buffer (entry self))) as [val|]; [|reflexivity].
  intros clamped.
  pose proof (clamp_in_range _ _ val Hrange) as Hclamped. fold clamped in Hclamped.
  fold s.
  match goal with |- context [_sync_from_sliders ?x log] =>
    exists (set_default_damping
              (set_sim x
                 (sim (set_default_damping
                         (set_sim x
                            {| pendulum :=
                                 set_initial_energy
                                   (slider_params (sliders x) (pendulum (sim x)))
                                   (Some (total_energy
                                            (slider_params (sliders x)
                                               (pendulum (sim x)))));
                               trail :=
                                 if Req_EM_T
                                      (L1 (slider_params (sliders x) (pendulum (sim x))))
                                      (L1 (pendulum (sim x)))
                                 then
                                   if Req_EM_T
                                        (L2 (slider_params (sliders x) (pendulum (sim x))))
                                        (L2 (pendulum (sim x)))
                                   then trail (sim x)
                                   else fresh_trail
                                          (end_mass (slider_params (sliders x)
                                                       (pendulum (sim x))))
                                          (_rewind_in_progress (trail (sim x)))
                                 else fresh_trail
                                        (end_mass (slider_params (sliders x)
                                                     (pendulum (sim x))))
                                        (_rewind_in_progress (trail (sim x)));
                               paused := paused (sim x);
                               show_trail := show_trail (sim x);
                               time_scale := value (time_scale_slider (sliders x));
                               sim_time := sim_time (sim x);
                               origin := origin (sim x);
                               scale :=
                                 scale_for (window x)
                                   (L1 (slider_params (sliders x) (pendulum (sim x)))
                                    + L2 (slider_params (sliders x)
                                            (pendulum (sim x)))) |})
                         (value (damping_slider (sliders x))))))
              (value (damping_slider (sliders x))))
  end.
  exists (committed_value s val).
  split; [rewrite sync_real; reflexivity|].
  cbn [sim sliders entry set_sim set_default_damping set_entry set_sliders
       pendulum].
  split; [unfold set_slider_value; destruct n; reflexivity|].
  split.
  { unfold s, set_slider_value.
    destruct n; cbn [get_slider map_sliders slider_name_eqb length1_slider
                     length2_slider mass1_slider mass2_slider gravity_slider
                     damping_slider time_scale_slider];
      match goal with |- set_value (set_value ?x _) _ = _ =>
        destruct x; reflexivity end. }
  split.
  { intros m Hm. unfold set_slider_value.
    destruct m, n; try contradiction; reflexivity. }
  split; [reflexivity|]. split; [reflexivity|].
  unfold committed_value. fold clamped.
  destruct (slider_step s) as [step|]; [|reflexivity].
  destruct (Req_EM_T step 0) as [Hz|Hnz].
  { split; [reflexivity|]. split; [contradiction|]. lra. }
  split; [contradiction|]. split.
  { intros _. now apply nearest_on_grid_close. }
  intros Hpos steps Hsteps.
  unfold nearest_on_grid.
  set (q := (clamped - min_value s) / step).
  assert (Hq : 0 <= q <= IZR steps).
  { unfold q. split.
    - apply Rmult_le_pos; [lra|]. left. now apply Rinv_0_lt_compat.
    - apply (Rmult_le_reg_r step); [exact Hpos|].
      replace ((clamped - min_value s) / step * step)
        with (clamped - min_value s) by (field; lra).
      lra. }
  pose proof (Rround_half_even_nonneg q (proj1 Hq)) as Hk0.
  pose proof (Rround_half_even_at_most q steps (proj2 Hq)) as Hk1.
  set (k := Rround_half_even q) in *.
  split.
  - apply IZR_le in Hk0, Hk1. nra.
  - exists k. split; [lia | reflexivity].
Qed.

Lemma commit_snaps_the_typed_number_witness :
  exists self' v,
    _commit_input_buffer (fun _ => Some 9.8) editing_gui [] = Ok (self', [])
    /\ value (gravity_slider (sliders self')) = v
    /\ 0.5 <= v <= 25.
Proof.
  assert (Hrange : min_value (get_slider (sliders editing_gui) Gravity)
                   <= max_value (get_slider (sliders editing_gui) Gravity))
    by (cbn; lra).
  pose proof (commit_snaps_the_typed_number
                (fun _ => Some 9.8) editing_gui Gravity [] eq_refl Hrange) as Hc.
  cbv beta iota zeta in Hc.
  destruct Hc as (self' & v & E & Ev & _ & _ & _ & _ & Hstep).
  exists self', v. split; [exact E|]. split; [exact Ev|].
  change (slider_step (get_slider (sliders editing_gui) Gravity))
    with (Some 0.1) in Hstep.
  destruct Hstep as (_ & _ & Hgrid).
  destruct (Hgrid ltac:(lra) 245%Z) as [Hv _].
  - cbn [get_slider sliders editing_gui set_entry default_gui default_sliders
         gravity_slider min_value max_value]. lra.
  - cbn [get_slider sliders editing_gui set_entry default_gui default_sliders
         gravity_slider min_value max_value] in Hv. exact Hv.
Defined.

Lemma on_resize_is_synced (self self' : Gui R) (w h : Z) log :
  _on_resize self w h log = Ok (self', log) ->
  _sync_from_sliders self' log = Ok (self', log).
Proof.
  unfold _on_resize.
  rewrite (bind_Ok _ _ _ _ _ (update_layout_real _ log)).
  apply sync_is_idempotent.
Qed.

(** X30. A number typed into a slider's box is lost if the window is
    resized before it is committed.  [_on_resize] rebuilds the sliders
    as new objects while [active_input_slider] goes on referring to
    the old one; the commit that follows assigns to that old object,
    so every slider of the panel keeps the value it had, whatever was
    typed, and nothing of the simulation changes; the entry is
    closed. *)
Theorem text_typed_before_a_resize_is_dropped
    (float_of_str : list Z -> option R) (self : Gui R) (n : slider_name)
    (w h : Z) (log : list (call R)) :
  active_input_slider (entry self) = Some (in_panel n) ->
  exists resized committed,
    _on_resize self w h log = Ok (resized, log)
    /\ active_input_slider (entry resized)
       = Some (replaced (get_slider (sliders self) n))
    /\ _commit_input_buffer float_of_str resized log = Ok (committed, log)
    /\ sliders committed = sliders resized
    /\ (forall m, value (get_slider (sliders committed) m)
                  = value (get_slider (sliders self) m))
    /\ sim committed = sim resized
    /\ window committed = window resized
    /\ active_input_slider (entry committed) = None.
Proof.
  intros Hactive.
  destruct (on_resize_real self w h log)
    as (resized & E & _ & _ & Evalue & _ & _ & _ & Eref).
  rewrite Hactive in Eref.
  pose proof (on_resize_is_synced _ _ _ _ _ E) as Esync.
  exists resized.
  destruct (float_of_str (input_buffer (entry resized))) as [val|] eqn:Eparse.
  - exists (set_entry resized (closed_entry (entry resized) 0)).
    split; [exact E|]. split; [exact Eref|]. split.
    { rewrite commit_real, Eref, Eparse.
      apply sync_set_entry. exact Esync. }
    split; [reflexivity|]. split; [exact Evalue|]. now repeat split.
  - exists (set_entry resized
              (closed_entry (entry resized) (input_cursor (entry resized)))).
    split; [exact E|]. split; [exact Eref|]. split.
    { rewrite commit_real, Eref, Eparse. reflexivity. }
    split; [reflexivity|]. split; [exact Evalue|]. now repeat split.
Qed.

Lemma text_typed_before_a_resize_is_dropped_witness :
  exists resized committed,
    _on_resize editing_gui 1000 700 [] = Ok (resized, [])
    /\ _commit_input_buffer (fun _ => Some 20) resized [] = Ok (committed, [])
    /\ value (gravity_slider (sliders committed)) = 9.81.
Proof.
  destruct (text_typed_before_a_resize_is_dropped
              (fun _ => Some 20) editing_gui Gravity 1000 700 [] eq_refl)
    as (resized & committed & E & _ & Ec & _ & Ev & _).
  exists resized, committed. split; [exact E|]. split; [exact Ec|].
  exact (Ev Gravity).
Defined.
